(** * quill-resizable-table: a shallow embedding of [src/ResizableTable.ts]

    The development follows the layout of the TypeScript class:

    - [JS]: the JavaScript values the code computes with (numbers with
      [NaN] and [undefined], arrays read and written by index, string
      repetition);
    - [DOM]: the part of the HTML table API the class calls
      ([insertCell], [deleteCell], [insertRow], [deleteRow], [insertBefore]),
      with the [IndexSizeError] cases of the HTML Standard written out;
    - the geometry helpers, edge detection, the drag handlers, the
      structural mutators, the context menu and table creation of
      [ResizableTable], each under the name it has in the source;
    - the fixtures of the test suite, and the theorems.

    Conventions.  Pixel quantities are rationals ([Q]), so the rounding of
    floating-point arithmetic is not modelled; an index handed to the
    public API is any integer ([Z]).  An inline style length is kept as
    the value the code wrote in front of ['px'] ([None] is the empty
    string); the host keeps a value it is given only when it is a length
    the property accepts ([setLength]), and a string is built only up to
    the length the engine allows ([JS.maxStringLength]).
    Layout measurements ([offsetWidth], [offsetHeight],
    [getBoundingClientRect]) are fields of the elements: they are the
    host's answers at the time a handler runs, and an element created by a
    handler measures zero until the host lays it out again.  A method of
    the class takes the instance ([this]) and the table it is called on and
    returns both; a method that can throw returns a [result], and the
    state at the point of a throw is not part of it.  The cursor classes
    of [onEditorMouseMove] and the hover buttons, which the class keeps
    apart from the table, have a state of their own ([CursorClasses],
    [EdgeButtons]); the registration of listeners is left out, but for
    the scroll listener of the buttons. *)

From Stdlib Require Import String Ascii ZArith QArith Qminmax List Bool Lia Lqa.
Import ListNotations.

Set Implicit Arguments.

(** ** Exceptions and fallible computations *)

Inductive exn : Type :=
| IndexSizeError   (* DOMException raised by the table API *)
| TypeError        (* property read on [undefined] *)
| RangeError.      (* a negative repeat count, a string too long to build *)

Inductive result (A : Type) : Type :=
| Ok (a : A)
| Throw (e : exn).

Arguments Ok {A} a.
Arguments Throw {A} e.

Definition bind {A B : Type} (m : result A) (k : A -> result B) : result B :=
  match m with
  | Ok a => k a
  | Throw e => Throw e
  end.

Declare Scope result_scope.
Delimit Scope result_scope with result.
Notation "x <- m ;; k" := (bind m (fun x => k))
  (at level 61, m at next level, right associativity) : result_scope.
Notation "' p <- m ;; k" := (bind m (fun x => let p := x in k))
  (at level 61, p pattern, m at next level, right associativity) : result_scope.

Definition throws {A : Type} (m : result A) : bool :=
  match m with Ok _ => false | Throw _ => true end.

(** A [for] loop over the elements of a collection whose body may throw. *)
Fixpoint mapM {A B : Type} (f : A -> result B) (l : list A) : result (list B) :=
  match l with
  | [] => Ok []
  | a :: l' =>
      (b <- f a ;; bs <- mapM f l' ;; Ok (b :: bs))%result
  end.

(** ** JavaScript values *)

Module JS.

(** The values that flow through the geometry code: a finite number,
    [NaN], or [undefined] (an array read out of range, an array hole). *)
Inductive val : Type :=
| Num (q : Q)
| NaN
| Undefined.

(** [a + b] on numbers; [undefined] converts to [NaN]. *)
Definition add (a b : val) : val :=
  match a, b with
  | Num x, Num y => Num (x + y)
  | _, _ => NaN
  end.

(** [Math.max(a, b)]. *)
Definition max (a b : val) : val :=
  match a, b with
  | Num x, Num y => Num (Qmax x y)
  | _, _ => NaN
  end.

(** Truthiness of a number: [0] and [NaN] are falsy. *)
Definition truthy (a : val) : bool :=
  match a with
  | Num q => negb (Qeq_bool q 0)
  | _ => false
  end.

(** [a || b]. *)
Definition or_else (a b : val) : val := if truthy a then a else b.

(** [arr[i]]: [undefined] outside of the array. *)
Definition get (arr : list val) (i : Z) : val :=
  if (i <? 0)%Z then Undefined
  else nth (Z.to_nat i) arr Undefined.

(** [arr[i] = v]: writing past the end extends the array with holes;
    a negative index leaves the elements alone. *)
Definition set (arr : list val) (i : Z) (v : val) : list val :=
  if (i <? 0)%Z then arr
  else
    let n := Z.to_nat i in
    if (n <? length arr)%nat
    then firstn n arr ++ v :: skipn (S n) arr
    else arr ++ repeat Undefined (n - length arr) ++ [v].

(** [widths.reduce((a, b) => a + b, 0)]. *)
Definition sum (arr : list val) : val :=
  fold_left add arr (Num 0).

(** The longest string the engine builds, in code units: [2^29 - 24] in
    V8 on a 64-bit platform, the engine the test suite of the repository
    runs under.  Building a longer one raises [RangeError]. *)
Definition maxStringLength : Z := 536870888.

(** [s.repeat(n)]: [RangeError] for a negative count and for a result
    longer than the engine allows. *)
Fixpoint repeat_nat (s : string) (n : nat) : string :=
  match n with
  | O => EmptyString
  | S n' => (s ++ repeat_nat s n')%string
  end.

Definition repeat (s : string) (n : Z) : result string :=
  if (n <? 0)%Z then Throw RangeError
  else if (maxStringLength <? Z.of_nat (String.length s) * n)%Z
       then Throw RangeError
       else Ok (repeat_nat s (Z.to_nat n)).

(** A template literal [`${a}${b}${c}`] over strings: the concatenation
    of its parts, [RangeError] when it is longer than the engine allows. *)
Definition template (parts : list string) : result string :=
  let s := String.concat EmptyString parts in
  if (maxStringLength <? Z.of_nat (String.length s))%Z
  then Throw RangeError
  else Ok s.

End JS.

(** An inline style length: [Some v] is the string [v + 'px'], [None] the
    empty string. *)
Definition css : Type := option JS.val.

(** The setter of [style.width] and [style.height], called with
    [v + 'px']: the host keeps the value when it is a length the property
    accepts, a number that is not negative; ['NaNpx'], ['undefinedpx'] and
    a negative length are dropped, and the property keeps what it held. *)
Definition validLength (v : JS.val) : bool :=
  match v with
  | JS.Num q => Qle_bool 0 q
  | _ => false
  end.

Definition setLength (old : css) (v : JS.val) : css :=
  if validLength v then Some v else old.

(** [parseFloat(v + 'px')]. *)
Definition parseFloat (v : JS.val) : JS.val :=
  match v with
  | JS.Num q => JS.Num q
  | _ => JS.NaN
  end.

(** [parseInt(w, 10)] on a style length: the integer part, and [NaN] for
    the empty string. *)
Definition parseInt (w : css) : JS.val :=
  match w with
  | Some (JS.Num q) => JS.Num (inject_Z (Z.quot (Qnum q) (Zpos (Qden q))))
  | _ => JS.NaN
  end.

(** ** The DOM of a table *)

Record Rect : Type := mkRect {
  rect_left : Q;
  rect_top : Q;
  rect_right : Q;
  rect_bottom : Q
}.

(** A [td] or [th] element. *)
Record Cell : Type := mkCell {
  innerHTML : string;
  colSpan : nat;
  rowSpan : nat;
  cell_offsetWidth : Q;
  cell_rect : Rect      (* getBoundingClientRect() *)
}.

(** A [tr] element. *)
Record Row : Type := mkRow {
  cells : list Cell;
  row_offsetHeight : Q;
  row_height : css      (* style.height *)
}.

(** A [col] element of the colgroup. *)
Record Col : Type := mkCol {
  col_width : css       (* style.width *)
}.

Record Table : Type := mkTable {
  rows : list Row;
  colgroup : option (list Col);   (* table.querySelector('colgroup') *)
  layoutFixed : bool;             (* style.tableLayout = 'fixed' *)
  table_width : css;              (* style.width *)
  table_offsetWidth : Q;
  table_offsetHeight : Q;
  attached : bool                 (* still in the document *)
}.

Definition set_rows (t : Table) (rs : list Row) : Table :=
  mkTable rs (colgroup t) (layoutFixed t) (table_width t)
          (table_offsetWidth t) (table_offsetHeight t) (attached t).

Definition set_colgroup (t : Table) (cg : option (list Col)) : Table :=
  mkTable (rows t) cg (layoutFixed t) (table_width t)
          (table_offsetWidth t) (table_offsetHeight t) (attached t).

Definition set_layoutFixed (t : Table) : Table :=
  mkTable (rows t) (colgroup t) true (table_width t)
          (table_offsetWidth t) (table_offsetHeight t) (attached t).

Definition set_table_width (t : Table) (w : css) : Table :=
  mkTable (rows t) (colgroup t) (layoutFixed t) w
          (table_offsetWidth t) (table_offsetHeight t) (attached t).

Definition set_cells (r : Row) (cs : list Cell) : Row :=
  mkRow cs (row_offsetHeight r) (row_height r).

Definition set_row_height (r : Row) (h : css) : Row :=
  mkRow (cells r) (row_offsetHeight r) h.

Definition set_innerHTML (c : Cell) (s : string) : Cell :=
  mkCell s (colSpan c) (rowSpan c) (cell_offsetWidth c) (cell_rect c).

(** Lists addressed by position. *)
Definition insert_at {A : Type} (n : nat) (x : A) (l : list A) : list A :=
  firstn n l ++ x :: skipn n l.

Definition remove_at {A : Type} (n : nat) (l : list A) : list A :=
  firstn n l ++ skipn (S n) l.

Definition update_at {A : Type} (n : nat) (f : A -> A) (l : list A) : list A :=
  match nth_error l n with
  | Some x => firstn n l ++ f x :: skipn (S n) l
  | None => l
  end.

Module DOM.

Definition zeroRect : Rect := mkRect 0 0 0 0.

(** [document.createElement('td')]. *)
Definition newCell : Cell := mkCell EmptyString 1 1 0 zeroRect.

(** [document.createElement('tr')]. *)
Definition newRow : Row := mkRow [] 0 None.

(** [document.createElement('col')]. *)
Definition newCol : Col := mkCol None.

(** [row.insertCell(index)]: [IndexSizeError] when [index < -1] or
    [index > row.cells.length]; [-1] and [row.cells.length] append.
    Returns the position of the new cell with the row. *)
Definition insertCell (row : Row) (index : Z) : result (nat * Row) :=
  let len := length (cells row) in
  if ((index <? -1) || (Z.of_nat len <? index))%Z then Throw IndexSizeError
  else if ((index =? -1) || (index =? Z.of_nat len))%Z
       then Ok (len, set_cells row (cells row ++ [newCell]))
       else Ok (Z.to_nat index,
                set_cells row (insert_at (Z.to_nat index) newCell (cells row))).

(** [row.deleteCell(index)]: [IndexSizeError] when [index < -1] or
    [index >= row.cells.length]; [-1] removes the last cell, if any. *)
Definition deleteCell (row : Row) (index : Z) : result Row :=
  let len := length (cells row) in
  if ((index <? -1) || (Z.of_nat len <=? index))%Z then Throw IndexSizeError
  else if (index =? -1)%Z
       then Ok (set_cells row (removelast (cells row)))
       else Ok (set_cells row (remove_at (Z.to_nat index) (cells row))).

(** [table.insertRow(index)]: [IndexSizeError] when [index < -1] or
    [index > table.rows.length]; [-1] and [table.rows.length] append. *)
Definition insertRow (t : Table) (index : Z) : result (nat * Table) :=
  let len := length (rows t) in
  if ((index <? -1) || (Z.of_nat len <? index))%Z then Throw IndexSizeError
  else if ((index =? -1) || (index =? Z.of_nat len))%Z
       then Ok (len, set_rows t (rows t ++ [newRow]))
       else Ok (Z.to_nat index,
                set_rows t (insert_at (Z.to_nat index) newRow (rows t))).

(** [table.deleteRow(index)]: [IndexSizeError] when [index < -1] or
    [index >= table.rows.length]; [-1] removes the last row, if any. *)
Definition deleteRow (t : Table) (index : Z) : result Table :=
  let len := length (rows t) in
  if ((index <? -1) || (Z.of_nat len <=? index))%Z then Throw IndexSizeError
  else if (index =? -1)%Z
       then Ok (set_rows t (removelast (rows t)))
       else Ok (set_rows t (remove_at (Z.to_nat index) (rows t))).

(** [children[i]] of an element: [undefined] outside of the collection. *)
Definition item {A : Type} (l : list A) (i : Z) : option A :=
  if (i <? 0)%Z then None else nth_error l (Z.to_nat i).

(** [parent.insertBefore(node, parent.children[i])]: a reference child
    that is [undefined] converts to [null], which appends. *)
Definition insertBefore {A : Type} (l : list A) (node : A) (i : Z) : list A :=
  match item l i with
  | Some _ => insert_at (Z.to_nat i) node l
  | None => l ++ [node]
  end.

End DOM.

(** ** The host editor *)

(** The selection returned by [quill.getSelection]. *)
Record Range : Type := mkRange {
  range_index : Z;
  range_length : Z
}.

(** One call of [quill.clipboard.dangerouslyPasteHTML(index, html, source)]. *)
Record Paste : Type := mkPaste {
  paste_index : Z;
  paste_html : string;
  paste_source : string
}.

(** What the class reaches of the host: [getSelection] ([None] when the
    method is absent, [Some None] when it returns [null]), the pastes the
    clipboard has received, and the number of mutation records pending in
    [scroll.observer] ([None] when the observer cannot be reached). *)
Record Quill : Type := mkQuill {
  getSelection : option (option Range);
  pasted : list Paste;
  observer : option nat
}.

(** ** Options *)

Record ResizableTableOptions : Type := mkOptions {
  handleSize : Q;
  minColumnWidth : Q;
  minRowHeight : Q;
  minTableWidth : Q;
  minTableHeight : Q
}.

Definition DEFAULTS : ResizableTableOptions :=
  mkOptions 5 30 20 50 30.

(** The options object a caller supplies: every field is optional. *)
Record PartialOptions : Type := mkPartial {
  p_handleSize : option Q;
  p_minColumnWidth : option Q;
  p_minRowHeight : option Q;
  p_minTableWidth : option Q;
  p_minTableHeight : option Q
}.

Definition or_default (o : option Q) (d : Q) : Q :=
  match o with Some q => q | None => d end.

(** [{ ...DEFAULTS, ...options }]. *)
Definition mergeOptions (p : PartialOptions) : ResizableTableOptions :=
  mkOptions (or_default (p_handleSize p) (handleSize DEFAULTS))
            (or_default (p_minColumnWidth p) (minColumnWidth DEFAULTS))
            (or_default (p_minRowHeight p) (minRowHeight DEFAULTS))
            (or_default (p_minTableWidth p) (minTableWidth DEFAULTS))
            (or_default (p_minTableHeight p) (minTableHeight DEFAULTS)).

(** ** State of the class *)

Inductive Edge : Type := col | row | corner.

Record DragState : Type := mkDrag {
  edge : Edge;
  startX : Q;
  startY : Q;
  colIndex : Z;
  rowIndex : Z;
  colWidths : list JS.val;
  rowHeights : list JS.val;
  tableWidth : Q;
  tableHeight : Q
}.

Inductive Position : Type := before | after.

(** The closure bound to a menu entry. *)
Inductive Action : Type :=
| ActInsertColumn (colIndex : Z) (position : Position)
| ActDeleteColumn (colIndex : Z)
| ActInsertRow (rowIndex : Z) (position : Position)
| ActDeleteRow (rowIndex : Z)
| ActDeleteTable.

Record MenuItem : Type := mkItem {
  label : string;
  action : Action;
  dividerAfter : bool;
  disabled : bool
}.

(** A child of the menu element: an entry of class
    [qrt-context-menu-item] (with [qrt-disabled] when disabled, and then
    without a [mousedown] listener), or a divider. *)
Inductive MenuChild : Type :=
| ItemEl (isDisabled : bool) (textContent : string) (listener : option Action)
| DividerEl.

Record Menu : Type := mkMenu {
  menu_left : Q;
  menu_top : Q;
  menu_children : list MenuChild
}.

(** A cell of the table, by the position of its row in [table.rows] and
    its position in [row.cells]. *)
Definition CellRef : Type := (nat * nat)%type.

(** [target] is [e.target.closest('td, th')], [None] when the event did
    not happen inside a cell. *)
Record MouseEvent : Type := mkMouse {
  clientX : Q;
  clientY : Q;
  target : option CellRef
}.

(** The cursor shown by the drag overlay. *)
Inductive Cursor : Type :=
| col_resize | row_resize | nwse_resize | default_cursor.

Record ResizableTable : Type := mkThis {
  quill : Quill;
  options : ResizableTableOptions;
  drag : option DragState;
  overlay : option Cursor;        (* the full-viewport drag overlay *)
  contextMenu : option Menu;
  contextCell : option CellRef
}.

Definition set_quill (this : ResizableTable) (q : Quill) : ResizableTable :=
  mkThis q (options this) (drag this) (overlay this)
         (contextMenu this) (contextCell this).

Definition set_drag (this : ResizableTable) (d : option DragState) : ResizableTable :=
  mkThis (quill this) (options this) d (overlay this)
         (contextMenu this) (contextCell this).

Definition set_overlay (this : ResizableTable) (o : option Cursor) : ResizableTable :=
  mkThis (quill this) (options this) (drag this) o
         (contextMenu this) (contextCell this).

Definition set_contextMenu (this : ResizableTable) (m : option Menu) : ResizableTable :=
  mkThis (quill this) (options this) (drag this) (overlay this)
         m (contextCell this).

Definition set_contextCell (this : ResizableTable) (c : option CellRef) : ResizableTable :=
  mkThis (quill this) (options this) (drag this) (overlay this)
         (contextMenu this) c.

(** [new ResizableTable(quill, options)]. *)
Definition constructor (q : Quill) (p : PartialOptions) : ResizableTable :=
  mkThis q (mergeOptions p) None None None None.

(** ** Geometry helpers *)

(** [cell.colSpan || 1] and [cell.rowSpan || 1]. *)
Definition colSpanOr1 (c : Cell) : nat :=
  if (colSpan c =? 0)%nat then 1%nat else colSpan c.

Definition rowSpanOr1 (c : Cell) : nat :=
  if (rowSpan c =? 0)%nat then 1%nat else rowSpan c.

(** [getCellColIndex(td)] for the cell at position [c] of [r]: the walk
    over [previousElementSibling], nearest sibling first. *)
Definition getCellColIndex (r : Row) (c : nat) : Z :=
  fold_left (fun index sibling => (index + Z.of_nat (colSpanOr1 sibling))%Z)
            (rev (firstn c (cells r))) 0%Z.

(** The loop of [getColumnCount] over the cells of the first row. *)
Definition spanSum (l : list Cell) : Z :=
  fold_left (fun count c => (count + Z.of_nat (colSpanOr1 c))%Z) l 0%Z.

(** [getCellRowIndex(td, table)] for a cell of the [r]-th row: the
    position of that row in [table.rows]. *)
Definition getCellRowIndex (r : nat) : Z := Z.of_nat r.

(** [getColumnCount(table)]. *)
Definition getColumnCount (t : Table) : Z :=
  match rows t with
  | [] => 0%Z
  | firstRow :: _ => spanSum (cells firstRow)
  end.

(** [getColumnWidths(table)]. *)
Definition getColumnWidths (t : Table) : list JS.val :=
  match rows t with
  | [] => []
  | firstRow :: _ =>
      flat_map (fun c =>
                  let span := colSpanOr1 c in
                  let w := cell_offsetWidth c / inject_Z (Z.of_nat span) in
                  repeat (JS.Num w) span)
               (cells firstRow)
  end.

(** [getRowHeights(table)]. *)
Definition getRowHeights (t : Table) : list JS.val :=
  map (fun r => JS.Num (row_offsetHeight r)) (rows t).

(** [syncQuill()]: drains the observer when it can be reached. *)
Definition syncQuill (this : ResizableTable) : ResizableTable :=
  match observer (quill this) with
  | Some _ =>
      set_quill this (mkQuill (getSelection (quill this))
                              (pasted (quill this)) (Some 0%nat))
  | None => this
  end.

(** [applyColumnWidths(table, widths)]. *)
Definition applyColumnWidths (t : Table) (widths : list JS.val) : Table :=
  let t0 := set_layoutFixed t in
  let t1 := set_table_width t0 (setLength (table_width t0) (JS.sum widths)) in
  let cg0 := match colgroup t1 with Some cg => cg | None => [] end in
  let cg1 := firstn (length widths) cg0 in
  let cg2 := cg1 ++ repeat DOM.newCol (length widths - length cg1) in
  let cg3 := map (fun cw => mkCol (setLength (col_width (fst cw)) (snd cw)))
                 (combine cg2 widths) in
  set_colgroup t1 (Some cg3).

(** [resizeColumnDirect(table, colIndex, newWidth)]. *)
Definition resizeColumnDirect (this : ResizableTable) (t : Table)
           (colIndex : Z) (newWidth : JS.val)
  : result (ResizableTable * Table) :=
  let t1 := set_layoutFixed t in
  let cg0 :=
    match colgroup t1 with
    | Some cg => cg
    | None =>
        map (fun w => mkCol (setLength (col_width DOM.newCol) w))
            (getColumnWidths t1)
    end in
  let cg1 := cg0 ++ repeat DOM.newCol (Z.to_nat (colIndex + 1) - length cg0) in
  match DOM.item cg1 colIndex with
  | None => Throw TypeError
  | Some _ =>
      let cg2 := update_at (Z.to_nat colIndex)
                           (fun c => mkCol (setLength (col_width c) newWidth))
                           cg1 in
      let totalWidth :=
        fold_left (fun sum c =>
                     JS.add sum (match col_width c with
                                 | Some w => parseFloat w
                                 | None => JS.Num 0
                                 end))
                  cg2 (JS.Num 0) in
      Ok (syncQuill this,
          set_table_width (set_colgroup t1 (Some cg2))
                          (setLength (table_width t1) totalWidth))
  end.

(** [applyRowHeights(table, heights)]. *)
Fixpoint applyHeights (rs : list Row) (heights : list JS.val) : list Row :=
  match rs, heights with
  | r :: rs', h :: heights' =>
      set_row_height r (setLength (row_height r) h) :: applyHeights rs' heights'
  | _, _ => rs
  end.

Definition applyRowHeights (t : Table) (heights : list JS.val) : Table :=
  set_rows t (applyHeights (rows t) heights).

(** ** Cursor and hit-testing *)

Record Hit : Type := mkHit {
  hit_edge : Edge;
  hit_colIndex : Z;
  hit_rowIndex : Z
}.

(** [detectEdge(e)]. *)
Definition detectEdge (this : ResizableTable) (t : Table) (e : MouseEvent)
  : option Hit :=
  match target e with
  | None => None
  | Some (r, c) =>
      match nth_error (rows t) r with
      | None => None
      | Some tr =>
          match nth_error (cells tr) c with
          | None => None
          | Some td =>
              let hs := handleSize (options this) in
              let rect := cell_rect td in
              let nearRight := Qle_bool (rect_right rect - hs) (clientX e) in
              let nearBottom := Qle_bool (rect_bottom rect - hs) (clientY e) in
              if negb nearRight && negb nearBottom then None
              else
                let colIndex := getCellColIndex tr c in
                let rowIndex := getCellRowIndex r in
                let farCol := (colIndex + Z.of_nat (colSpanOr1 td) - 1)%Z in
                let farRow := (rowIndex + Z.of_nat (rowSpanOr1 td) - 1)%Z in
                if nearRight && nearBottom then
                  let isLastCol := (farCol =? getColumnCount t - 1)%Z in
                  let isLastRow :=
                    (farRow =? Z.of_nat (length (rows t)) - 1)%Z in
                  if isLastCol && isLastRow
                  then Some (mkHit corner colIndex rowIndex)
                  else Some (mkHit col farCol rowIndex)
                else if nearRight
                     then Some (mkHit col farCol rowIndex)
                     else Some (mkHit row colIndex farRow)
          end
      end
  end.

(** ** Drag handlers *)

(** [addOverlay()] and [removeOverlay()]. *)
Definition addOverlay (this : ResizableTable) : ResizableTable :=
  match overlay this with
  | Some _ => this
  | None =>
      set_overlay this
        (Some match drag this with
              | Some d =>
                  match edge d with
                  | col => col_resize
                  | row => row_resize
                  | corner => nwse_resize
                  end
              | None => default_cursor
              end)
  end.

Definition removeOverlay (this : ResizableTable) : ResizableTable :=
  set_overlay this None.

(** [onEditorMouseDown(e)]. *)
Definition onEditorMouseDown (this : ResizableTable) (t : Table) (e : MouseEvent)
  : ResizableTable * Table :=
  match detectEdge this t e with
  | None => (this, t)
  | Some hit =>
      let widths := getColumnWidths t in
      let heights := getRowHeights t in
      let this1 :=
        set_drag this
          (Some (mkDrag (hit_edge hit) (clientX e) (clientY e)
                        (hit_colIndex hit) (hit_rowIndex hit)
                        widths heights
                        (table_offsetWidth t) (table_offsetHeight t))) in
      let t1 := applyColumnWidths t widths in
      let t2 := applyRowHeights t1 heights in
      (addOverlay this1, t2)
  end.

(** The two sizes [onDocumentMouseMove] computes from the snapshot. *)
Definition dragNewWidth (o : ResizableTableOptions) (d : DragState) (e : MouseEvent)
  : JS.val :=
  let dx := clientX e - startX d in
  JS.max (JS.Num (minColumnWidth o))
         (JS.add (JS.get (colWidths d) (colIndex d)) (JS.Num dx)).

Definition dragNewHeight (o : ResizableTableOptions) (d : DragState) (e : MouseEvent)
  : JS.val :=
  let dy := clientY e - startY d in
  JS.max (JS.Num (minRowHeight o))
         (JS.add (JS.get (rowHeights d) (rowIndex d)) (JS.Num dy)).

(** [onDocumentMouseMove(e)]; the table is the one the session holds. *)
Definition onDocumentMouseMove (this : ResizableTable) (t : Table) (e : MouseEvent)
  : result (ResizableTable * Table) :=
  match drag this with
  | None => Ok (this, t)
  | Some d =>
      (st1 <- match edge d with
              | col | corner =>
                  resizeColumnDirect this t (colIndex d)
                                     (dragNewWidth (options this) d e)
              | row => Ok (this, t)
              end ;;
       match edge d with
       | row | corner =>
           let updated :=
             JS.set (rowHeights d) (rowIndex d)
                    (dragNewHeight (options this) d e) in
           Ok (fst st1, applyRowHeights (snd st1) updated)
       | col => Ok st1
       end)%result
  end.

(** [onDocumentMouseUp(e)]. *)
Definition onDocumentMouseUp (this : ResizableTable) : ResizableTable :=
  removeOverlay (set_drag this None).

(** ** Table mutation methods *)

(** The content given to every cell the class creates. *)
Definition BR : string := "<br>".

(** [insertColumn(table, colIndex, position)].  When a call of
    [insertCell] throws, the method is left at once; the state at that
    point is not part of the result. *)
Definition insertColumn (this : ResizableTable) (t : Table)
           (colIndex : Z) (position : Position)
  : result (ResizableTable * Table) :=
  let targetIndex :=
    match position with after => (colIndex + 1)%Z | before => colIndex end in
  (rows' <- mapM (fun tr =>
                    ins <- DOM.insertCell tr
                             (Z.min targetIndex (Z.of_nat (length (cells tr)))) ;;
                    Ok (set_cells (snd ins)
                          (update_at (fst ins)
                                     (fun newCell => set_innerHTML newCell BR)
                                     (cells (snd ins)))))
                 (rows t) ;;
   let t1 := set_rows t rows' in
   let t2 :=
     match colgroup t1 with
     | Some cg =>
         let c := mkCol (setLength (col_width DOM.newCol)
                                   (JS.Num (minColumnWidth (options this)))) in
         let cg' :=
           if (targetIndex <? Z.of_nat (length cg))%Z
           then DOM.insertBefore cg c targetIndex
           else cg ++ [c] in
         set_table_width
           (set_colgroup t1 (Some cg'))
           (setLength (table_width t1)
              (JS.Num (table_offsetWidth t1 + minColumnWidth (options this))))
     | None => t1
     end in
   Ok (syncQuill this, t2))%result.

(** [deleteColumn(table, colIndex)]. *)
Definition deleteColumn (this : ResizableTable) (t : Table) (colIndex : Z)
  : result (ResizableTable * Table) :=
  if (getColumnCount t <=? 1)%Z then Ok (this, t)
  else
    (rows' <- mapM (fun tr =>
                      if (colIndex <? Z.of_nat (length (cells tr)))%Z
                      then DOM.deleteCell tr colIndex
                      else Ok tr)
                   (rows t) ;;
     let t1 := set_rows t rows' in
     t2 <- match colgroup t1 with
           | Some cg =>
               if (colIndex <? Z.of_nat (length cg))%Z
               then
                 match DOM.item cg colIndex with
                 | None => Throw TypeError   (* removeChild(undefined) *)
                 | Some _ =>
                     let cg' := remove_at (Z.to_nat colIndex) cg in
                     let total :=
                       fold_left
                         (fun total c =>
                            JS.add total
                                   (JS.or_else (parseInt (col_width c))
                                               (JS.Num (minColumnWidth (options this)))))
                         cg' (JS.Num 0) in
                     Ok (set_table_width (set_colgroup t1 (Some cg'))
                                         (setLength (table_width t1) total))
                 end
               else Ok t1
           | None => Ok t1
           end ;;
     Ok (syncQuill this, t2))%result.

(** The loop of [insertRow]: [colCount] calls of [newRow.insertCell()],
    each followed by [cell.innerHTML = '<br>']. *)
Fixpoint fillRow (n : nat) (tr : Row) : result Row :=
  match n with
  | O => Ok tr
  | S n' =>
      (ins <- DOM.insertCell tr (-1) ;;
       fillRow n' (set_cells (snd ins)
                     (update_at (fst ins)
                                (fun newCell => set_innerHTML newCell BR)
                                (cells (snd ins)))))%result
  end.

(** [insertRow(table, rowIndex, position)]. *)
Definition insertRow (this : ResizableTable) (t : Table)
           (rowIndex : Z) (position : Position)
  : result (ResizableTable * Table) :=
  let targetIndex :=
    match position with after => (rowIndex + 1)%Z | before => rowIndex end in
  let colCount := getColumnCount t in
  (ins <- DOM.insertRow t (Z.min targetIndex (Z.of_nat (length (rows t)))) ;;
   match nth_error (rows (snd ins)) (fst ins) with
   | None => Ok (syncQuill this, snd ins)
   | Some newRow =>
       filled <- fillRow (Z.to_nat colCount) newRow ;;
       Ok (syncQuill this,
           set_rows (snd ins)
                    (update_at (fst ins) (fun _ => filled) (rows (snd ins))))
   end)%result.

(** [deleteRow(table, rowIndex)]. *)
Definition deleteRow (this : ResizableTable) (t : Table) (rowIndex : Z)
  : result (ResizableTable * Table) :=
  if (length (rows t) <=? 1)%nat then Ok (this, t)
  else
    (t' <- DOM.deleteRow t rowIndex ;;
     Ok (syncQuill this, t'))%result.

(** [deleteTable(table)]. *)
Definition deleteTable (this : ResizableTable) (t : Table)
  : ResizableTable * Table :=
  (syncQuill this,
   mkTable (rows t) (colgroup t) (layoutFixed t) (table_width t)
           (table_offsetWidth t) (table_offsetHeight t) false).

(** ** Context menu *)

(** [dismissContextMenu()]. *)
Definition dismissContextMenu (this : ResizableTable) : ResizableTable :=
  match contextMenu this with
  | Some _ => set_contextCell (set_contextMenu this None) None
  | None => this
  end.

(** The [items] array of [showContextMenu]. *)
Definition menuItems (colIndex rowIndex colCount : Z) (rowCount : nat)
  : list MenuItem :=
  [ mkItem "Insert Column Left" (ActInsertColumn colIndex before) false false;
    mkItem "Insert Column Right" (ActInsertColumn colIndex after) false false;
    mkItem "Delete Column" (ActDeleteColumn colIndex) true (colCount <=? 1)%Z;
    mkItem "Insert Row Above" (ActInsertRow rowIndex before) false false;
    mkItem "Insert Row Below" (ActInsertRow rowIndex after) false false;
    mkItem "Delete Row" (ActDeleteRow rowIndex) true (rowCount <=? 1)%nat;
    mkItem "Delete Table" ActDeleteTable false false ].

(** The elements appended to the menu for one entry of [items]. *)
Definition renderItem (item : MenuItem) : list MenuChild :=
  ItemEl (disabled item) (label item)
         (if disabled item then None else Some (action item))
  :: (if dividerAfter item then [DividerEl] else []).

(** [showContextMenu(x, y, td, table)]; the cell is given by its
    position.  The dismiss listeners it registers on the document one tick
    later are [dismissContextMenu] ([mousedown], see [menuMouseDown]) and
    [onKeyDown] ([keydown]). *)
Definition showContextMenu (this : ResizableTable) (t : Table)
           (x y : Q) (td : CellRef)
  : ResizableTable :=
  let this1 := dismissContextMenu this in
  let tr := nth (fst td) (rows t) DOM.newRow in
  let colIndex := getCellColIndex tr (snd td) in
  let rowIndex := getCellRowIndex (fst td) in
  let colCount := getColumnCount t in
  let rowCount := length (rows t) in
  let items := menuItems colIndex rowIndex colCount rowCount in
  set_contextMenu this1 (Some (mkMenu x y (flat_map renderItem items))).

(** [onContextMenu(e)]. *)
Definition onContextMenu (this : ResizableTable) (t : Table) (e : MouseEvent)
  : ResizableTable :=
  match target e with
  | None => this
  | Some td =>
      match nth_error (rows t) (fst td) with
      | None => this
      | Some tr =>
          match nth_error (cells tr) (snd td) with
          | None => this
          | Some _ =>
              showContextMenu (set_contextCell this (Some td)) t
                              (clientX e) (clientY e) td
          end
      end
  end.

(** Running the closure of a menu entry. *)
Definition runAction (this : ResizableTable) (t : Table) (a : Action)
  : result (ResizableTable * Table) :=
  match a with
  | ActInsertColumn i p => insertColumn this t i p
  | ActDeleteColumn i => deleteColumn this t i
  | ActInsertRow i p => insertRow this t i p
  | ActDeleteRow i => deleteRow this t i
  | ActDeleteTable => Ok (deleteTable this t)
  end.

(** A [mousedown] on the [k]-th child of the open menu, once the tick
    after which [showContextMenu] registers its dismiss listeners has
    passed.  The listener of an enabled entry stops the propagation, runs
    [item.action()] and then [dismissContextMenu()]; a disabled entry and
    a divider carry no listener, so the event bubbles up to the document,
    whose [mousedown] listener is [dismissContextMenu]. *)
Definition menuMouseDown (this : ResizableTable) (t : Table) (k : nat)
  : result (ResizableTable * Table) :=
  match contextMenu this with
  | None => Ok (this, t)
  | Some menu =>
      match nth_error (menu_children menu) k with
      | Some (ItemEl _ _ (Some a)) =>
          (st <- runAction this t a ;;
           Ok (dismissContextMenu (fst st), snd st))%result
      | Some _ => Ok (dismissContextMenu this, t)
      | None => Ok (this, t)
      end
  end.

(** The elements of the menu that [querySelectorAll('.qrt-context-menu-item')]
    returns. *)
Definition menuEntries (m : Menu) : list MenuChild :=
  filter (fun c => match c with ItemEl _ _ _ => true | DividerEl => false end)
         (menu_children m).

(** ** Table creation *)

(** [insertNewTable(rows = 3, cols = 3)]: an argument left out is [None]. *)
Definition insertNewTable (this : ResizableTable) (rowsArg colsArg : option Z)
  : result ResizableTable :=
  let nrows := match rowsArg with Some n => n | None => 3%Z end in
  let ncols := match colsArg with Some n => n | None => 3%Z end in
  match getSelection (quill this) with
  | None => Ok this
  | Some None => Ok this
  | Some (Some range) =>
      let cellHTML := "<td><br></td>"%string in
      (cellsHTML <- JS.repeat cellHTML ncols ;;
       rowHTML <- JS.template ["<tr>"; cellsHTML; "</tr>"]%string ;;
       rowsHTML <- JS.repeat rowHTML nrows ;;
       tableHTML <- JS.template ["<table><tbody>"; rowsHTML;
                                 "</tbody></table>"]%string ;;
       let q := quill this in
       let q' := mkQuill (getSelection q)
                         (pasted q ++ [mkPaste (range_index range) tableHTML "user"])
                         (observer q) in
       Ok (syncQuill (set_quill this q')))%result
  end.

(** The cell [insertColumn] and [insertRow] leave in the table: a new
    [td] whose content is ['<br>']. *)
Definition blankCell : Cell := set_innerHTML DOM.newCell BR.

(** The position a cell inserted after index [i] takes in a collection of
    [n] elements. *)
Definition posAfter (i : Z) (n : nat) : nat := Nat.min (S (Z.to_nat i)) n.

(** The [col] element [insertColumn] creates: its width is the minimum
    column width, and is empty when the configured minimum is negative,
    which the host does not take for a width. *)
Definition minCol (this : ResizableTable) : Col :=
  mkCol (if Qle_bool 0 (minColumnWidth (options this))
         then Some (JS.Num (minColumnWidth (options this)))
         else None).

(** What [deleteColumn] leaves of a row, and of the colgroup, for an
    index [n] from 0 on: the element at [n] goes, if there is one. *)
Definition withoutCell (n : nat) (tr : Row) : Row :=
  if (n <? length (cells tr))%nat
  then set_cells tr (remove_at n (cells tr))
  else tr.

Definition withoutCol (n : nat) (cg : list Col) : list Col :=
  if (n <? length cg)%nat then remove_at n cg else cg.

(** The invariant of the column-size overlay: a colgroup, when the table
    has one, has as many children as the table has visual columns. *)
Definition overlayInvariant (t : Table) : Prop :=
  match colgroup t with
  | Some cg => Z.of_nat (length cg) = getColumnCount t
  | None => True
  end.

(** [targetIndex] of [insertColumn] and [insertRow]. *)
Definition targetOf (index : Z) (position : Position) : Z :=
  match position with after => (index + 1)%Z | before => index end.

(** What [insertColumn] leaves of a row, and of the colgroup, for a
    target index [n] from 0 on: one new element at [n], or at the end
    when [n] lies past it. *)
Definition withCell (n : nat) (tr : Row) : Row :=
  set_cells tr (insert_at (Nat.min n (length (cells tr))) blankCell (cells tr)).

Definition withCol (n : nat) (c : Col) (cg : list Col) : list Col :=
  insert_at (Nat.min n (length cg)) c cg.

(** The row [insertRow] builds for a table of [n] visual columns. *)
Definition blankRow (n : Z) : Row :=
  set_cells DOM.newRow (repeat blankCell (Z.to_nat n)).

(** ** The grid of a table

    What it means for a cell to occupy a column or a row of the table, as
    the table model of the HTML Standard lays the cells out; nothing here
    is taken from [detectEdge].  The rows are filled from the top.  In
    each row the cells go, in order, into the first columns that no cell
    of a row above still covers; a cell is [colspan] columns wide
    ([colspan] 0 counts as 1) and covers its columns for [rowspan] rows,
    up to the last row of the table, and down to the last row whatever
    their number when [rowspan] is 0. *)

Module Grid.

(** The number of columns a cell is wide. *)
Definition span (c : Cell) : nat := Nat.max 1 (colSpan c).



















End Grid.



(** What the host guarantees of the measurements a handler reads:
    [offsetWidth] and [offsetHeight] are never negative. *)
Definition measuredRow (tr : Row) : Prop :=
  (0 <= row_offsetHeight tr)%Q /\
  Forall (fun c => (0 <= cell_offsetWidth c)%Q) (cells tr).

Definition measured (t : Table) : Prop := Forall measuredRow (rows t).

(** What the host guarantees of the widths the colgroup holds: each is
    empty or a length [style.width] accepts. *)
Definition acceptedWidth (w : css) : Prop :=
  match w with
  | None => True
  | Some v => validLength v = true
  end.

Definition hostStyled (t : Table) : Prop :=
  forall cg, colgroup t = Some cg -> Forall (fun c => acceptedWidth (col_width c)) cg.

(** The markup of a table given by the rows of its cells: each cell a
    [td] around its content, each row a [tr], all in one [tbody]. *)
Definition cellMarkup (c : Cell) : string :=
  ("<td>" ++ innerHTML c ++ "</td>")%string.

Definition rowMarkup (cs : list Cell) : string :=
  ("<tr>" ++ String.concat EmptyString (map cellMarkup cs) ++ "</tr>")%string.

Definition tableMarkup (rs : list (list Cell)) : string :=
  ("<table><tbody>" ++ String.concat EmptyString (map rowMarkup rs)
   ++ "</tbody></table>")%string.

(** The length, in code units, of the markup of [nrows] rows of [ncols]
    blank cells, and of one such row. *)
Definition rowMarkupLength (ncols : Z) : Z := (9 + 13 * ncols)%Z.

Definition tableMarkupLength (nrows ncols : Z) : Z :=
  (30 + nrows * rowMarkupLength ncols)%Z.

(** The labels of the entries of a menu, in order. *)
Definition entryLabels (m : Menu) : list string :=
  flat_map (fun c => match c with
                     | ItemEl _ text _ => [text]
                     | DividerEl => []
                     end)
           (menu_children m).

(** The entry of a menu with a given label. *)
Definition entryNamed (m : Menu) (name : string) : option MenuChild :=
  find (fun c => match c with
                 | ItemEl _ text _ => String.eqb text name
                 | DividerEl => false
                 end)
       (menu_children m).

(** The instance [this] configured with the options [o]. *)
Definition set_options (this : ResizableTable) (o : ResizableTableOptions)
  : ResizableTable :=
  mkThis (quill this) o (drag this) (overlay this)
         (contextMenu this) (contextCell this).

(** Two configurations that differ at most in [minTableWidth] and
    [minTableHeight]. *)
Definition sameButTableMinimums (o1 o2 : ResizableTableOptions) : Prop :=
  handleSize o1 = handleSize o2 /\
  minColumnWidth o1 = minColumnWidth o2 /\
  minRowHeight o1 = minRowHeight o2.

(** An outcome, with the options of the instance it carries replaced. *)
Definition reconfigured (o : ResizableTableOptions)
           (r : result (ResizableTable * Table))
  : result (ResizableTable * Table) :=
  match r with
  | Ok st => Ok (set_options (fst st) o, snd st)
  | Throw e => Throw e
  end.

(** The number of positions of [s] at which [needle] occurs. *)
Fixpoint occurrences (needle s : string) : nat :=
  match s with
  | EmptyString => 0%nat
  | String _ s' =>
      ((if prefix needle s then 1 else 0) + occurrences needle s')%nat
  end.

(** The parts of the instance a structural edit has no business with:
    the options, the drag session and its overlay, the open menu, and
    the host's selection and clipboard. *)
Definition untouched (a b : ResizableTable) : Prop :=
  options a = options b /\
  drag a = drag b /\
  overlay a = overlay b /\
  contextMenu a = contextMenu b /\
  contextCell a = contextCell b /\
  getSelection (quill a) = getSelection (quill b) /\
  pasted (quill a) = pasted (quill b).

(** The parts of the instance that opening and closing the menu leave
    alone. *)
Definition untouched_but_menu (a b : ResizableTable) : Prop :=
  options a = options b /\
  drag a = drag b /\
  overlay a = overlay b /\
  quill a = quill b.

(** The cursor of the drag overlay for each kind of edge. *)
Definition cursorOf (k : Edge) : Cursor :=
  match k with
  | col => col_resize
  | row => row_resize
  | corner => nwse_resize
  end.

(** ** Keyboard *)

(** [onKeyDown(e)], given [e.key]. *)
Definition onKeyDown (this : ResizableTable) (key : string) : ResizableTable :=
  if String.eqb key "Escape" then dismissContextMenu this else this.

(** ** Cursor classes *)

(** The cells of the editor that carry one of the classes
    [qrt-resize-col], [qrt-resize-row], [qrt-resize-corner], each with the
    edge its class names. *)
Definition CursorClasses : Type := list (CellRef * Edge).

(** [onEditorMouseMove(e)]: during a drag nothing is touched; otherwise
    every resize class is removed and the cell under the pointer gets the
    class of the edge that was hit, if one was. *)
Definition onEditorMouseMove (this : ResizableTable) (t : Table) (e : MouseEvent)
           (classes : CursorClasses) : CursorClasses :=
  match drag this with
  | Some _ => classes
  | None =>
      match detectEdge this t e with
      | None => []
      | Some hit =>
          match target e with
          | None => []
          | Some cell => [(cell, hit_edge hit)]
          end
      end
  end.

(** ** Edge buttons *)

(** The tables of the editor, told apart by an identity. *)
Definition TableId : Type := nat.

(** Where the [relatedTarget] of a hover event lies: nowhere ([null]),
    inside a table, inside one of the three buttons, or on any other
    element. *)
Inductive Place : Type :=
| Nowhere
| InTable (id : TableId)
| OnAddCol
| OnAddRow
| OnDeleteTable
| Elsewhere.

(** A floating button: [style.left] ([style.right] for the delete
    button) and [style.top]. *)
Record Button : Type := mkButton {
  btn_side : Q;
  btn_top : Q
}.

(** The hover state of the class: the three buttons, the hovered table,
    whether a hide timeout is pending and whether the scroll listener is
    registered. *)
Record EdgeButtons : Type := mkEdgeButtons {
  addColBtn : option Button;
  addRowBtn : option Button;
  deleteTableBtn : option Button;
  hoveredTable : option TableId;
  hideEdgeBtnTimer : bool;
  scrollListener : bool
}.

Definition isSome {A : Type} (o : option A) : bool :=
  match o with Some _ => true | None => false end.

(** The positions [showEdgeButtons] and [onScroll] compute from the
    bounding box of the table and [window.innerWidth]. *)
Definition addColAt (rect : Rect) : Button :=
  mkButton (rect_right rect + 4)
           (rect_top rect + (rect_bottom rect - rect_top rect) / 2 - 12).

Definition addRowAt (rect : Rect) : Button :=
  mkButton (rect_left rect + (rect_right rect - rect_left rect) / 2 - 12)
           (rect_bottom rect + 4).

Definition deleteTableAt (rect : Rect) (innerWidth : Q) : Button :=
  mkButton (innerWidth - rect_right rect + 4) (rect_top rect - 20).

(** [cancelHideEdgeButtons()]. *)
Definition cancelHideEdgeButtons (s : EdgeButtons) : EdgeButtons :=
  mkEdgeButtons (addColBtn s) (addRowBtn s) (deleteTableBtn s)
                (hoveredTable s) false (scrollListener s).

(** [removeEdgeButtons()]. *)
Definition removeEdgeButtons (s : EdgeButtons) : EdgeButtons :=
  mkEdgeButtons None None None (hoveredTable s) false false.

(** [scheduleHideEdgeButtons()]: the timeout is pending until it fires or
    is cancelled. *)
Definition scheduleHideEdgeButtons (s : EdgeButtons) : EdgeButtons :=
  let s1 := cancelHideEdgeButtons s in
  mkEdgeButtons (addColBtn s1) (addRowBtn s1) (deleteTableBtn s1)
                (hoveredTable s1) true (scrollListener s1).

(** The callback of the timeout, 200 ms after it was scheduled unless it
    was cancelled. *)
Definition hideTimerFires (s : EdgeButtons) : EdgeButtons :=
  if hideEdgeBtnTimer s
  then
    let s1 := removeEdgeButtons s in
    mkEdgeButtons (addColBtn s1) (addRowBtn s1) (deleteTableBtn s1)
                  None (hideEdgeBtnTimer s1) (scrollListener s1)
  else s.

(** [showEdgeButtons(table)]. *)
Definition showEdgeButtons (s : EdgeButtons) (rect : Rect) (innerWidth : Q)
  : EdgeButtons :=
  mkEdgeButtons (Some (addColAt rect)) (Some (addRowAt rect))
                (Some (deleteTableAt rect innerWidth))
                (hoveredTable s) (hideEdgeBtnTimer s) true.

(** [onEditorMouseOver(e)]: [table] is [e.target.closest('table')], with
    its bounding box. *)
Definition onEditorMouseOver (s : EdgeButtons) (table : option TableId)
           (rect : Rect) (innerWidth : Q) : EdgeButtons :=
  match table with
  | None => s
  | Some id =>
      if match hoveredTable s with
         | Some h => (h =? id)%nat
         | None => false
         end
      then cancelHideEdgeButtons s
      else
        let s1 := removeEdgeButtons (cancelHideEdgeButtons s) in
        let s2 := mkEdgeButtons (addColBtn s1) (addRowBtn s1) (deleteTableBtn s1)
                                (Some id) (hideEdgeBtnTimer s1)
                                (scrollListener s1) in
        showEdgeButtons s2 rect innerWidth
  end.

(** [table.contains(related)] for the table of identity [id]. *)
Definition tableContains (id : TableId) (related : Place) : bool :=
  match related with
  | InTable id' => (id' =? id)%nat
  | _ => false
  end.

(** [btn?.contains(related)] for each button. *)
Definition addColContains (s : EdgeButtons) (related : Place) : bool :=
  match related with OnAddCol => isSome (addColBtn s) | _ => false end.

Definition addRowContains (s : EdgeButtons) (related : Place) : bool :=
  match related with OnAddRow => isSome (addRowBtn s) | _ => false end.

Definition deleteTableContains (s : EdgeButtons) (related : Place) : bool :=
  match related with OnDeleteTable => isSome (deleteTableBtn s) | _ => false end.

Definition isNull (related : Place) : bool :=
  match related with Nowhere => true | _ => false end.

(** [onEditorMouseOut(e)]. *)
Definition onEditorMouseOut (s : EdgeButtons) (related : Place) : EdgeButtons :=
  match hoveredTable s with
  | None => s
  | Some h =>
      if negb (isNull related)
         && (tableContains h related
             || addColContains s related
             || addRowContains s related
             || deleteTableContains s related)
      then s
      else scheduleHideEdgeButtons s
  end.

(** [onScroll()]: [rect] is the bounding box of the hovered table. *)
Definition onScroll (s : EdgeButtons) (rect : Rect) (innerWidth : Q)
  : EdgeButtons :=
  match hoveredTable s with
  | None => s
  | Some _ =>
      mkEdgeButtons
        (option_map (fun _ => addColAt rect) (addColBtn s))
        (option_map (fun _ => addRowAt rect) (addRowBtn s))
        (option_map (fun _ => deleteTableAt rect innerWidth) (deleteTableBtn s))
        (hoveredTable s) (hideEdgeBtnTimer s) (scrollListener s)
  end.

(** The listeners of the buttons [showEdgeButtons] creates for the table
    of identity [id]: [mouseenter], and [mouseleave] for each button. *)
Definition buttonMouseEnter (s : EdgeButtons) : EdgeButtons :=
  cancelHideEdgeButtons s.

Definition addColMouseLeave (s : EdgeButtons) (id : TableId) (related : Place)
  : EdgeButtons :=
  if negb (isNull related)
     && (tableContains id related || addRowContains s related)
  then s else scheduleHideEdgeButtons s.

Definition addRowMouseLeave (s : EdgeButtons) (id : TableId) (related : Place)
  : EdgeButtons :=
  if negb (isNull related)
     && (tableContains id related || addColContains s related)
  then s else scheduleHideEdgeButtons s.

Definition deleteTableMouseLeave (s : EdgeButtons) (id : TableId) (related : Place)
  : EdgeButtons :=
  if negb (isNull related)
     && (tableContains id related
         || addColContains s related || addRowContains s related)
  then s else scheduleHideEdgeButtons s.

(** The [mousedown] listeners of the three buttons; [rect] is the
    bounding box of the table once the edit is done. *)
Definition addColMouseDown (this : ResizableTable) (s : EdgeButtons) (t : Table)
           (rect : Rect) (innerWidth : Q)
  : result (ResizableTable * EdgeButtons * Table) :=
  let s1 := cancelHideEdgeButtons s in
  let colCount := getColumnCount t in
  (st <- insertColumn this t (colCount - 1) after ;;
   Ok (fst st, showEdgeButtons (removeEdgeButtons s1) rect innerWidth, snd st))%result.

Definition addRowMouseDown (this : ResizableTable) (s : EdgeButtons) (t : Table)
           (rect : Rect) (innerWidth : Q)
  : result (ResizableTable * EdgeButtons * Table) :=
  let s1 := cancelHideEdgeButtons s in
  (st <- insertRow this t (Z.of_nat (length (rows t)) - 1) after ;;
   Ok (fst st, showEdgeButtons (removeEdgeButtons s1) rect innerWidth, snd st))%result.

Definition deleteTableMouseDown (this : ResizableTable) (s : EdgeButtons) (t : Table)
  : ResizableTable * EdgeButtons * Table :=
  let s1 := cancelHideEdgeButtons s in
  let st := deleteTable this t in
  (fst st, removeEdgeButtons s1, snd st).

(** [destroy()], as far as the state goes: the overlay, the menu and the
    buttons are removed. *)
Definition destroy (this : ResizableTable) (s : EdgeButtons)
  : ResizableTable * EdgeButtons :=
  (dismissContextMenu (removeOverlay this), removeEdgeButtons s).

(** The three buttons are shown together and hidden together, the scroll
    listener is registered exactly while they are shown, and they are
    shown for a hovered table only. *)
Definition buttonsConsistent (s : EdgeButtons) : Prop :=
  isSome (addRowBtn s) = isSome (addColBtn s) /\
  isSome (deleteTableBtn s) = isSome (addColBtn s) /\
  scrollListener s = isSome (addColBtn s) /\
  (isSome (addColBtn s) = true -> isSome (hoveredTable s) = true).

(** ** Fixtures: the table and the instance of the test suite *)

Module Fixture.

(** A cell of [width] by [height] pixels at grid position ([ri], [ci]),
    as [stubCellGeometry] lays it out. *)
Definition cellAt (text : string) (width height : Q) (ri ci : nat) : Cell :=
  let l := inject_Z (Z.of_nat ci) * width in
  let tp := inject_Z (Z.of_nat ri) * height in
  mkCell text 1 1 width (mkRect l tp (l + width) (tp + height)).

Definition rowAt (texts : list string) (width height : Q) (ri : nat) : Row :=
  mkRow ((fix go (ts : list string) (ci : nat) : list Cell :=
            match ts with
            | [] => []
            | s :: ts' => cellAt s width height ri ci :: go ts' (S ci)
            end) texts 0%nat)
        height None.

(** The 2 x 3 table "A1,B1,C1 / A2,B2,C2". *)
Definition table (width height : Q) : Table :=
  mkTable [rowAt ["A1"; "B1"; "C1"]%string width height 0;
           rowAt ["A2"; "B2"; "C2"]%string width height 1]
          None false None
          (3 * width) (2 * height) true.

(** The mock host of the tests: [{ root }], nothing else. *)
Definition mockQuill : Quill := mkQuill None [] None.

Definition noOptions : PartialOptions := mkPartial None None None None None.

Definition plugin : ResizableTable := constructor mockQuill noOptions.

(** [new ResizableTable(quill, { handleSize: 10, minColumnWidth: 40 })]. *)
Definition plugin40 : ResizableTable :=
  constructor mockQuill (mkPartial (Some 10) (Some 40) None None None).

(** An instance configured with a negative minimum column width. *)
Definition pluginNegative : ResizableTable :=
  constructor mockQuill (mkPartial (Some 10) (Some (-100)) None None None).

(** [new ResizableTable(quill, { handleSize: 10, minRowHeight: 25 })]. *)
Definition plugin25 : ResizableTable :=
  constructor mockQuill (mkPartial (Some 10) None (Some 25) None None).

(** A [mousedown] two pixels inside the right edge of the first cell of a
    grid of [width] by [height] cells, and one two pixels inside its
    bottom edge. *)
Definition downRight (width : Q) : MouseEvent :=
  mkMouse (width - 2) 10 (Some (0%nat, 0%nat)).

Definition downBottom (height : Q) : MouseEvent :=
  mkMouse 10 (height - 2) (Some (0%nat, 0%nat)).

(** A later [mousemove] on the document, [dx], [dy] away from [e]. *)
Definition moved (e : MouseEvent) (dx dy : Q) : MouseEvent :=
  mkMouse (clientX e + dx) (clientY e + dy) None.

(** The width of the [k]-th entry of the colgroup and the height of the
    [k]-th row, [None] when there is no such element. *)
Definition colWidthAt (t : Table) (k : nat) : option css :=
  match colgroup t with
  | Some cg => option_map col_width (nth_error cg k)
  | None => None
  end.

Definition rowHeightAt (t : Table) (k : nat) : option css :=
  option_map row_height (nth_error (rows t) k).

(** A drag: [mousedown] at [e0], then [mousemove] by [dx], [dy]. *)
Definition dragBy (this : ResizableTable) (t : Table) (e0 : MouseEvent) (dx dy : Q)
  : result (ResizableTable * Table) :=
  let st := onEditorMouseDown this t e0 in
  onDocumentMouseMove (fst st) (snd st) (moved e0 dx dy).

(** A table whose first row has a cell spanning two columns:
    "AB (colspan 2), C1 / A2, B2, C2"; [withColgroup] is the same table
    with a colgroup of three entries of [width] pixels. *)
Definition spanTable : Table :=
  mkTable [mkRow [mkCell "AB" 2 1 200 (mkRect 0 0 200 30);
                  mkCell "C1" 1 1 100 (mkRect 200 0 300 30)] 30 None;
           rowAt ["A2"; "B2"; "C2"]%string 100 30 1]
          None false None 300 60 true.

Definition withColgroup (t : Table) (width : Q) : Table :=
  set_colgroup t (Some (repeat (mkCol (Some (JS.Num width))) 3)).






(** A table whose first row is one cell spanning two columns:
    "AB (colspan 2) / A2, B2". *)
Definition wideCellTable : Table :=
  mkTable [mkRow [mkCell "AB" 2 1 200 (mkRect 0 0 200 30)] 30 None;
           rowAt ["A2"; "B2"]%string 100 30 1]
          None false None 200 60 true.

(** The texts of a table, row by row. *)
Definition texts (t : Table) : list (list string) :=
  map (fun tr => map innerHTML (cells tr)) (rows t).

End Fixture.

(** * Properties *)

(** ** Lists addressed by position *)

Section Positions.

Context {A : Type}.
Implicit Types (l : list A) (x : A) (n k : nat).

Lemma firstn_below n l k :
  (k < n)%nat -> nth_error (firstn n l) k = nth_error l k.
Proof.
  intros Hk. rewrite nth_error_firstn.
  destruct (Nat.ltb_spec k n); [reflexivity | lia].
Qed.

Lemma insert_at_length n x l :
  length (insert_at n x l) = S (length l).
Proof.
  unfold insert_at. rewrite length_app. simpl.
  rewrite <- (firstn_skipn n l) at 3. rewrite length_app. lia.
Qed.

Lemma insert_at_end x l :
  insert_at (length l) x l = l ++ [x].
Proof.
  unfold insert_at. rewrite firstn_all, skipn_all. reflexivity.
Qed.

Lemma insert_at_here n x l :
  (n <= length l)%nat -> nth_error (insert_at n x l) n = Some x.
Proof.
  intros Hn. unfold insert_at.
  rewrite nth_error_app2; rewrite length_firstn, Nat.min_l by lia; [|lia].
  rewrite Nat.sub_diag. reflexivity.
Qed.

Lemma insert_at_below n x l k :
  (k < n)%nat -> (n <= length l)%nat ->
  nth_error (insert_at n x l) k = nth_error l k.
Proof.
  intros Hk Hn. unfold insert_at.
  rewrite nth_error_app1 by (rewrite length_firstn; lia).
  apply firstn_below; assumption.
Qed.

Lemma insert_at_above n x l k :
  (n <= k)%nat -> (n <= length l)%nat ->
  nth_error (insert_at n x l) (S k) = nth_error l k.
Proof.
  intros Hk Hn. unfold insert_at.
  rewrite nth_error_app2; rewrite length_firstn, Nat.min_l by lia; [|lia].
  replace (S k - n)%nat with (S (k - n)) by lia. simpl.
  rewrite nth_error_skipn. f_equal. lia.
Qed.

Lemma splice_exact (a b : list A) x y :
  firstn (length a) (a ++ x :: b) ++ y :: skipn (S (length a)) (a ++ x :: b)
  = a ++ y :: b.
Proof.
  rewrite firstn_app, firstn_all, Nat.sub_diag, firstn_O, app_nil_r.
  f_equal. f_equal.
  change (S (length a)) with (1 + length a)%nat.
  rewrite <- skipn_skipn.
  rewrite skipn_app, skipn_all, Nat.sub_diag. reflexivity.
Qed.

Lemma update_at_insert_at n (f : A -> A) x l :
  (n <= length l)%nat ->
  update_at n f (insert_at n x l) = insert_at n (f x) l.
Proof.
  intros Hn. unfold update_at. rewrite insert_at_here by assumption.
  unfold insert_at.
  assert (Hlen : length (firstn n l) = n)
    by (rewrite length_firstn; lia).
  rewrite <- Hlen at 1 4. apply splice_exact.
Qed.

Lemma remove_at_length n l :
  (n < length l)%nat -> length (remove_at n l) = pred (length l).
Proof.
  intros Hn. unfold remove_at.
  rewrite length_app, length_firstn, length_skipn. lia.
Qed.

Lemma remove_at_below n l k :
  (k < n)%nat -> nth_error (remove_at n l) k = nth_error l k.
Proof.
  intros Hk. unfold remove_at.
  destruct (Nat.le_gt_cases (length l) k) as [Hlen|Hlen].
  - rewrite (proj2 (nth_error_None l k)) by assumption.
    apply nth_error_None.
    rewrite length_app, length_firstn, length_skipn. lia.
  - rewrite nth_error_app1 by (rewrite length_firstn; lia).
    apply firstn_below; assumption.
Qed.

Lemma remove_at_above n l k :
  (n <= k)%nat -> (n < length l)%nat ->
  nth_error (remove_at n l) k = nth_error l (S k).
Proof.
  intros Hk Hn. unfold remove_at.
  rewrite nth_error_app2; rewrite length_firstn, Nat.min_l by lia; [|lia].
  rewrite nth_error_skipn. f_equal. lia.
Qed.

End Positions.

(** A loop whose body never throws is a [map]. *)
Lemma mapM_ok {A B : Type} (f : A -> result B) (g : A -> B) (l : list A) :
  (forall a, In a l -> f a = Ok (g a)) ->
  mapM f l = Ok (map g l).
Proof.
  induction l as [|a l IH]; intros Hf; simpl.
  - reflexivity.
  - rewrite (Hf a) by (left; reflexivity). simpl.
    rewrite IH by (intros b Hb; apply Hf; right; exact Hb).
    reflexivity.
Qed.

(** A loop throws as soon as its first iteration does. *)
Lemma mapM_throw_first {A B : Type} (f : A -> result B) (a : A) (l : list A) (e : exn) :
  f a = Throw e -> mapM f (a :: l) = Throw e.
Proof. intros H. simpl. rewrite H. reflexivity. Qed.

(** ** insertColumn *)

(** The [col] element [insertColumn] creates and gives the minimum column
    width. *)
Lemma minCol_created (this : ResizableTable) :
  mkCol (setLength (col_width DOM.newCol)
                   (JS.Num (minColumnWidth (options this))))
  = minCol this.
Proof. reflexivity. Qed.

(** The iteration of [insertColumn] for one row, when the target index is
    not below [-1]. *)
Lemma insertColumn_row (tr : Row) (targetIndex : Z) :
  (0 <= targetIndex)%Z ->
  (ins <- DOM.insertCell tr (Z.min targetIndex (Z.of_nat (length (cells tr)))) ;;
   Ok (set_cells (snd ins)
         (update_at (fst ins) (fun newCell => set_innerHTML newCell BR)
                    (cells (snd ins)))))%result
  = Ok (set_cells tr
          (insert_at (Nat.min (Z.to_nat targetIndex) (length (cells tr)))
                     blankCell (cells tr))).
Proof.
  intros Hpos. unfold DOM.insertCell.
  set (len := length (cells tr)).
  set (idx := Z.min targetIndex (Z.of_nat len)).
  assert (Hidx : (0 <= idx <= Z.of_nat len)%Z) by (unfold idx; lia).
  assert (Hnat : Z.to_nat idx = Nat.min (Z.to_nat targetIndex) len)
    by (unfold idx; lia).
  replace ((idx <? -1) || (Z.of_nat len <? idx))%Z%bool with false
    by (symmetry; apply orb_false_iff; split; [apply Z.ltb_ge|apply Z.ltb_ge]; lia).
  destruct ((idx =? -1) || (idx =? Z.of_nat len))%Z%bool eqn:Hend; simpl.
  - assert (Heq : idx = Z.of_nat len).
    { apply orb_true_iff in Hend. destruct Hend as [H|H].
      - apply Z.eqb_eq in H. lia.
      - apply Z.eqb_eq in H. exact H. }
    assert (Hmin : Nat.min (Z.to_nat targetIndex) len = len) by lia.
    rewrite Hmin. unfold len. rewrite <- insert_at_end.
    rewrite update_at_insert_at by lia. reflexivity.
  - rewrite Hnat. rewrite update_at_insert_at by (fold len; lia).
    reflexivity.
Qed.

Section InsertColumnAfter.

Variables (this : ResizableTable) (t : Table) (i : Z).
Hypothesis index_nonneg : (0 <= i)%Z.

Lemma insertColumn_after_rows :
  mapM (fun tr =>
          ins <- DOM.insertCell tr
                   (Z.min (i + 1) (Z.of_nat (length (cells tr)))) ;;
          Ok (set_cells (snd ins)
                (update_at (fst ins) (fun newCell => set_innerHTML newCell BR)
                           (cells (snd ins)))))%result
       (rows t)
  = Ok (map (fun tr => set_cells tr
                         (insert_at (posAfter i (length (cells tr))) blankCell (cells tr)))
            (rows t)).
Proof.
  apply mapM_ok. intros tr _.
  rewrite insertColumn_row by lia.
  unfold posAfter. replace (Z.to_nat (i + 1)) with (S (Z.to_nat i)) by lia.
  reflexivity.
Qed.

Lemma rows_after r tr :
  nth_error (rows t) r = Some tr ->
  exists tr',
    nth_error
      (map (fun tr => set_cells tr
                        (insert_at (posAfter i (length (cells tr))) blankCell (cells tr)))
           (rows t)) r = Some tr' /\
    length (cells tr') = S (length (cells tr)) /\
    nth_error (cells tr') (posAfter i (length (cells tr))) = Some blankCell /\
    (forall k, (k < posAfter i (length (cells tr)))%nat ->
               nth_error (cells tr') k = nth_error (cells tr) k) /\
    (forall k, (posAfter i (length (cells tr)) <= k)%nat ->
               nth_error (cells tr') (S k) = nth_error (cells tr) k).
Proof.
  intros Hr.
  exists (set_cells tr (insert_at (posAfter i (length (cells tr))) blankCell (cells tr))).
  assert (Hp : (posAfter i (length (cells tr)) <= length (cells tr))%nat)
    by (unfold posAfter; lia).
  split; [rewrite nth_error_map, Hr; reflexivity|]. simpl.
  split; [apply insert_at_length|].
  split; [apply insert_at_here; exact Hp|].
  split; intros k Hk; [apply insert_at_below|apply insert_at_above];
    assumption.
Qed.

(** C1.  Inserting a column after index [i] (any index from 0 on, also
    one past the end of a row) returns normally; every row gains exactly
    one cell, the blank cell, at position [min (i + 1) (length of the row)],
    so right after the cell that was at [i], with the cells before it and
    after it kept in order; and a colgroup, when the table has one, gains
    exactly one entry, of the minimum column width ([minCol]), at position
    [min (i + 1) (length of the colgroup)], while a table without colgroup
    stays without. *)
Theorem insertColumn_after_spec :
  exists t',
    insertColumn this t i after = Ok (syncQuill this, t') /\
    length (rows t') = length (rows t) /\
    (forall r tr,
        nth_error (rows t) r = Some tr ->
        exists tr',
          nth_error (rows t') r = Some tr' /\
          length (cells tr') = S (length (cells tr)) /\
          nth_error (cells tr') (posAfter i (length (cells tr))) = Some blankCell /\
          (forall k, (k < posAfter i (length (cells tr)))%nat ->
                     nth_error (cells tr') k = nth_error (cells tr) k) /\
          (forall k, (posAfter i (length (cells tr)) <= k)%nat ->
                     nth_error (cells tr') (S k) = nth_error (cells tr) k)) /\
    match colgroup t with
    | None => colgroup t' = None
    | Some cg =>
        exists cg',
          colgroup t' = Some cg' /\
          length cg' = S (length cg) /\
          nth_error cg' (posAfter i (length cg)) = Some (minCol this) /\
          (forall k, (k < posAfter i (length cg))%nat ->
                     nth_error cg' k = nth_error cg k) /\
          (forall k, (posAfter i (length cg) <= k)%nat ->
                     nth_error cg' (S k) = nth_error cg k)
    end.
Proof.
  unfold insertColumn. rewrite insertColumn_after_rows. simpl bind.
  cbn [colgroup set_rows].
  destruct (colgroup t) as [cg|] eqn:Hcolgroup.
  - (* the table has a colgroup *)
    assert (Hp : (posAfter i (length cg) <= length cg)%nat) by (unfold posAfter; lia).
    assert (Hcg :
              (if (i + 1 <? Z.of_nat (length cg))%Z
               then DOM.insertBefore cg (minCol this) (i + 1)
               else cg ++ [minCol this])
              = insert_at (posAfter i (length cg)) (minCol this) cg).
    { destruct (Z.ltb_spec (i + 1) (Z.of_nat (length cg))) as [Hlt|Hge].
      - unfold DOM.insertBefore, DOM.item.
        replace (i + 1 <? 0)%Z with false by (symmetry; apply Z.ltb_ge; lia).
        destruct (nth_error cg (Z.to_nat (i + 1))) eqn:Hnth.
        + unfold posAfter. f_equal. lia.
        + apply nth_error_None in Hnth. lia.
      - replace (posAfter i (length cg)) with (length cg) by (unfold posAfter; lia).
        symmetry. apply insert_at_end. }
    rewrite minCol_created, Hcg.
    eexists. split; [reflexivity|]. simpl.
    split; [apply length_map|].
    split; [apply rows_after|].
    exists (insert_at (posAfter i (length cg)) (minCol this) cg).
    split; [reflexivity|].
    split; [apply insert_at_length|].
    split; [apply insert_at_here; exact Hp|].
    split; intros k Hk; [apply insert_at_below|apply insert_at_above];
      assumption.
  - (* no colgroup: none is created *)
    eexists. split; [reflexivity|]. simpl.
    split; [apply length_map|].
    split; [apply rows_after|exact Hcolgroup].
Qed.

End InsertColumnAfter.

Lemma insertColumn_after_witness :
  exists t',
    insertColumn Fixture.plugin (Fixture.table 100 30) 1 after
    = Ok (syncQuill Fixture.plugin, t') /\
    length (rows t') = 2%nat.
Proof.
  destruct (@insertColumn_after_spec Fixture.plugin (Fixture.table 100 30) 1
              ltac:(lia))
    as (t' & Hrun & Hlen & _).
  exists t'. split; [exact Hrun | exact Hlen].
Defined.

(** The scenario of the test suite: [insertColumn(table, 1, 'after')] on
    the 3-column table. *)
Example insertColumn_after_scenario :
  match insertColumn Fixture.plugin (Fixture.table 100 30) 1 after with
  | Ok (_, t') =>
      Fixture.texts t' = [["A1"; "B1"; "<br>"; "C1"]; ["A2"; "B2"; "<br>"; "C2"]]%string
  | Throw _ => False
  end.
Proof. vm_compute. reflexivity. Qed.

(** ** Drag resizing *)


Lemma Qmax_lower (m x : Q) : (m <= Qmax m x)%Q.
Proof. apply Q.le_max_l. Qed.

Lemma update_at_here {A : Type} (n : nat) (f : A -> A) (l : list A) (x : A) :
  nth_error l n = Some x ->
  nth_error (update_at n f l) n = Some (f x).
Proof.
  intros Hn. unfold update_at. rewrite Hn.
  assert (Hlt : (n < length l)%nat)
    by (apply nth_error_Some; rewrite Hn; discriminate).
  rewrite nth_error_app2; rewrite length_firstn, Nat.min_l by lia; [|lia].
  rewrite Nat.sub_diag. reflexivity.
Qed.

Lemma JS_get_in (arr : list JS.val) (i : Z) (v : JS.val) :
  (0 <= i)%Z -> nth_error arr (Z.to_nat i) = Some v -> JS.get arr i = v.
Proof.
  intros Hi Hn. unfold JS.get.
  replace (i <? 0)%Z with false by (symmetry; apply Z.ltb_ge; lia).
  apply nth_error_nth. exact Hn.
Qed.

Lemma JS_set_in (arr : list JS.val) (i : Z) (v : JS.val) :
  (0 <= i)%Z -> nth_error (JS.set arr i v) (Z.to_nat i) = Some v.
Proof.
  intros Hi. unfold JS.set.
  replace (i <? 0)%Z with false by (symmetry; apply Z.ltb_ge; lia).
  destruct (Nat.ltb_spec (Z.to_nat i) (length arr)) as [Hlt|Hge].
  - rewrite nth_error_app2; rewrite length_firstn, Nat.min_l by lia; [|lia].
    rewrite Nat.sub_diag. reflexivity.
  - rewrite nth_error_app2 by lia.
    rewrite nth_error_app2; rewrite repeat_length; [|lia].
    rewrite Nat.sub_diag. reflexivity.
Qed.

(** What the style setter keeps. *)
Lemma setLength_valid (old : css) (v : JS.val) :
  validLength v = true -> setLength old v = Some v.
Proof. intros H. unfold setLength. rewrite H. reflexivity. Qed.

Lemma setLength_invalid (old : css) (v : JS.val) :
  validLength v = false -> setLength old v = old.
Proof. intros H. unfold setLength. rewrite H. reflexivity. Qed.

Lemma validLength_Num (q : Q) : (0 <= q)%Q -> validLength (JS.Num q) = true.
Proof. intros H. apply Qle_bool_iff. exact H. Qed.

Lemma validLength_negative (q : Q) : (q < 0)%Q -> validLength (JS.Num q) = false.
Proof.
  intros H. simpl. destruct (Qle_bool 0 q) eqn:Hle; [|reflexivity].
  apply Qle_bool_iff in Hle. exfalso. apply (Qlt_not_le _ _ H). exact Hle.
Qed.



Lemma applyHeights_at (rs : list Row) (heights : list JS.val) (k : nat)
      (r : Row) (h : JS.val) :
  nth_error rs k = Some r ->
  nth_error heights k = Some h ->
  nth_error (applyHeights rs heights) k
  = Some (set_row_height r (setLength (row_height r) h)).
Proof.
  revert heights k. induction rs as [|r0 rs IH]; intros heights k Hr Hh.
  - destruct k; discriminate.
  - destruct heights as [|h0 heights]; [destruct k; discriminate|].
    destruct k as [|k]; simpl in *.
    + injection Hr as <-. injection Hh as <-. reflexivity.
    + apply IH; assumption.
Qed.


Section DragSession.

Variables (this : ResizableTable) (t : Table) (d : DragState) (e : MouseEvent).
Hypothesis dragging : drag this = Some d.
Hypothesis colIndex_nonneg : (0 <= colIndex d)%Z.
Hypothesis rowIndex_nonneg : (0 <= rowIndex d)%Z.


End DragSession.



(** The drag scenarios of the test suite. *)
Example drag_column_wider :
  match Fixture.dragBy (constructor Fixture.mockQuill
                          (mkPartial (Some 10) None None None None))
                       (Fixture.table 100 30) (Fixture.downRight 100) 30 0 with
  | Ok (_, t') =>
      option_map (@length Col) (colgroup t') = Some 3%nat /\
      Fixture.colWidthAt t' 0 = Some (Some (JS.Num 130))
  | Throw _ => False
  end.
Proof. vm_compute. split; reflexivity. Qed.

Example drag_column_minimum :
  match Fixture.dragBy Fixture.plugin40 (Fixture.table 60 30)
                       (Fixture.downRight 60) (-50) 0 with
  | Ok (_, t') => Fixture.colWidthAt t' 0 = Some (Some (JS.Num 40))
  | Throw _ => False
  end.
Proof. vm_compute. reflexivity. Qed.

Example drag_row_taller :
  match Fixture.dragBy (constructor Fixture.mockQuill
                          (mkPartial (Some 10) None None None None))
                       (Fixture.table 100 30) (Fixture.downBottom 30) 0 20 with
  | Ok (_, t') => Fixture.rowHeightAt t' 0 = Some (Some (JS.Num 50))
  | Throw _ => False
  end.
Proof. vm_compute. reflexivity. Qed.

Example drag_row_minimum :
  match Fixture.dragBy Fixture.plugin25 (Fixture.table 100 30)
                       (Fixture.downBottom 30) 0 (-20) with
  | Ok (_, t') => Fixture.rowHeightAt t' 0 = Some (Some (JS.Num 25))
  | Throw _ => False
  end.
Proof. vm_compute. reflexivity. Qed.

(** ** Counting visual columns *)

(** The colspan sum [getColumnCount] takes over the cells of a row. *)
Lemma spanSum_from (l : list Cell) (a : Z) :
  fold_left (fun count c => (count + Z.of_nat (colSpanOr1 c))%Z) l a
  = (a + spanSum l)%Z.
Proof.
  unfold spanSum. revert a.
  induction l as [|c l IH]; intros a; simpl.
  - lia.
  - rewrite IH. rewrite (IH (Z.of_nat (colSpanOr1 c))). lia.
Qed.

Lemma spanSum_cons (c : Cell) (l : list Cell) :
  spanSum (c :: l) = (Z.of_nat (colSpanOr1 c) + spanSum l)%Z.
Proof. unfold spanSum at 1. simpl. apply spanSum_from. Qed.

Lemma spanSum_app (l1 l2 : list Cell) :
  spanSum (l1 ++ l2) = (spanSum l1 + spanSum l2)%Z.
Proof.
  induction l1 as [|c l1 IH]; simpl.
  - reflexivity.
  - rewrite !spanSum_cons, IH. lia.
Qed.

Lemma spanSum_rev (l : list Cell) : spanSum (rev l) = spanSum l.
Proof.
  induction l as [|c l IH]; [reflexivity|].
  simpl rev. rewrite spanSum_app, IH, !spanSum_cons.
  unfold spanSum at 2. simpl. lia.
Qed.

Lemma spanSum_nonneg (l : list Cell) : (0 <= spanSum l)%Z.
Proof.
  induction l as [|c l IH]; [unfold spanSum; simpl; lia|].
  rewrite spanSum_cons. lia.
Qed.

Lemma getCellColIndex_nonneg (tr : Row) (c : nat) :
  (0 <= getCellColIndex tr c)%Z.
Proof. apply (spanSum_nonneg (rev (firstn c (cells tr)))). Qed.

Lemma rowSpanOr1_pos (c : Cell) : (1 <= rowSpanOr1 c)%nat.
Proof. unfold rowSpanOr1. destruct (Nat.eqb_spec (rowSpan c) 0); lia. Qed.

Lemma colSpanOr1_pos (c : Cell) : (1 <= colSpanOr1 c)%nat.
Proof. unfold colSpanOr1. destruct (Nat.eqb_spec (colSpan c) 0); lia. Qed.

Lemma spanSum_unit (l : list Cell) :
  Forall (fun c => colSpanOr1 c = 1%nat) l ->
  spanSum l = Z.of_nat (length l).
Proof.
  induction 1 as [|c l Hc _ IH]; [reflexivity|].
  rewrite spanSum_cons, IH, Hc. simpl length. lia.
Qed.

Lemma nth_error_split_at {A : Type} (l : list A) (n : nat) (x : A) :
  nth_error l n = Some x -> l = firstn n l ++ x :: skipn (S n) l.
Proof.
  revert n. induction l as [|a l IH]; intros [|n] H; try discriminate.
  - injection H as ->. reflexivity.
  - simpl. f_equal. apply IH. exact H.
Qed.

Lemma spanSum_remove_at (l : list Cell) (n : nat) (c : Cell) :
  nth_error l n = Some c ->
  spanSum (remove_at n l) = (spanSum l - Z.of_nat (colSpanOr1 c))%Z.
Proof.
  intros H. rewrite (nth_error_split_at _ _ H) at 2.
  unfold remove_at. rewrite !spanSum_app, spanSum_cons. lia.
Qed.

Lemma spanSum_insert_at (l : list Cell) (n : nat) (c : Cell) :
  spanSum (insert_at n c l) = (spanSum l + Z.of_nat (colSpanOr1 c))%Z.
Proof.
  unfold insert_at. rewrite <- (firstn_skipn n l) at 3.
  rewrite !spanSum_app, spanSum_cons. lia.
Qed.

Lemma getColumnCount_rows (t : Table) :
  getColumnCount t
  = match rows t with [] => 0%Z | firstRow :: _ => spanSum (cells firstRow) end.
Proof. reflexivity. Qed.

Lemma getColumnCount_nonneg (t : Table) : (0 <= getColumnCount t)%Z.
Proof.
  rewrite getColumnCount_rows. destruct (rows t); [lia|apply spanSum_nonneg].
Qed.

(** ** deleteColumn *)

Lemma deleteColumn_row (tr : Row) (i : Z) :
  (0 <= i)%Z ->
  (if (i <? Z.of_nat (length (cells tr)))%Z
   then DOM.deleteCell tr i
   else Ok tr)
  = Ok (withoutCell (Z.to_nat i) tr).
Proof.
  intros Hi. unfold withoutCell.
  destruct (Z.ltb_spec i (Z.of_nat (length (cells tr)))) as [Hlt|Hge].
  - destruct (Nat.ltb_spec (Z.to_nat i) (length (cells tr))); [|lia].
    unfold DOM.deleteCell.
    replace ((i <? -1) || (Z.of_nat (length (cells tr)) <=? i))%Z%bool with false
      by (symmetry; apply orb_false_iff; split;
          [apply Z.ltb_ge|apply Z.leb_gt]; lia).
    replace (i =? -1)%Z with false by (symmetry; apply Z.eqb_neq; lia).
    reflexivity.
  - destruct (Nat.ltb_spec (Z.to_nat i) (length (cells tr))); [lia|].
    reflexivity.
Qed.

(** The run of [deleteColumn] above the floor, for an index from 0 on. *)
Lemma deleteColumn_run (this : ResizableTable) (t : Table) (i : Z) :
  (0 <= i)%Z ->
  (1 < getColumnCount t)%Z ->
  exists t',
    deleteColumn this t i = Ok (syncQuill this, t') /\
    rows t' = map (withoutCell (Z.to_nat i)) (rows t) /\
    colgroup t' = option_map (withoutCol (Z.to_nat i)) (colgroup t).
Proof.
  intros Hi HN. unfold deleteColumn.
  replace (getColumnCount t <=? 1)%Z with false by (symmetry; apply Z.leb_gt; lia).
  rewrite (mapM_ok _ (withoutCell (Z.to_nat i)))
    by (intros tr _; apply deleteColumn_row; exact Hi).
  simpl bind. cbn [colgroup set_rows].
  destruct (colgroup t) as [cg|] eqn:Hcolgroup.
  - unfold withoutCol. simpl option_map.
    destruct (Z.ltb_spec i (Z.of_nat (length cg))) as [Hlt|Hge].
    + destruct (Nat.ltb_spec (Z.to_nat i) (length cg)); [|lia].
      unfold DOM.item.
      replace (i <? 0)%Z with false by (symmetry; apply Z.ltb_ge; lia).
      destruct (nth_error cg (Z.to_nat i)) eqn:Hnth;
        [|apply nth_error_None in Hnth; lia].
      simpl bind. eexists. split; [reflexivity|]. split; reflexivity.
    + destruct (Nat.ltb_spec (Z.to_nat i) (length cg)); [lia|].
      simpl bind. eexists. split; [reflexivity|]. simpl.
      split; [reflexivity|exact Hcolgroup].
  - simpl bind. eexists. split; [reflexivity|]. simpl.
    split; [reflexivity|exact Hcolgroup].
Qed.

Lemma getColumnCount_withoutCell (t t' : Table) (n : nat) :
  rows t' = map (withoutCell n) (rows t) ->
  (forall firstRow c,
      nth_error (rows t) 0 = Some firstRow ->
      nth_error (cells firstRow) n = Some c ->
      getColumnCount t' = (getColumnCount t - Z.of_nat (colSpanOr1 c))%Z) /\
  (forall firstRow,
      nth_error (rows t) 0 = Some firstRow ->
      (length (cells firstRow) <= n)%nat ->
      getColumnCount t' = getColumnCount t).
Proof.
  intros Hrows. rewrite !getColumnCount_rows, Hrows.
  split.
  - intros firstRow c Hfirst Hc.
    destruct (rows t) as [|r0 rs]; [discriminate|].
    injection Hfirst as ->. simpl. unfold withoutCell.
    assert (Hlt : (n < length (cells firstRow))%nat)
      by (apply nth_error_Some; rewrite Hc; discriminate).
    destruct (Nat.ltb_spec n (length (cells firstRow))); [|lia].
    simpl. apply spanSum_remove_at. exact Hc.
  - intros firstRow Hfirst Hlen.
    destruct (rows t) as [|r0 rs]; [discriminate|].
    injection Hfirst as ->. simpl. unfold withoutCell.
    destruct (Nat.ltb_spec n (length (cells firstRow))); [lia|].
    reflexivity.
Qed.

(** At the floor of one visual column [deleteColumn] returns at once. *)
Lemma deleteColumn_floor (this : ResizableTable) (t : Table) (i : Z) :
  (getColumnCount t <= 1)%Z -> deleteColumn this t i = Ok (this, t).
Proof.
  intros HN. unfold deleteColumn.
  replace (getColumnCount t <=? 1)%Z with true
    by (symmetry; apply Z.leb_le; exact HN).
  reflexivity.
Qed.

Lemma deleteColumn_returns (this : ResizableTable) (t : Table) (i : Z) :
  (0 <= i)%Z -> exists st, deleteColumn this t i = Ok st.
Proof.
  intros Hi.
  destruct (Z.leb_spec (getColumnCount t) 1) as [Hfloor|Habove].
  - exists (this, t). apply deleteColumn_floor. exact Hfloor.
  - destruct (deleteColumn_run this t Hi Habove) as (t' & Hrun & _).
    exists (syncQuill this, t'). exact Hrun.
Qed.

(** X22.  What [deleteColumn] does for an index [i] from 0 on.  It leaves
    the table (and the instance) as they are when the table has at most one
    visual column; otherwise it returns normally, removes the cell at
    index [i] from every row that has one and leaves the other rows
    untouched, and the visual column count drops by the colspan of the
    first row's cell at index [i] (so from N to N-1 when that cell spans
    one column), or stays N when the first row has no cell at [i]. *)
Lemma deleteColumn_spec (this : ResizableTable) (t : Table) (i : Z) :
  (0 <= i)%Z ->
  ((getColumnCount t <= 1)%Z -> deleteColumn this t i = Ok (this, t)) /\
  ((1 < getColumnCount t)%Z ->
   exists t',
     deleteColumn this t i = Ok (syncQuill this, t') /\
     length (rows t') = length (rows t) /\
     (forall r tr,
         nth_error (rows t) r = Some tr ->
         exists tr',
           nth_error (rows t') r = Some tr' /\
           ((Z.to_nat i < length (cells tr))%nat ->
            cells tr' = remove_at (Z.to_nat i) (cells tr)) /\
           ((length (cells tr) <= Z.to_nat i)%nat -> tr' = tr)) /\
     (forall firstRow c,
         nth_error (rows t) 0 = Some firstRow ->
         nth_error (cells firstRow) (Z.to_nat i) = Some c ->
         getColumnCount t' = (getColumnCount t - Z.of_nat (colSpanOr1 c))%Z /\
         (colSpanOr1 c = 1%nat -> getColumnCount t' = (getColumnCount t - 1)%Z)) /\
     (forall firstRow,
         nth_error (rows t) 0 = Some firstRow ->
         (length (cells firstRow) <= Z.to_nat i)%nat ->
         getColumnCount t' = getColumnCount t)).
Proof.
  intros Hi. split.
  - apply deleteColumn_floor.
  - intros HN.
    destruct (deleteColumn_run this t Hi HN) as (t' & Hrun & Hrows & _).
    destruct (getColumnCount_withoutCell t t' (Z.to_nat i) Hrows)
      as [Hspan Hsame].
    exists t'. split; [exact Hrun|].
    split; [rewrite Hrows; apply length_map|].
    split; [|split].
    + intros r tr Hr. exists (withoutCell (Z.to_nat i) tr).
      split; [rewrite Hrows, nth_error_map, Hr; reflexivity|].
      unfold withoutCell.
      destruct (Nat.ltb_spec (Z.to_nat i) (length (cells tr)));
        split; intros; try lia; reflexivity.
    + intros firstRow c Hfirst Hc.
      pose proof (Hspan firstRow c Hfirst Hc) as Hcount.
      split; [exact Hcount|]. intros Hone. rewrite Hcount, Hone. reflexivity.
    + exact Hsame.
Qed.

Lemma deleteColumn_spec_witness :
  exists t',
    deleteColumn Fixture.plugin (Fixture.table 100 30) 1
    = Ok (syncQuill Fixture.plugin, t') /\
    getColumnCount t' = 2%Z.
Proof.
  destruct (@deleteColumn_spec Fixture.plugin (Fixture.table 100 30) 1
              ltac:(lia)) as [_ Hrun].
  destruct (Hrun ltac:(vm_compute; reflexivity))
    as (t' & Hok & _ & _ & Hcount & _).
  exists t'. split; [exact Hok|].
  destruct (Hcount _ _ eq_refl eq_refl) as [_ Hone].
  exact (Hone eq_refl).
Defined.

(** C3.  [deleteColumn] checks the floor on the number of visual
    columns and then removes by cell index.  On the table
    "AB (colspan 2) / A2, B2", of two visual columns,
    [deleteColumn(table, 0)] is not refused: it removes the only cell of
    the first row, and the table is left with no visual column at all,
    below the floor of one.  On "AB (colspan 2), C1 / A2, B2, C2", of
    three visual columns, the same call leaves one visual column, not
    two. *)
Theorem deleteColumn_below_floor :
  (getColumnCount Fixture.wideCellTable = 2%Z /\
   exists this' t',
     deleteColumn Fixture.plugin Fixture.wideCellTable 0 = Ok (this', t') /\
     Fixture.texts t' = [[]; ["B2"]]%string /\
     getColumnCount t' = 0%Z) /\
  (getColumnCount Fixture.spanTable = 3%Z /\
   exists this' t',
     deleteColumn Fixture.plugin Fixture.spanTable 0 = Ok (this', t') /\
     Fixture.texts t' = [["C1"]; ["B2"; "C2"]]%string /\
     getColumnCount t' = 1%Z /\
     getColumnCount t' <> (getColumnCount Fixture.spanTable - 1)%Z).
Proof.
  split; (split; [reflexivity|]); eexists; eexists;
    (split; [vm_compute; reflexivity|]); repeat split; try reflexivity.
  vm_compute. discriminate.
Qed.

(** The scenarios of the test suite. *)
Example deleteColumn_scenario :
  match deleteColumn Fixture.plugin (Fixture.table 100 30) 1 with
  | Ok (_, t') => Fixture.texts t' = [["A1"; "C1"]; ["A2"; "C2"]]%string
  | Throw _ => False
  end.
Proof. vm_compute. reflexivity. Qed.

Example deleteColumn_last_scenario :
  match (st1 <- deleteColumn Fixture.plugin (Fixture.table 100 30) 0 ;;
         st2 <- deleteColumn (fst st1) (snd st1) 0 ;;
         deleteColumn (fst st2) (snd st2) 0)%result with
  | Ok (_, t') => Fixture.texts t' = [["C1"]; ["C2"]]%string
  | Throw _ => False
  end.
Proof. vm_compute. reflexivity. Qed.

(** ** deleteRow *)

(** At the floor of one row [deleteRow] returns at once. *)
Lemma deleteRow_floor (this : ResizableTable) (t : Table) (i : Z) :
  (length (rows t) <= 1)%nat -> deleteRow this t i = Ok (this, t).
Proof.
  intros HM. unfold deleteRow.
  destruct (Nat.leb_spec (length (rows t)) 1); [reflexivity|lia].
Qed.

(** The run of [deleteRow] above the floor, for the index of a row. *)
Lemma deleteRow_run (this : ResizableTable) (t : Table) (i : Z) :
  (0 <= i < Z.of_nat (length (rows t)))%Z ->
  (1 < length (rows t))%nat ->
  deleteRow this t i
  = Ok (syncQuill this, set_rows t (remove_at (Z.to_nat i) (rows t))).
Proof.
  intros Hi HM. unfold deleteRow.
  destruct (Nat.leb_spec (length (rows t)) 1); [lia|].
  unfold DOM.deleteRow.
  replace ((i <? -1) || (Z.of_nat (length (rows t)) <=? i))%Z%bool with false
    by (symmetry; apply orb_false_iff; split;
        [apply Z.ltb_ge|apply Z.leb_gt]; lia).
  replace (i =? -1)%Z with false by (symmetry; apply Z.eqb_neq; lia).
  reflexivity.
Qed.

Lemma deleteRow_returns (this : ResizableTable) (t : Table) (i : Z) :
  (0 <= i < Z.of_nat (length (rows t)))%Z ->
  exists st, deleteRow this t i = Ok st.
Proof.
  intros Hi.
  destruct (Nat.le_gt_cases (length (rows t)) 1) as [Hle|Hgt].
  - exists (this, t). apply deleteRow_floor. exact Hle.
  - eexists. apply deleteRow_run; assumption.
Qed.

(** C4.  For a table of M rows and the index [i] of one of its rows,
    [deleteRow] leaves the table (and the instance) as they are when
    M <= 1, and otherwise returns normally with the row at [i] removed
    and M-1 rows left. *)
Theorem deleteRow_spec (this : ResizableTable) (t : Table) (i : Z) :
  (0 <= i < Z.of_nat (length (rows t)))%Z ->
  ((length (rows t) <= 1)%nat -> deleteRow this t i = Ok (this, t)) /\
  ((1 < length (rows t))%nat ->
   exists t',
     deleteRow this t i = Ok (syncQuill this, t') /\
     rows t' = remove_at (Z.to_nat i) (rows t) /\
     length (rows t') = (length (rows t) - 1)%nat).
Proof.
  intros Hi. split.
  - apply deleteRow_floor.
  - intros HM. eexists.
    split; [apply deleteRow_run; assumption|]. simpl.
    split; [reflexivity|].
    rewrite remove_at_length by lia. lia.
Qed.

Lemma deleteRow_spec_witness :
  exists t',
    deleteRow Fixture.plugin (Fixture.table 100 30) 0
    = Ok (syncQuill Fixture.plugin, t') /\
    length (rows t') = 1%nat.
Proof.
  destruct (@deleteRow_spec Fixture.plugin (Fixture.table 100 30) 0
              ltac:(simpl; lia)) as [_ Hrun].
  destruct (Hrun ltac:(simpl; lia)) as (t' & Hok & _ & Hlen).
  exists t'. split; [exact Hok | exact Hlen].
Defined.

Example deleteRow_scenario :
  match (st1 <- deleteRow Fixture.plugin (Fixture.table 100 30) 0 ;;
         deleteRow (fst st1) (snd st1) 0)%result with
  | Ok (_, t') => Fixture.texts t' = [["A2"; "B2"; "C2"]]%string
  | Throw _ => False
  end.
Proof. vm_compute. reflexivity. Qed.

(** ** The overlay invariant *)

Lemma getColumnWidths_length (t : Table) :
  Z.of_nat (length (getColumnWidths t)) = getColumnCount t.
Proof.
  rewrite getColumnCount_rows. unfold getColumnWidths.
  destruct (rows t) as [|firstRow _]; [reflexivity|].
  induction (cells firstRow) as [|c l IH]; [reflexivity|].
  simpl flat_map. rewrite length_app, repeat_length, spanSum_cons. lia.
Qed.

Lemma spanSum_ge_length (l : list Cell) :
  (Z.of_nat (length l) <= spanSum l)%Z.
Proof.
  induction l as [|c l IH]; [unfold spanSum; simpl; lia|].
  rewrite spanSum_cons. pose proof (colSpanOr1_pos c). simpl length. lia.
Qed.

Lemma update_at_length {A : Type} (n : nat) (f : A -> A) (l : list A) :
  length (update_at n f l) = length l.
Proof.
  unfold update_at. destruct (nth_error l n) as [x|] eqn:Hn; [|reflexivity].
  rewrite (nth_error_split_at _ _ Hn) at 3.
  rewrite !length_app. reflexivity.
Qed.

Lemma applyColumnWidths_colgroup (t : Table) (widths : list JS.val) :
  exists cg,
    colgroup (applyColumnWidths t widths) = Some cg /\
    length cg = length widths /\
    rows (applyColumnWidths t widths) = rows t.
Proof.
  unfold applyColumnWidths. eexists. split; [reflexivity|].
  split; [|reflexivity].
  rewrite length_map, length_combine, length_app, repeat_length, length_firstn.
  lia.
Qed.

Lemma getColumnCount_same_rows (t t' : Table) :
  rows t' = rows t -> getColumnCount t' = getColumnCount t.
Proof. intros H. rewrite !getColumnCount_rows, H. reflexivity. Qed.

Lemma getColumnCount_applyRowHeights (t : Table) (heights : list JS.val) :
  getColumnCount (applyRowHeights t heights) = getColumnCount t.
Proof.
  rewrite !getColumnCount_rows. unfold applyRowHeights. simpl.
  destruct (rows t) as [|r rs]; [reflexivity|].
  destruct heights; reflexivity.
Qed.

(** Applying the snapshot at drag start establishes the invariant. *)
Lemma applyColumnWidths_invariant (t : Table) :
  overlayInvariant (applyColumnWidths t (getColumnWidths t)).
Proof.
  destruct (applyColumnWidths_colgroup t (getColumnWidths t))
    as (cg & Hcg & Hlen & Hrows).
  unfold overlayInvariant. rewrite Hcg, Hlen.
  rewrite (@getColumnCount_same_rows t _ Hrows).
  apply getColumnWidths_length.
Qed.

Lemma onEditorMouseDown_invariant (this : ResizableTable) (t : Table) (e : MouseEvent) :
  detectEdge this t e <> None ->
  overlayInvariant (snd (onEditorMouseDown this t e)).
Proof.
  intros Hhit. unfold onEditorMouseDown.
  destruct (detectEdge this t e) as [hit|]; [|contradiction].
  cbn [snd]. unfold overlayInvariant.
  rewrite getColumnCount_applyRowHeights.
  change (colgroup (applyRowHeights ?u ?h)) with (colgroup u).
  apply applyColumnWidths_invariant.
Qed.

(** Resizing one of the N columns keeps (or, without colgroup,
    establishes) the invariant. *)
Lemma resizeColumnDirect_invariant (this : ResizableTable) (t : Table)
      (ci : Z) (w : JS.val) :
  (0 <= ci < getColumnCount t)%Z ->
  overlayInvariant t ->
  exists this' t',
    resizeColumnDirect this t ci w = Ok (this', t') /\ overlayInvariant t'.
Proof.
  intros Hci Hinv. unfold resizeColumnDirect.
  set (cg0 := match colgroup (set_layoutFixed t) with
              | Some cg => cg
              | None => map (fun w0 => mkCol (setLength (col_width DOM.newCol) w0))
                            (getColumnWidths (set_layoutFixed t))
              end).
  assert (Hcg0 : Z.of_nat (length cg0) = getColumnCount t).
  { unfold cg0, overlayInvariant in *. cbn [colgroup set_layoutFixed].
    destruct (colgroup t) as [cg|]; [exact Hinv|].
    rewrite length_map. apply (getColumnWidths_length (set_layoutFixed t)). }
  replace (Z.to_nat (ci + 1) - length cg0)%nat with 0%nat by lia.
  simpl repeat. rewrite app_nil_r.
  unfold DOM.item.
  replace (ci <? 0)%Z with false by (symmetry; apply Z.ltb_ge; lia).
  destruct (nth_error cg0 (Z.to_nat ci)) eqn:Hnth;
    [|apply nth_error_None in Hnth; lia].
  eexists. eexists. split; [reflexivity|].
  unfold overlayInvariant. cbn [colgroup set_table_width set_colgroup].
  rewrite update_at_length, Hcg0. reflexivity.
Qed.

(** The run of [insertColumn] for a target index from 0 on. *)
Lemma insertColumn_run (this : ResizableTable) (t : Table) (i : Z) (p : Position) :
  (0 <= targetOf i p)%Z ->
  exists t',
    insertColumn this t i p = Ok (syncQuill this, t') /\
    rows t' = map (withCell (Z.to_nat (targetOf i p))) (rows t) /\
    colgroup t'
    = option_map (withCol (Z.to_nat (targetOf i p)) (minCol this)) (colgroup t).
Proof.
  intros Htarget. unfold insertColumn. fold (targetOf i p).
  set (target := targetOf i p) in *.
  rewrite (mapM_ok _ (withCell (Z.to_nat target)))
    by (intros tr _; apply insertColumn_row; exact Htarget).
  simpl bind. cbn [colgroup set_rows].
  destruct (colgroup t) as [cg|] eqn:Hcolgroup.
  - assert (Hcg :
              (if (target <? Z.of_nat (length cg))%Z
               then DOM.insertBefore cg (minCol this) target
               else cg ++ [minCol this])
              = withCol (Z.to_nat target) (minCol this) cg).
    { unfold withCol.
      destruct (Z.ltb_spec target (Z.of_nat (length cg))) as [Hlt|Hge].
      - unfold DOM.insertBefore, DOM.item.
        replace (target <? 0)%Z with false by (symmetry; apply Z.ltb_ge; lia).
        destruct (nth_error cg (Z.to_nat target)) eqn:Hnth.
        + f_equal. lia.
        + apply nth_error_None in Hnth. lia.
      - replace (Nat.min (Z.to_nat target) (length cg)) with (length cg) by lia.
        symmetry. apply insert_at_end. }
    rewrite minCol_created, Hcg.
    eexists. split; [reflexivity|]. split; reflexivity.
  - eexists. split; [reflexivity|]. simpl.
    split; [reflexivity|exact Hcolgroup].
Qed.

Lemma insertColumn_invariant (this : ResizableTable) (t : Table) (i : Z) (p : Position) :
  (0 <= i)%Z ->
  rows t <> [] ->
  overlayInvariant t ->
  exists this' t',
    insertColumn this t i p = Ok (this', t') /\
    getColumnCount t' = (getColumnCount t + 1)%Z /\
    overlayInvariant t'.
Proof.
  intros Hi Hrows Hinv.
  assert (Htarget : (0 <= targetOf i p)%Z) by (destruct p; simpl; lia).
  destruct (insertColumn_run this t i p Htarget) as (t' & Hrun & Hr & Hcg).
  exists (syncQuill this), t'. split; [exact Hrun|].
  assert (Hcount : getColumnCount t' = (getColumnCount t + 1)%Z).
  { rewrite !getColumnCount_rows, Hr.
    destruct (rows t) as [|firstRow rs]; [contradiction|].
    simpl. unfold withCell. simpl. rewrite spanSum_insert_at. reflexivity. }
  split; [exact Hcount|].
  unfold overlayInvariant in *. rewrite Hcg, Hcount.
  destruct (colgroup t) as [cg|]; simpl; [|exact I].
  unfold withCol. rewrite insert_at_length. lia.
Qed.

Lemma deleteColumn_invariant (this : ResizableTable) (t : Table) (i : Z) :
  (0 <= i)%Z ->
  overlayInvariant t ->
  (getColumnCount t <= 1)%Z \/
  (getColumnCount t <= i)%Z \/
  (exists firstRow c,
      nth_error (rows t) 0 = Some firstRow /\
      nth_error (cells firstRow) (Z.to_nat i) = Some c /\
      colSpanOr1 c = 1%nat) ->
  exists this' t',
    deleteColumn this t i = Ok (this', t') /\ overlayInvariant t'.
Proof.
  intros Hi Hinv Hcase.
  destruct (Z.leb_spec (getColumnCount t) 1) as [Hfloor|Habove].
  { exists this, t. split; [|exact Hinv].
    apply deleteColumn_floor. exact Hfloor. }
  destruct (deleteColumn_run this t Hi Habove) as (t' & Hrun & Hr & Hcg).
  destruct (getColumnCount_withoutCell t t' (Z.to_nat i) Hr) as [Hspan Hsame].
  exists (syncQuill this), t'. split; [exact Hrun|].
  unfold overlayInvariant in *. rewrite Hcg.
  destruct (colgroup t) as [cg|]; simpl; [|exact I].
  unfold withoutCol.
  destruct Hcase as [Hfloor|[Hpast|(firstRow & c & Hfirst & Hc & Hone)]].
  - lia.
  - (* the index lies past the last column: nothing goes *)
    destruct (Nat.ltb_spec (Z.to_nat i) (length cg)); [lia|].
    rewrite Hinv. symmetry.
    rewrite getColumnCount_rows in Hpast, Habove.
    destruct (rows t) as [|firstRow rs] eqn:Hrows; [lia|].
    apply (Hsame firstRow); [reflexivity|].
    pose proof (spanSum_ge_length (cells firstRow)). lia.
  - (* the first row's cell at the index spans one column *)
    assert (Hlt : (Z.to_nat i < length (cells firstRow))%nat)
      by (apply nth_error_Some; rewrite Hc; discriminate).
    assert (Hlen : (Z.of_nat (length (cells firstRow)) <= getColumnCount t)%Z).
    { rewrite getColumnCount_rows.
      destruct (rows t) as [|r0 rs]; [discriminate|].
      injection Hfirst as ->. apply spanSum_ge_length. }
    destruct (Nat.ltb_spec (Z.to_nat i) (length cg)); [|lia].
    rewrite remove_at_length by assumption.
    rewrite (Hspan firstRow c Hfirst Hc), Hone. lia.
Qed.

(** X23.  Where the overlay invariant holds.  The equality between the
    number of children of the colgroup and the visual column count is
    established when the snapshot widths are applied at drag start; it is
    kept by resizing one
    of the N columns, by inserting a column at an index from 0 on into a
    table with at least one row, and by deleting a column at an index
    from 0 on when the table is at the floor of one column, when the
    index lies past the last column, or when the first row's cell at that
    index spans one column. *)
Lemma overlayInvariant_preserved (this : ResizableTable) (t : Table) :
  overlayInvariant (applyColumnWidths t (getColumnWidths t)) /\
  (forall e,
      detectEdge this t e <> None ->
      overlayInvariant (snd (onEditorMouseDown this t e))) /\
  (forall ci w,
      (0 <= ci < getColumnCount t)%Z ->
      overlayInvariant t ->
      exists this' t',
        resizeColumnDirect this t ci w = Ok (this', t') /\ overlayInvariant t') /\
  (forall i p,
      (0 <= i)%Z ->
      rows t <> [] ->
      overlayInvariant t ->
      exists this' t',
        insertColumn this t i p = Ok (this', t') /\ overlayInvariant t') /\
  (forall i,
      (0 <= i)%Z ->
      overlayInvariant t ->
      (getColumnCount t <= 1)%Z \/
      (getColumnCount t <= i)%Z \/
      (exists firstRow c,
          nth_error (rows t) 0 = Some firstRow /\
          nth_error (cells firstRow) (Z.to_nat i) = Some c /\
          colSpanOr1 c = 1%nat) ->
      exists this' t',
        deleteColumn this t i = Ok (this', t') /\ overlayInvariant t').
Proof.
  split; [apply applyColumnWidths_invariant|].
  split; [intros e; apply onEditorMouseDown_invariant|].
  split; [intros ci w; apply resizeColumnDirect_invariant|].
  split.
  - intros i p Hi Hrows Hinv.
    destruct (@insertColumn_invariant this t i p Hi Hrows Hinv)
      as (this' & t' & Hrun & _ & Hinv').
    exists this', t'. split; assumption.
  - intros i. apply deleteColumn_invariant.
Qed.

Lemma overlayInvariant_preserved_witness :
  let t := Fixture.withColgroup (Fixture.table 100 30) 100 in
  overlayInvariant t /\
  exists this' t',
    deleteColumn Fixture.plugin t 1 = Ok (this', t') /\ overlayInvariant t'.
Proof.
  intros t.
  assert (Hinv : overlayInvariant t) by reflexivity.
  split; [exact Hinv|].
  destruct (overlayInvariant_preserved Fixture.plugin t)
    as (_ & _ & _ & _ & Hdelete).
  apply (Hdelete 1%Z); [lia | exact Hinv |].
  right. right.
  exists (Fixture.rowAt ["A1"; "B1"; "C1"]%string 100 30 0),
         (Fixture.cellAt "B1" 100 30 0 1).
  repeat split; reflexivity.
Defined.

(** C5.  [deleteColumn] takes one entry out of the colgroup for the
    one cell it takes out of each row, whatever that cell spans.  On
    "AB (colspan 2), C1 / A2, B2, C2" with an overlay of three entries for
    its three visual columns, [deleteColumn(table, 0)] removes the cell
    that spans two columns and one entry: the overlay is left with two
    entries for one visual column, and the invariant is lost. *)
Theorem deleteColumn_breaks_overlay :
  let t := Fixture.withColgroup Fixture.spanTable 100 in
  overlayInvariant t /\
  exists this' t',
    deleteColumn Fixture.plugin t 0 = Ok (this', t') /\
    option_map (@length Col) (colgroup t') = Some 2%nat /\
    getColumnCount t' = 1%Z /\
    ~ overlayInvariant t'.
Proof.
  intros t. split; [reflexivity|].
  eexists. eexists. split; [vm_compute; reflexivity|].
  split; [reflexivity|]. split; [reflexivity|].
  vm_compute. discriminate.
Qed.

(** ** insertRow *)

Lemma fillRow_ok (n : nat) (tr : Row) :
  fillRow n tr = Ok (set_cells tr (cells tr ++ repeat blankCell n)).
Proof.
  revert tr. induction n as [|n IH]; intros tr; simpl fillRow.
  - simpl. rewrite app_nil_r. destruct tr; reflexivity.
  - unfold DOM.insertCell.
    replace ((-1 <? -1) || (Z.of_nat (length (cells tr)) <? -1))%Z%bool
      with false
      by (symmetry; apply orb_false_iff; split; apply Z.ltb_ge; lia).
    simpl bind. rewrite <- insert_at_end.
    rewrite update_at_insert_at by lia. rewrite IH.
    unfold set_cells. cbn [cells row_offsetHeight row_height].
    rewrite insert_at_end, <- app_assoc. reflexivity.
Qed.

(** The run of [insertRow] for a target index from 0 on. *)
Lemma insertRow_run (this : ResizableTable) (t : Table) (i : Z) (p : Position) :
  (0 <= targetOf i p)%Z ->
  exists t',
    insertRow this t i p = Ok (syncQuill this, t') /\
    rows t'
    = insert_at (Nat.min (Z.to_nat (targetOf i p)) (length (rows t)))
                (blankRow (getColumnCount t)) (rows t).
Proof.
  intros Htarget. unfold insertRow. fold (targetOf i p).
  set (target := targetOf i p) in *.
  set (len := length (rows t)).
  set (idx := Z.min target (Z.of_nat len)).
  assert (Hidx : (0 <= idx <= Z.of_nat len)%Z) by (unfold idx; lia).
  assert (Hnat : Z.to_nat idx = Nat.min (Z.to_nat target) len)
    by (unfold idx; lia).
  assert (Hins : DOM.insertRow t idx
                 = Ok (Z.to_nat idx,
                       set_rows t (insert_at (Z.to_nat idx) DOM.newRow (rows t)))).
  { unfold DOM.insertRow. fold len.
    replace ((idx <? -1) || (Z.of_nat len <? idx))%Z%bool with false
      by (symmetry; apply orb_false_iff; split; apply Z.ltb_ge; lia).
    destruct ((idx =? -1) || (idx =? Z.of_nat len))%Z%bool eqn:Hend;
      [|reflexivity].
    assert (Heq : idx = Z.of_nat len).
    { apply orb_true_iff in Hend.
      destruct Hend as [H|H]; apply Z.eqb_eq in H; lia. }
    rewrite Heq, Nat2Z.id. unfold len. rewrite insert_at_end. reflexivity. }
  rewrite Hins. simpl bind. cbn [fst snd rows set_rows].
  rewrite insert_at_here by (fold len; lia).
  rewrite fillRow_ok. simpl bind.
  rewrite update_at_insert_at by (fold len; lia).
  eexists. split; [reflexivity|]. simpl. rewrite Hnat. reflexivity.
Qed.

Example insertRow_below_scenario :
  match insertRow Fixture.plugin (Fixture.table 100 30) 0 after with
  | Ok (_, t') =>
      Fixture.texts t'
      = [["A1"; "B1"; "C1"]; ["<br>"; "<br>"; "<br>"]; ["A2"; "B2"; "C2"]]%string
  | Throw _ => False
  end.
Proof. vm_compute. reflexivity. Qed.

Example insertRow_above_scenario :
  match insertRow Fixture.plugin (Fixture.table 100 30) 1 before with
  | Ok (_, t') =>
      Fixture.texts t'
      = [["A1"; "B1"; "C1"]; ["<br>"; "<br>"; "<br>"]; ["A2"; "B2"; "C2"]]%string
  | Throw _ => False
  end.
Proof. vm_compute. reflexivity. Qed.

Example insertRow_end_scenario :
  match insertRow Fixture.plugin (Fixture.table 100 30) 1 after with
  | Ok (_, t') =>
      Fixture.texts t'
      = [["A1"; "B1"; "C1"]; ["A2"; "B2"; "C2"]; ["<br>"; "<br>"; "<br>"]]%string
  | Throw _ => False
  end.
Proof. vm_compute. reflexivity. Qed.

(** ** Indices out of range *)

(** C6.  For every index from 0 on, however large:
    [insertColumn] and [insertRow] return normally, and a target past the
    end of a row (of the table) appends the new cell (the new row);
    [deleteColumn] returns normally, keeps every row, leaves a row
    without a cell at the index exactly as it was, and is a no-op at the
    floor of one column; [deleteRow] is a no-op at the floor of one row
    and returns normally for the index of a row of the table. *)
Theorem mutations_from_zero (this : ResizableTable) (t : Table) (i : Z) :
  (0 <= i)%Z ->
  (forall p,
      exists t',
        insertColumn this t i p = Ok (syncQuill this, t') /\
        forall r tr,
          nth_error (rows t) r = Some tr ->
          (length (cells tr) <= Z.to_nat (targetOf i p))%nat ->
          nth_error (rows t') r = Some (set_cells tr (cells tr ++ [blankCell]))) /\
  (forall p,
      exists t',
        insertRow this t i p = Ok (syncQuill this, t') /\
        length (rows t') = S (length (rows t)) /\
        ((length (rows t) <= Z.to_nat (targetOf i p))%nat ->
         rows t' = rows t ++ [blankRow (getColumnCount t)])) /\
  (exists this' t',
      deleteColumn this t i = Ok (this', t') /\
      length (rows t') = length (rows t) /\
      forall r tr,
        nth_error (rows t) r = Some tr ->
        (length (cells tr) <= Z.to_nat i)%nat ->
        nth_error (rows t') r = Some tr) /\
  ((getColumnCount t <= 1)%Z -> deleteColumn this t i = Ok (this, t)) /\
  ((length (rows t) <= 1)%nat -> deleteRow this t i = Ok (this, t)) /\
  ((i < Z.of_nat (length (rows t)))%Z ->
   exists this' t', deleteRow this t i = Ok (this', t')).
Proof.
  intros Hi.
  assert (Htarget : forall p, (0 <= targetOf i p)%Z)
    by (intros [|]; simpl; lia).
  split; [|split; [|split; [|split; [|split]]]].
  - intros p.
    destruct (insertColumn_run this t i p (Htarget p)) as (t' & Hrun & Hr & _).
    exists t'. split; [exact Hrun|].
    intros r tr Hnth Hlen. rewrite Hr, nth_error_map, Hnth. simpl.
    unfold withCell. rewrite Nat.min_r by exact Hlen.
    rewrite insert_at_end. reflexivity.
  - intros p.
    destruct (insertRow_run this t i p (Htarget p)) as (t' & Hrun & Hr).
    exists t'. split; [exact Hrun|].
    split; [rewrite Hr; apply insert_at_length|].
    intros Hlen. rewrite Hr, Nat.min_r by exact Hlen.
    apply insert_at_end.
  - destruct (Z.leb_spec (getColumnCount t) 1) as [Hfloor|Habove].
    + exists this, t. split; [apply deleteColumn_floor; exact Hfloor|].
      split; [reflexivity|]. intros r tr Hnth _. exact Hnth.
    + destruct (deleteColumn_run this t Hi Habove) as (t' & Hrun & Hr & _).
      exists (syncQuill this), t'. split; [exact Hrun|].
      split; [rewrite Hr; apply length_map|].
      intros r tr Hnth Hlen. rewrite Hr, nth_error_map, Hnth. cbn [option_map].
      unfold withoutCell.
      destruct (Nat.ltb_spec (Z.to_nat i) (length (cells tr))); [lia|].
      reflexivity.
  - apply deleteColumn_floor.
  - apply deleteRow_floor.
  - intros Hlt.
    destruct (@deleteRow_returns this t i ltac:(lia)) as ([this' t'] & Hrun).
    exists this', t'. exact Hrun.
Qed.

Lemma mutations_from_zero_witness :
  exists t',
    insertColumn Fixture.plugin (Fixture.table 100 30) 7 after
    = Ok (syncQuill Fixture.plugin, t') /\
    nth_error (rows t') 0
    = Some (set_cells (Fixture.rowAt ["A1"; "B1"; "C1"]%string 100 30 0)
                      (cells (Fixture.rowAt ["A1"; "B1"; "C1"]%string 100 30 0)
                       ++ [blankCell])).
Proof.
  destruct (@mutations_from_zero Fixture.plugin (Fixture.table 100 30) 7
              ltac:(lia)) as [Hinsert _].
  destruct (Hinsert after) as (t' & Hrun & Hrows).
  exists t'. split; [exact Hrun|].
  apply Hrows; [reflexivity | simpl; lia].
Defined.

(** An index below [-1] makes each of the four mutators throw. *)
Lemma mutations_negative_counterexample :
  insertColumn Fixture.plugin (Fixture.table 100 30) (-2) before
  = Throw IndexSizeError /\
  insertRow Fixture.plugin (Fixture.table 100 30) (-2) before
  = Throw IndexSizeError /\
  deleteColumn Fixture.plugin (Fixture.table 100 30) (-2)
  = Throw IndexSizeError /\
  deleteRow Fixture.plugin (Fixture.table 100 30) (-2)
  = Throw IndexSizeError.
Proof. repeat split; vm_compute; reflexivity. Qed.

(** [deleteRow] hands its index to [table.deleteRow] unchecked. *)
Example deleteRow_past_the_end :
  deleteRow Fixture.plugin (Fixture.table 100 30) 5 = Throw IndexSizeError.
Proof. vm_compute. reflexivity. Qed.

(** ** Edge detection *)

(** The indices of a hit, which become the target indices of the drag
    session, are never negative. *)
Lemma detectEdge_indices (this : ResizableTable) (t : Table) (e : MouseEvent)
      (hit : Hit) :
  detectEdge this t e = Some hit ->
  (0 <= hit_colIndex hit)%Z /\ (0 <= hit_rowIndex hit)%Z.
Proof.
  unfold detectEdge, getCellRowIndex.
  destruct (target e) as [[r c]|]; [|discriminate].
  destruct (nth_error (rows t) r) as [tr|]; [|discriminate].
  destruct (nth_error (cells tr) c) as [td|]; [|discriminate].
  pose proof (getCellColIndex_nonneg tr c).
  pose proof (colSpanOr1_pos td). pose proof (rowSpanOr1_pos td).
  repeat match goal with
         | |- context [if ?b then _ else _] => destruct b
         end;
    intros Hhit; try discriminate; injection Hhit as <-; simpl; lia.
Qed.

(** *** The grid and the sums of the code *)












Section Corner.

Variables (this : ResizableTable) (t : Table) (e : MouseEvent).
Variables (r c : nat) (tr : Row) (td : Cell).
Hypothesis on_cell : target e = Some (r, c).
Hypothesis in_table : nth_error (rows t) r = Some tr.
Hypothesis in_row : nth_error (cells tr) c = Some td.
Hypothesis near_right :
  (rect_right (cell_rect td) - handleSize (options this) <= clientX e)%Q.
Hypothesis near_bottom :
  (rect_bottom (cell_rect td) - handleSize (options this) <= clientY e)%Q.


End Corner.



(** Both edges of a cell that is not in the last row: a column resize. *)
Example detectEdge_inner_corner :
  detectEdge Fixture.plugin (Fixture.table 100 30)
             (mkMouse 298 28 (Some (0%nat, 2%nat)))
  = Some (mkHit col 2 0).
Proof. vm_compute. reflexivity. Qed.

(** ** Context menu *)

Lemma dismissContextMenu_closed (this : ResizableTable) :
  contextMenu (dismissContextMenu this) = None.
Proof.
  unfold dismissContextMenu.
  destruct (contextMenu this) eqn:Hopen; simpl; [reflexivity|exact Hopen].
Qed.

(** The listener of an entry closes the menu once its action returned. *)
Lemma menuMouseDown_dismisses (this : ResizableTable) (t : Table) (k : nat)
      (m : Menu) (d : bool) (text : string) (a : Action)
      (st : ResizableTable * Table) :
  contextMenu this = Some m ->
  nth_error (menu_children m) k = Some (ItemEl d text (Some a)) ->
  runAction this t a = Ok st ->
  menuMouseDown this t k = Ok (dismissContextMenu (fst st), snd st).
Proof.
  intros Hm Hk Hrun. unfold menuMouseDown. rewrite Hm, Hk, Hrun. reflexivity.
Qed.

Lemma insertColumn_returns (this : ResizableTable) (t : Table) (i : Z) (p : Position) :
  (0 <= i)%Z -> exists st, insertColumn this t i p = Ok st.
Proof.
  intros Hi.
  destruct (@insertColumn_run this t i p ltac:(destruct p; simpl; lia))
    as (t' & Hrun & _).
  exists (syncQuill this, t'). exact Hrun.
Qed.

Lemma insertRow_returns (this : ResizableTable) (t : Table) (i : Z) (p : Position) :
  (0 <= i)%Z -> exists st, insertRow this t i p = Ok st.
Proof.
  intros Hi.
  destruct (@insertRow_run this t i p ltac:(destruct p; simpl; lia))
    as (t' & Hrun & _).
  exists (syncQuill this, t'). exact Hrun.
Qed.

Section ContextMenu.

Variables (this : ResizableTable) (t : Table) (x y : Q).
Variables (r c : nat) (tr : Row).
Hypothesis in_table : nth_error (rows t) r = Some tr.

(** The menu element [showContextMenu] builds for the cell at position
    [c] of the row [tr]. *)
Lemma showContextMenu_children :
  contextMenu (showContextMenu this t x y (r, c))
  = Some (mkMenu x y
            [ItemEl false "Insert Column Left"
                    (Some (ActInsertColumn (getCellColIndex tr c) before));
             ItemEl false "Insert Column Right"
                    (Some (ActInsertColumn (getCellColIndex tr c) after));
             ItemEl (getColumnCount t <=? 1)%Z "Delete Column"
                    (if (getColumnCount t <=? 1)%Z then None
                     else Some (ActDeleteColumn (getCellColIndex tr c)));
             DividerEl;
             ItemEl false "Insert Row Above"
                    (Some (ActInsertRow (Z.of_nat r) before));
             ItemEl false "Insert Row Below"
                    (Some (ActInsertRow (Z.of_nat r) after));
             ItemEl (length (rows t) <=? 1)%nat "Delete Row"
                    (if (length (rows t) <=? 1)%nat then None
                     else Some (ActDeleteRow (Z.of_nat r)));
             DividerEl;
             ItemEl false "Delete Table" (Some ActDeleteTable)]).
Proof.
  unfold showContextMenu, getCellRowIndex. cbn [fst snd].
  rewrite (nth_error_nth _ _ DOM.newRow in_table). reflexivity.
Qed.

(** Every closure the menu binds returns normally on the table the menu
    was opened on. *)
Lemma menu_actions_return (th : ResizableTable) (m : Menu) (k : nat)
      (d : bool) (text : string) (a : Action) :
  contextMenu (showContextMenu this t x y (r, c)) = Some m ->
  nth_error (menu_children m) k = Some (ItemEl d text (Some a)) ->
  exists st, runAction th t a = Ok st.
Proof.
  rewrite showContextMenu_children. intros Hm Hk.
  injection Hm as <-. cbn [menu_children] in Hk.
  pose proof (getCellColIndex_nonneg tr c) as Hci.
  assert (Hri : (0 <= Z.of_nat r < Z.of_nat (length (rows t)))%Z).
  { split; [lia|]. apply Nat2Z.inj_lt.
    apply nth_error_Some. rewrite in_table. discriminate. }
  do 9 (destruct k as [|k];
        [cbn [nth_error] in Hk;
         try destruct (getColumnCount t <=? 1)%Z;
         try destruct (length (rows t) <=? 1)%nat;
         try discriminate;
         injection Hk as _ _ <-; cbn [runAction];
         first [ apply insertColumn_returns; exact Hci
               | apply deleteColumn_returns; exact Hci
               | apply insertRow_returns; lia
               | apply deleteRow_returns; exact Hri
               | eexists; reflexivity ]
        |cbn [nth_error] in Hk]).
  destruct k; discriminate.
Qed.

(** C8.  A secondary-click inside a cell opens a menu of
    exactly seven entries: the six of insert column left and right, delete
    column, insert row above and below, delete row, and "Delete Table".
    The delete-column entry is disabled, and carries no listener, exactly
    when the table has at most one visual column, and the delete-row entry
    exactly when it has at most one row.  Invoking any entry that carries
    a listener runs its action, which returns normally, and leaves no menu
    open. *)
Theorem showContextMenu_spec :
  exists m,
    contextMenu (showContextMenu this t x y (r, c)) = Some m /\
    length (menuEntries m) = 7%nat /\
    entryLabels m
    = ["Insert Column Left"; "Insert Column Right"; "Delete Column";
       "Insert Row Above"; "Insert Row Below"; "Delete Row";
       "Delete Table"]%string /\
    (exists a,
        entryNamed m "Delete Column"
        = Some (ItemEl (getColumnCount t <=? 1)%Z "Delete Column" a) /\
        (a = None <-> (getColumnCount t <= 1)%Z)) /\
    (exists b,
        entryNamed m "Delete Row"
        = Some (ItemEl (length (rows t) <=? 1)%nat "Delete Row" b) /\
        (b = None <-> (length (rows t) <= 1)%nat)) /\
    (forall k d text a,
        nth_error (menu_children m) k = Some (ItemEl d text (Some a)) ->
        exists st,
          menuMouseDown (showContextMenu this t x y (r, c)) t k = Ok st /\
          contextMenu (fst st) = None).
Proof.
  eexists. split; [apply showContextMenu_children|].
  split; [reflexivity|]. split; [reflexivity|].
  split; [|split].
  - eexists. split; [reflexivity|].
    destruct (Z.leb_spec (getColumnCount t) 1);
      split; intros; try reflexivity; try discriminate; lia.
  - eexists. split; [reflexivity|].
    destruct (Nat.leb_spec (length (rows t)) 1);
      split; intros; try reflexivity; try discriminate; lia.
  - intros k d text a Hk.
    destruct (@menu_actions_return (showContextMenu this t x y (r, c))
                _ k d text a showContextMenu_children Hk) as (st & Hrun).
    exists (dismissContextMenu (fst st), snd st).
    split; [|apply dismissContextMenu_closed].
    apply (@menuMouseDown_dismisses _ t k _ d text a st
             showContextMenu_children Hk Hrun).
Qed.

End ContextMenu.

Lemma showContextMenu_spec_witness :
  exists m,
    contextMenu (showContextMenu Fixture.plugin (Fixture.table 100 30) 50 20
                                 (0%nat, 1%nat)) = Some m /\
    length (menuEntries m) = 7%nat.
Proof.
  destruct (@showContextMenu_spec
              Fixture.plugin (Fixture.table 100 30) 50 20 0 1
              (Fixture.rowAt ["A1"; "B1"; "C1"]%string 100 30 0) eq_refl)
    as (m & Hm & Hcount & _).
  exists m. split; [exact Hm | exact Hcount].
Defined.

(** The right-click of the test suite, on the second cell of the first
    row: seven entries, not six. *)
Lemma contextMenu_counterexample :
  exists m,
    contextMenu (onContextMenu Fixture.plugin (Fixture.table 100 30)
                               (mkMouse 50 20 (Some (0%nat, 1%nat))))
    = Some m /\
    length (menuEntries m) = 7%nat /\
    length (menuEntries m) <> 6%nat.
Proof.
  eexists. split; [vm_compute; reflexivity|].
  split; [reflexivity|]. vm_compute. discriminate.
Qed.

(** ** The table minimums *)

Lemma syncQuill_set_options (this : ResizableTable) (o : ResizableTableOptions) :
  syncQuill (set_options this o) = set_options (syncQuill this) o.
Proof.
  unfold syncQuill. cbn [quill set_options].
  destruct (observer (quill this)); reflexivity.
Qed.

Lemma dismiss_set_options (this : ResizableTable) (o : ResizableTableOptions) :
  dismissContextMenu (set_options this o)
  = set_options (dismissContextMenu this) o.
Proof.
  unfold dismissContextMenu. cbn [contextMenu set_options].
  destruct (contextMenu this); reflexivity.
Qed.

Section TableMinimums.

Variables (this : ResizableTable) (t : Table).
Variables (o1 o2 : ResizableTableOptions).
Hypothesis same : sameButTableMinimums o1 o2.

Lemma same_handleSize : handleSize o2 = handleSize o1.
Proof. symmetry. apply same. Qed.

Lemma same_minColumnWidth : minColumnWidth o2 = minColumnWidth o1.
Proof. symmetry. apply same. Qed.

Lemma same_minRowHeight : minRowHeight o2 = minRowHeight o1.
Proof. symmetry. apply same. Qed.

Lemma detectEdge_same (e : MouseEvent) :
  detectEdge (set_options this o2) t e = detectEdge (set_options this o1) t e.
Proof.
  unfold detectEdge. cbn [options set_options].
  rewrite same_handleSize. reflexivity.
Qed.

Lemma resizeColumnDirect_same (th : ResizableTable) (u : Table) (ci : Z) (w : JS.val) :
  resizeColumnDirect (set_options th o2) u ci w
  = reconfigured o2 (resizeColumnDirect (set_options th o1) u ci w).
Proof.
  unfold resizeColumnDirect. rewrite !syncQuill_set_options.
  match goal with
  | |- context [DOM.item ?l ?i] => destruct (DOM.item l i)
  end; reflexivity.
Qed.

Lemma onEditorMouseDown_same (e : MouseEvent) :
  onEditorMouseDown (set_options this o2) t e
  = (set_options (fst (onEditorMouseDown (set_options this o1) t e)) o2,
     snd (onEditorMouseDown (set_options this o1) t e)).
Proof.
  unfold onEditorMouseDown. rewrite detectEdge_same.
  destruct (detectEdge (set_options this o1) t e) as [hit|]; [|reflexivity].
  unfold addOverlay. cbn [overlay set_drag set_options drag].
  destruct (overlay this); reflexivity.
Qed.

Lemma onDocumentMouseMove_same (e : MouseEvent) :
  onDocumentMouseMove (set_options this o2) t e
  = reconfigured o2 (onDocumentMouseMove (set_options this o1) t e).
Proof.
  unfold onDocumentMouseMove. cbn [drag options set_options].
  destruct (drag this) as [d|]; [|reflexivity].
  unfold dragNewWidth, dragNewHeight.
  rewrite same_minColumnWidth, same_minRowHeight.
  destruct (edge d); cbn [bind].
  - rewrite resizeColumnDirect_same.
    destruct (resizeColumnDirect (set_options this o1) t (colIndex d) _);
      reflexivity.
  - reflexivity.
  - rewrite resizeColumnDirect_same.
    destruct (resizeColumnDirect (set_options this o1) t (colIndex d) _);
      reflexivity.
Qed.

Lemma insertColumn_same (th : ResizableTable) (u : Table) (i : Z) (p : Position) :
  insertColumn (set_options th o2) u i p
  = reconfigured o2 (insertColumn (set_options th o1) u i p).
Proof.
  unfold insertColumn. rewrite !syncQuill_set_options.
  cbn [options set_options]. rewrite same_minColumnWidth.
  destruct (mapM _ (rows u)); reflexivity.
Qed.

Lemma deleteColumn_same (th : ResizableTable) (u : Table) (i : Z) :
  deleteColumn (set_options th o2) u i
  = reconfigured o2 (deleteColumn (set_options th o1) u i).
Proof.
  unfold deleteColumn. rewrite !syncQuill_set_options.
  cbn [options set_options]. rewrite same_minColumnWidth.
  destruct (getColumnCount u <=? 1)%Z; [reflexivity|].
  destruct (mapM _ (rows u)) as [rows'|]; [|reflexivity].
  cbn [bind colgroup set_rows].
  destruct (colgroup u) as [cg|]; [|reflexivity].
  destruct (i <? Z.of_nat (length cg))%Z; [|reflexivity].
  destruct (DOM.item cg i); reflexivity.
Qed.

Lemma insertRow_same (th : ResizableTable) (u : Table) (i : Z) (p : Position) :
  insertRow (set_options th o2) u i p
  = reconfigured o2 (insertRow (set_options th o1) u i p).
Proof.
  unfold insertRow. rewrite !syncQuill_set_options.
  destruct (DOM.insertRow u _) as [ins|]; [|reflexivity].
  cbn [bind].
  destruct (nth_error (rows (snd ins)) (fst ins)) as [newRow|]; [|reflexivity].
  destruct (fillRow _ newRow); reflexivity.
Qed.

Lemma deleteRow_same (th : ResizableTable) (u : Table) (i : Z) :
  deleteRow (set_options th o2) u i
  = reconfigured o2 (deleteRow (set_options th o1) u i).
Proof.
  unfold deleteRow. rewrite !syncQuill_set_options.
  destruct (length (rows u) <=? 1)%nat; [reflexivity|].
  destruct (DOM.deleteRow u i); reflexivity.
Qed.

Lemma runAction_same (th : ResizableTable) (u : Table) (a : Action) :
  runAction (set_options th o2) u a
  = reconfigured o2 (runAction (set_options th o1) u a).
Proof.
  destruct a; simpl runAction.
  - apply insertColumn_same.
  - apply deleteColumn_same.
  - apply insertRow_same.
  - apply deleteRow_same.
  - unfold deleteTable. rewrite !syncQuill_set_options. reflexivity.
Qed.

Lemma menuMouseDown_same (k : nat) :
  menuMouseDown (set_options this o2) t k = reconfigured o2 (menuMouseDown (set_options this o1) t k).
Proof.
  unfold menuMouseDown. cbn [contextMenu set_options].
  destruct (contextMenu this) as [m|]; [|reflexivity].
  destruct (nth_error (menu_children m) k) as [[d text [a|]|]|];
    try reflexivity;
    try (cbn [reconfigured fst snd]; rewrite !dismiss_set_options; reflexivity).
  rewrite runAction_same.
  destruct (runAction (set_options this o1) t a) as [st|]; [|reflexivity].
  cbn [bind reconfigured fst snd].
  rewrite dismiss_set_options.
  destruct st as [th u]. cbn [fst snd].
  unfold dismissContextMenu. destruct (contextMenu th); reflexivity.
Qed.

Lemma showContextMenu_same (x y : Q) (td : CellRef) :
  showContextMenu (set_options this o2) t x y td
  = set_options (showContextMenu (set_options this o1) t x y td) o2.
Proof.
  unfold showContextMenu. rewrite !dismiss_set_options.
  reflexivity.
Qed.

Lemma insertNewTable_same (nrows ncols : option Z) :
  insertNewTable (set_options this o2) nrows ncols
  = match insertNewTable (set_options this o1) nrows ncols with
    | Ok th => Ok (set_options th o2)
    | Throw e => Throw e
    end.
Proof.
  unfold insertNewTable. cbn [quill set_options].
  destruct (getSelection (quill this)) as [[range|]|]; try reflexivity.
  destruct (JS.repeat _ _) as [cellsHTML|]; [|reflexivity].
  cbn [bind].
  destruct (JS.template _) as [rowHTML|]; [|reflexivity].
  cbn [bind].
  destruct (JS.repeat _ _) as [rowsHTML|]; [|reflexivity].
  cbn [bind].
  destruct (JS.template _) as [tableHTML|]; [|reflexivity].
  cbn [bind]. unfold syncQuill. cbn [quill set_quill set_options observer].
  destruct (observer (quill this)); reflexivity.
Qed.

(** C9.  Two instances that differ only in [minTableWidth] and
    [minTableHeight] behave alike: edge detection gives the same hit, and
    every handler and every mutator returns the same table, throws the same
    exception and leaves the same instance, up to the two options
    themselves. *)
Theorem tableMinimums_unused :
  (forall e, detectEdge (set_options this o2) t e = detectEdge (set_options this o1) t e) /\
  (forall e,
      onEditorMouseDown (set_options this o2) t e
      = (set_options (fst (onEditorMouseDown (set_options this o1) t e)) o2,
         snd (onEditorMouseDown (set_options this o1) t e))) /\
  (forall e,
      onDocumentMouseMove (set_options this o2) t e
      = reconfigured o2 (onDocumentMouseMove (set_options this o1) t e)) /\
  (forall i p,
      insertColumn (set_options this o2) t i p = reconfigured o2 (insertColumn (set_options this o1) t i p)) /\
  (forall i, deleteColumn (set_options this o2) t i = reconfigured o2 (deleteColumn (set_options this o1) t i)) /\
  (forall i p, insertRow (set_options this o2) t i p = reconfigured o2 (insertRow (set_options this o1) t i p)) /\
  (forall i, deleteRow (set_options this o2) t i = reconfigured o2 (deleteRow (set_options this o1) t i)) /\
  (forall x y td,
      showContextMenu (set_options this o2) t x y td
      = set_options (showContextMenu (set_options this o1) t x y td) o2) /\
  (forall k, menuMouseDown (set_options this o2) t k = reconfigured o2 (menuMouseDown (set_options this o1) t k)) /\
  (forall nrows ncols,
      insertNewTable (set_options this o2) nrows ncols
      = match insertNewTable (set_options this o1) nrows ncols with
        | Ok th => Ok (set_options th o2)
        | Throw e => Throw e
        end).
Proof.
  repeat split; intros.
  - apply detectEdge_same.
  - apply onEditorMouseDown_same.
  - apply onDocumentMouseMove_same.
  - apply insertColumn_same.
  - apply deleteColumn_same.
  - apply insertRow_same.
  - apply deleteRow_same.
  - apply showContextMenu_same.
  - apply menuMouseDown_same.
  - apply insertNewTable_same.
Qed.

End TableMinimums.

Lemma tableMinimums_unused_witness :
  let wide := mkOptions 5 30 20 500 300 in
  insertColumn (set_options Fixture.plugin wide) (Fixture.table 100 30) 1 after
  = reconfigured wide
      (insertColumn (set_options Fixture.plugin DEFAULTS)
                    (Fixture.table 100 30) 1 after).
Proof.
  intros wide.
  assert (Hsame : sameButTableMinimums DEFAULTS wide)
    by (repeat split; reflexivity).
  destruct (@tableMinimums_unused Fixture.plugin (Fixture.table 100 30)
              DEFAULTS wide Hsame)
    as (_ & _ & _ & Hinsert & _).
  apply Hinsert.
Defined.

(** The constructor hands the two options on and nothing else depends on
    them. *)
Lemma mergeOptions_tableMinimums (a b c : option Q) (w1 h1 w2 h2 : option Q) :
  sameButTableMinimums (mergeOptions (mkPartial a b c w1 h1))
                       (mergeOptions (mkPartial a b c w2 h2)).
Proof. repeat split; reflexivity. Qed.

(** ** insertNewTable *)

Section Markup.

Local Open Scope string_scope.

Lemma append_assoc (a b c : string) : (a ++ b) ++ c = a ++ (b ++ c).
Proof. induction a as [|x a IH]; simpl; [reflexivity|]. rewrite IH. reflexivity. Qed.

(** Counting over a repetition of a unit that holds [k] occurrences and
    lets none straddle its end. *)
Lemma occurrences_repeat (needle unit : string) (k : nat) :
  (forall rest, occurrences needle (unit ++ rest)
                = (k + occurrences needle rest)%nat) ->
  forall n rest,
    occurrences needle (JS.repeat_nat unit n ++ rest)
    = (n * k + occurrences needle rest)%nat.
Proof.
  intros Hunit n. induction n as [|n IH]; intros rest; simpl JS.repeat_nat.
  - reflexivity.
  - rewrite append_assoc, Hunit, IH. lia.
Qed.

Lemma cell_in_cell rest :
  occurrences "<td" ("<td><br></td>" ++ rest) = (1 + occurrences "<td" rest)%nat.
Proof. reflexivity. Qed.

Lemma blank_in_cell rest :
  occurrences "<td><br></td>" ("<td><br></td>" ++ rest)
  = (1 + occurrences "<td><br></td>" rest)%nat.
Proof. simpl. destruct rest; reflexivity. Qed.

Lemma row_in_cell rest :
  occurrences "<tr" ("<td><br></td>" ++ rest) = (0 + occurrences "<tr" rest)%nat.
Proof. reflexivity. Qed.

Lemma table_in_cell rest :
  occurrences "<table" ("<td><br></td>" ++ rest)
  = (0 + occurrences "<table" rest)%nat.
Proof. reflexivity. Qed.

(** One row of [c] cells. *)
Lemma occurrences_row (needle : string) (k open : nat) (c : nat) :
  (forall rest, occurrences needle ("<td><br></td>" ++ rest)
                = (k + occurrences needle rest)%nat) ->
  (forall rest, occurrences needle ("<tr>" ++ rest)
                = (open + occurrences needle rest)%nat) ->
  (forall rest, occurrences needle ("</tr>" ++ rest) = occurrences needle rest) ->
  forall rest,
    occurrences needle
                (("<tr>" ++ JS.repeat_nat "<td><br></td>" c ++ "</tr>") ++ rest)
    = ((open + c * k) + occurrences needle rest)%nat.
Proof.
  intros Hcell Hopen Hclose rest.
  rewrite !append_assoc, Hopen.
  rewrite (@occurrences_repeat needle _ k Hcell), Hclose. lia.
Qed.

(** The whole markup, of [r] rows of [c] cells. *)
Lemma occurrences_table (needle : string) (k open top : nat) (r c : nat) :
  (forall rest, occurrences needle ("<td><br></td>" ++ rest)
                = (k + occurrences needle rest)%nat) ->
  (forall rest, occurrences needle ("<tr>" ++ rest)
                = (open + occurrences needle rest)%nat) ->
  (forall rest, occurrences needle ("</tr>" ++ rest) = occurrences needle rest) ->
  (forall rest, occurrences needle ("<table><tbody>" ++ rest)
                = (top + occurrences needle rest)%nat) ->
  occurrences needle "</tbody></table>" = 0%nat ->
  occurrences needle
    ("<table><tbody>"
     ++ JS.repeat_nat ("<tr>" ++ JS.repeat_nat "<td><br></td>" c ++ "</tr>") r
     ++ "</tbody></table>")
  = (top + r * (open + c * k))%nat.
Proof.
  intros Hcell Hopen Hclose Htop Hend.
  rewrite Htop.
  rewrite (@occurrences_repeat needle _ _
             (@occurrences_row needle k open c Hcell Hopen Hclose)).
  rewrite Hend. lia.
Qed.

End Markup.

Lemma pasted_syncQuill (this : ResizableTable) :
  pasted (quill (syncQuill this)) = pasted (quill this).
Proof. unfold syncQuill. destruct (observer (quill this)); reflexivity. Qed.

Lemma string_length_append (a b : string) :
  String.length (a ++ b)%string = (String.length a + String.length b)%nat.
Proof. induction a as [|x a IH]; simpl; [reflexivity|]. rewrite IH. reflexivity. Qed.

Lemma append_nil_r (a : string) : (a ++ "")%string = a.
Proof. induction a as [|x a IH]; simpl; [reflexivity|]. rewrite IH. reflexivity. Qed.

Lemma repeat_nat_length (s : string) (n : nat) :
  String.length (JS.repeat_nat s n) = (n * String.length s)%nat.
Proof.
  induction n as [|n IH]; simpl; [reflexivity|].
  rewrite string_length_append, IH. reflexivity.
Qed.

(** Joining [n] copies of a string with nothing in between is
    [repeat]. *)
Lemma concat_repeat (s : string) (n : nat) :
  String.concat EmptyString (repeat s n) = JS.repeat_nat s n.
Proof.
  induction n as [|n IH]; [reflexivity|].
  simpl repeat. simpl JS.repeat_nat. rewrite <- IH.
  destruct n; simpl; [rewrite append_nil_r|]; reflexivity.
Qed.

(** The markup of [r] rows of [c] blank cells is the string the code
    builds. *)
Lemma tableMarkup_blank (r c : nat) :
  tableMarkup (repeat (repeat blankCell c) r)
  = ("<table><tbody>"
     ++ JS.repeat_nat ("<tr>" ++ JS.repeat_nat "<td><br></td>" c ++ "</tr>") r
     ++ "</tbody></table>")%string.
Proof.
  unfold tableMarkup, rowMarkup.
  rewrite map_repeat, concat_repeat, map_repeat, concat_repeat. reflexivity.
Qed.

(** [insertNewTable] with a selection: it throws when a count is negative
    or a string it builds is longer than the engine allows, and pastes
    the markup otherwise. *)
Lemma insertNewTable_run (this : ResizableTable) (range : Range) (nrows ncols : Z) :
  getSelection (quill this) = Some (Some range) ->
  insertNewTable this (Some nrows) (Some ncols)
  = if ((ncols <? 0) || (JS.maxStringLength <? rowMarkupLength ncols)
        || (nrows <? 0)
        || (JS.maxStringLength <? tableMarkupLength nrows ncols))%Z%bool
    then Throw RangeError
    else Ok (syncQuill
               (set_quill this
                  (mkQuill (getSelection (quill this))
                           (pasted (quill this)
                            ++ [mkPaste (range_index range)
                                        (tableMarkup
                                           (repeat (repeat blankCell (Z.to_nat ncols))
                                                   (Z.to_nat nrows)))
                                        "user"])
                           (observer (quill this))))).
Proof.
  intros Hsel. unfold insertNewTable. rewrite Hsel.
  unfold tableMarkupLength, rowMarkupLength, JS.repeat.
  pose proof (eq_refl : (0 < JS.maxStringLength)%Z) as Hmax.
  destruct (Z.ltb_spec ncols 0) as [Hc|Hc]; [reflexivity|].
  change (Z.of_nat (String.length "<td><br></td>")) with 13%Z.
  destruct (Z.ltb_spec JS.maxStringLength (9 + 13 * ncols)) as [Hrow|Hrow].
  { (* the row is too long: the cells, or the template around them *)
    cbn [orb].
    destruct (Z.ltb_spec JS.maxStringLength (13 * ncols)); [reflexivity|].
    cbn [bind]. unfold JS.template. cbn [String.concat].
    rewrite !string_length_append, repeat_nat_length.
    change (String.length "<tr>") with 4%nat.
    change (String.length "</tr>") with 5%nat.
    change (String.length "<td><br></td>") with 13%nat.
    change (String.length "") with 0%nat.
    destruct (Z.ltb_spec JS.maxStringLength
                (Z.of_nat (4 + (0 + (Z.to_nat ncols * 13 + (0 + 5))))));
      [reflexivity | lia]. }
  destruct (Z.ltb_spec JS.maxStringLength (13 * ncols)); [lia|].
  cbn [bind orb]. unfold JS.template at 1. cbn [String.concat].
  rewrite !string_length_append, repeat_nat_length.
  change (String.length "<tr>") with 4%nat.
  change (String.length "</tr>") with 5%nat.
  change (String.length "<td><br></td>") with 13%nat.
  change (String.length "") with 0%nat.
  destruct (Z.ltb_spec JS.maxStringLength
              (Z.of_nat (4 + (0 + (Z.to_nat ncols * 13 + (0 + 5))))));
    [lia|].
  cbn [bind].
  destruct (Z.ltb_spec nrows 0) as [Hr|Hr]; [reflexivity|].
  cbn [orb].
  rewrite !string_length_append, repeat_nat_length.
  change (String.length "<tr>") with 4%nat.
  change (String.length "</tr>") with 5%nat.
  change (String.length "<td><br></td>") with 13%nat.
  change (String.length "") with 0%nat.
  set (rowLength := Z.of_nat (4 + (0 + (Z.to_nat ncols * 13 + (0 + 5))))).
  assert (HrowLength : rowLength = (9 + 13 * ncols)%Z) by (unfold rowLength; lia).
  destruct (Z.ltb_spec JS.maxStringLength (30 + nrows * (9 + 13 * ncols)))
    as [Htable|Htable].
  - (* the table is too long: the rows, or the template around them *)
    destruct (Z.ltb_spec JS.maxStringLength (rowLength * nrows)); [reflexivity|].
    cbn [bind]. unfold JS.template. cbn [String.concat].
    rewrite !string_length_append, repeat_nat_length.
    rewrite !string_length_append, repeat_nat_length.
    change (String.length "<table><tbody>") with 14%nat.
    change (String.length "</tbody></table>") with 16%nat.
    change (String.length "<tr>") with 4%nat.
    change (String.length "</tr>") with 5%nat.
    change (String.length "<td><br></td>") with 13%nat.
    change (String.length "") with 0%nat.
    match goal with
    | |- context [(JS.maxStringLength <? ?len)%Z] =>
        destruct (Z.ltb_spec JS.maxStringLength len); [reflexivity | nia]
    end.
  - destruct (Z.ltb_spec JS.maxStringLength (rowLength * nrows)); [nia|].
    cbn [bind]. unfold JS.template. cbn [String.concat].
    rewrite !string_length_append, repeat_nat_length.
    rewrite !string_length_append, repeat_nat_length.
    change (String.length "<table><tbody>") with 14%nat.
    change (String.length "</tbody></table>") with 16%nat.
    change (String.length "<tr>") with 4%nat.
    change (String.length "</tr>") with 5%nat.
    change (String.length "<td><br></td>") with 13%nat.
    change (String.length "") with 0%nat.
    match goal with
    | |- context [(JS.maxStringLength <? ?len)%Z] =>
        destruct (Z.ltb_spec JS.maxStringLength len); [nia|]
    end.
    cbn [bind]. rewrite tableMarkup_blank. reflexivity.
Qed.

(** C10.  Without a selection ([getSelection] absent, or returning
    [null]) [insertNewTable] returns the instance as it was: nothing is
    pasted.  With a selection, counts from 0 on and a markup that is not
    longer than a string can be, it pastes at the selection index, with
    source ['user'], exactly the markup of a table of [nrows] rows of
    [ncols] blank cells each: one table, [nrows] rows, [nrows * ncols]
    cells, each of them the empty cell.  An argument that is left out
    stands for 3, whatever the other one is. *)
Theorem insertNewTable_spec (this : ResizableTable) :
  (getSelection (quill this) = None \/ getSelection (quill this) = Some None ->
   forall nrows ncols, insertNewTable this nrows ncols = Ok this) /\
  (forall range nrows ncols,
      getSelection (quill this) = Some (Some range) ->
      (0 <= nrows)%Z -> (0 <= ncols)%Z ->
      (rowMarkupLength ncols <= JS.maxStringLength)%Z ->
      (tableMarkupLength nrows ncols <= JS.maxStringLength)%Z ->
      exists this' html,
        insertNewTable this (Some nrows) (Some ncols) = Ok this' /\
        pasted (quill this')
        = pasted (quill this) ++ [mkPaste (range_index range) html "user"] /\
        html = tableMarkup (repeat (repeat blankCell (Z.to_nat ncols))
                                   (Z.to_nat nrows)) /\
        occurrences "<table" html = 1%nat /\
        occurrences "<tr" html = Z.to_nat nrows /\
        occurrences "<td" html = (Z.to_nat nrows * Z.to_nat ncols)%nat /\
        occurrences "<td><br></td>" html
        = (Z.to_nat nrows * Z.to_nat ncols)%nat) /\
  (forall rowsArg colsArg,
      insertNewTable this None colsArg = insertNewTable this (Some 3%Z) colsArg /\
      insertNewTable this rowsArg None = insertNewTable this rowsArg (Some 3%Z)).
Proof.
  split; [|split].
  - intros [Hsel|Hsel] nrows ncols; unfold insertNewTable; rewrite Hsel;
      reflexivity.
  - intros range nrows ncols Hsel Hrows Hcols Hrow Htable.
    rewrite (insertNewTable_run this nrows ncols Hsel).
    destruct (Z.ltb_spec ncols 0); [lia|].
    destruct (Z.ltb_spec JS.maxStringLength (rowMarkupLength ncols)); [lia|].
    destruct (Z.ltb_spec nrows 0); [lia|].
    destruct (Z.ltb_spec JS.maxStringLength (tableMarkupLength nrows ncols));
      [lia|].
    cbn [orb].
    eexists. eexists. split; [reflexivity|].
    split; [rewrite pasted_syncQuill; reflexivity|].
    split; [reflexivity|].
    rewrite tableMarkup_blank.
    split; [|split; [|split]].
    + rewrite (@occurrences_table "<table" 0 0 1); try reflexivity. lia.
    + rewrite (@occurrences_table "<tr" 0 1 0); try reflexivity. lia.
    + rewrite (@occurrences_table "<td" 1 0 0); try reflexivity. lia.
    + rewrite (@occurrences_table "<td><br></td>" 1 0 0); try reflexivity;
        [lia|]. apply blank_in_cell.
  - intros rowsArg colsArg. split; reflexivity.
Qed.

Lemma insertNewTable_spec_witness :
  let q := mkQuill (Some (Some (mkRange 4 0))) [] (Some 2%nat) in
  exists this',
    insertNewTable (constructor q Fixture.noOptions) (Some 2%Z) (Some 3%Z)
    = Ok this' /\
    map paste_html (pasted (quill this'))
    = ["<table><tbody><tr><td><br></td><td><br></td><td><br></td></tr><tr><td><br></td><td><br></td><td><br></td></tr></tbody></table>"%string].
Proof.
  intros q.
  destruct (insertNewTable_spec (constructor q Fixture.noOptions))
    as (_ & Hpaste & _).
  destruct (Hpaste (mkRange 4 0) 2%Z 3%Z eq_refl ltac:(lia) ltac:(lia)
                   ltac:(vm_compute; discriminate)
                   ltac:(vm_compute; discriminate))
    as (this' & html & Hrun & Hpasted & Hhtml & _).
  exists this'. split; [exact Hrun|].
  rewrite Hpasted, Hhtml. reflexivity.
Defined.

(** With a selection, a table of one row of a thousand million cells, and
    one of minus one row: the call throws, and nothing is pasted. *)
Lemma insertNewTable_counterexample :
  let this := constructor (mkQuill (Some (Some (mkRange 0 0))) [] (Some 0%nat))
                          Fixture.noOptions in
  getSelection (quill this) = Some (Some (mkRange 0 0)) /\
  insertNewTable this (Some 1%Z) (Some 1000000000%Z) = Throw RangeError /\
  insertNewTable this (Some (-1)%Z) (Some 3%Z) = Throw RangeError /\
  ~ (exists this', insertNewTable this (Some 1%Z) (Some 1000000000%Z) = Ok this').
Proof.
  intros this. split; [reflexivity|]. split; [reflexivity|].
  split; [reflexivity|]. intros [this' H]. discriminate H.
Qed.

(** The host of the test suite has no [getSelection]: nothing happens. *)
Example insertNewTable_mock :
  insertNewTable Fixture.plugin None None = Ok Fixture.plugin.
Proof. reflexivity. Qed.

Example insertNewTable_default_markup :
  match insertNewTable
          (constructor (mkQuill (Some (Some (mkRange 0 0))) [] None)
                       Fixture.noOptions) None None with
  | Ok this' =>
      map paste_html (pasted (quill this'))
      = ["<table><tbody><tr><td><br></td><td><br></td><td><br></td></tr><tr><td><br></td><td><br></td><td><br></td></tr><tr><td><br></td><td><br></td><td><br></td></tr></tbody></table>"%string]
  | Throw _ => False
  end.
Proof. vm_compute. reflexivity. Qed.

(** * Further properties of the mutators *)

Lemma remove_at_middle {A : Type} (a b : list A) (x : A) :
  remove_at (length a) (a ++ x :: b) = a ++ b.
Proof.
  unfold remove_at.
  rewrite firstn_app, firstn_all, Nat.sub_diag, firstn_O, app_nil_r.
  f_equal.
  change (S (length a)) with (1 + length a)%nat.
  rewrite <- skipn_skipn, skipn_app, skipn_all, Nat.sub_diag. reflexivity.
Qed.

Lemma remove_at_insert_at {A : Type} (n : nat) (x : A) (l : list A) :
  (n <= length l)%nat -> remove_at n (insert_at n x l) = l.
Proof.
  intros Hn. unfold insert_at.
  assert (Hlen : length (firstn n l) = n) by (rewrite length_firstn; lia).
  rewrite <- Hlen at 1. rewrite remove_at_middle. apply firstn_skipn.
Qed.

Lemma set_rows_same (t : Table) : set_rows t (rows t) = t.
Proof. destruct t; reflexivity. Qed.

Lemma set_cells_same (tr : Row) : set_cells tr (cells tr) = tr.
Proof. destruct tr; reflexivity. Qed.

(** X1.  Inserting a column before index [i] (any index from 0 on)
    returns normally; every row gains exactly one blank cell at position
    [min i (length of the row)], the cells before that position stay where
    they were and the cells from it on move up by one, so the cell that
    was at [i] is found at [i + 1]; a colgroup gains one entry of the
    minimum column width ([minCol]) at [min i (its length)], and no
    colgroup is created. *)
Theorem insertColumn_before_spec (this : ResizableTable) (t : Table) (i : Z) :
  (0 <= i)%Z ->
  exists t',
    insertColumn this t i before = Ok (syncQuill this, t') /\
    length (rows t') = length (rows t) /\
    (forall r tr,
        nth_error (rows t) r = Some tr ->
        exists tr',
          nth_error (rows t') r = Some tr' /\
          length (cells tr') = S (length (cells tr)) /\
          nth_error (cells tr') (Nat.min (Z.to_nat i) (length (cells tr)))
          = Some blankCell /\
          (forall k, (k < Nat.min (Z.to_nat i) (length (cells tr)))%nat ->
                     nth_error (cells tr') k = nth_error (cells tr) k) /\
          (forall k, (Z.to_nat i <= k)%nat ->
                     nth_error (cells tr') (S k) = nth_error (cells tr) k)) /\
    match colgroup t with
    | None => colgroup t' = None
    | Some cg =>
        exists cg',
          colgroup t' = Some cg' /\
          length cg' = S (length cg) /\
          nth_error cg' (Nat.min (Z.to_nat i) (length cg)) = Some (minCol this) /\
          (forall k, (k < Nat.min (Z.to_nat i) (length cg))%nat ->
                     nth_error cg' k = nth_error cg k) /\
          (forall k, (Z.to_nat i <= k)%nat ->
                     nth_error cg' (S k) = nth_error cg k)
    end.
Proof.
  intros Hi.
  destruct (@insertColumn_run this t i before Hi) as (t' & Hrun & Hr & Hcg).
  simpl targetOf in *.
  exists t'. split; [exact Hrun|].
  split; [rewrite Hr; apply length_map|].
  split.
  - intros r tr Hnth. exists (withCell (Z.to_nat i) tr).
    split; [rewrite Hr, nth_error_map, Hnth; reflexivity|].
    unfold withCell. cbn [cells set_cells].
    set (p := Nat.min (Z.to_nat i) (length (cells tr))).
    assert (Hp : (p <= length (cells tr))%nat) by (unfold p; lia).
    split; [apply insert_at_length|].
    split; [apply insert_at_here; exact Hp|].
    split; intros k Hk.
    + apply insert_at_below; assumption.
    + apply insert_at_above; [unfold p; lia | exact Hp].
  - rewrite Hcg. destruct (colgroup t) as [cg|]; simpl; [|reflexivity].
    exists (withCol (Z.to_nat i) (minCol this) cg).
    unfold withCol.
    set (p := Nat.min (Z.to_nat i) (length cg)).
    assert (Hp : (p <= length cg)%nat) by (unfold p; lia).
    split; [reflexivity|].
    split; [apply insert_at_length|].
    split; [apply insert_at_here; exact Hp|].
    split; intros k Hk.
    + apply insert_at_below; assumption.
    + apply insert_at_above; [unfold p; lia | exact Hp].
Qed.

Lemma insertColumn_before_spec_witness :
  exists t',
    insertColumn Fixture.plugin (Fixture.table 100 30) 1 before
    = Ok (syncQuill Fixture.plugin, t') /\
    length (rows t') = 2%nat.
Proof.
  destruct (@insertColumn_before_spec Fixture.plugin (Fixture.table 100 30) 1
              ltac:(lia)) as (t' & Hrun & Hlen & _).
  exists t'. split; [exact Hrun | exact Hlen].
Defined.

Example insertColumn_before_scenario :
  match insertColumn Fixture.plugin (Fixture.table 100 30) 1 before with
  | Ok (_, t') =>
      Fixture.texts t' = [["A1"; "<br>"; "B1"; "C1"]; ["A2"; "<br>"; "B2"; "C2"]]%string
  | Throw _ => False
  end.
Proof. vm_compute. reflexivity. Qed.

(** The table [insertRow] returns for a target index from 0 on: only the
    rows change. *)
Lemma insertRow_table (this : ResizableTable) (t : Table) (i : Z) (p : Position) :
  (0 <= targetOf i p)%Z ->
  insertRow this t i p
  = Ok (syncQuill this,
        set_rows t
          (insert_at (Nat.min (Z.to_nat (targetOf i p)) (length (rows t)))
                     (blankRow (getColumnCount t)) (rows t))).
Proof.
  intros Htarget. unfold insertRow. fold (targetOf i p).
  set (target := targetOf i p) in *.
  set (len := length (rows t)).
  set (idx := Z.min target (Z.of_nat len)).
  assert (Hidx : (0 <= idx <= Z.of_nat len)%Z) by (unfold idx; lia).
  assert (Hnat : Z.to_nat idx = Nat.min (Z.to_nat target) len)
    by (unfold idx; lia).
  assert (Hins : DOM.insertRow t idx
                 = Ok (Z.to_nat idx,
                       set_rows t (insert_at (Z.to_nat idx) DOM.newRow (rows t)))).
  { unfold DOM.insertRow. fold len.
    replace ((idx <? -1) || (Z.of_nat len <? idx))%Z%bool with false
      by (symmetry; apply orb_false_iff; split; apply Z.ltb_ge; lia).
    destruct ((idx =? -1) || (idx =? Z.of_nat len))%Z%bool eqn:Hend;
      [|reflexivity].
    assert (Heq : idx = Z.of_nat len).
    { apply orb_true_iff in Hend.
      destruct Hend as [H|H]; apply Z.eqb_eq in H; lia. }
    rewrite Heq, Nat2Z.id. unfold len. rewrite insert_at_end. reflexivity. }
  rewrite Hins. simpl bind. cbn [fst snd rows set_rows].
  rewrite insert_at_here by (fold len; lia).
  rewrite fillRow_ok. simpl bind.
  rewrite update_at_insert_at by (fold len; lia).
  rewrite Hnat. reflexivity.
Qed.

(** X2.  [insertRow] at an index from 0 on returns normally with one row
    more: the new row sits at [min target M] ([target] is the index, or
    the index plus one for ['after']), it holds one blank cell per visual
    column of the table, of colspan one, the rows before it stay where
    they were, the rows from it on move down by one, and the colgroup is
    left alone. *)
Theorem insertRow_spec (this : ResizableTable) (t : Table) (i : Z) (p : Position) :
  (0 <= i)%Z ->
  exists t',
    insertRow this t i p = Ok (syncQuill this, t') /\
    length (rows t') = S (length (rows t)) /\
    (exists newRow,
        nth_error (rows t') (Nat.min (Z.to_nat (targetOf i p)) (length (rows t)))
        = Some newRow /\
        cells newRow = repeat blankCell (Z.to_nat (getColumnCount t)) /\
        spanSum (cells newRow) = getColumnCount t) /\
    (forall k, (k < Nat.min (Z.to_nat (targetOf i p)) (length (rows t)))%nat ->
               nth_error (rows t') k = nth_error (rows t) k) /\
    (forall k, (Z.to_nat (targetOf i p) <= k)%nat ->
               nth_error (rows t') (S k) = nth_error (rows t) k) /\
    colgroup t' = colgroup t.
Proof.
  intros Hi.
  assert (Htarget : (0 <= targetOf i p)%Z) by (destruct p; simpl; lia).
  rewrite (insertRow_table this t i p Htarget).
  set (pos := Nat.min (Z.to_nat (targetOf i p)) (length (rows t))).
  assert (Hpos : (pos <= length (rows t))%nat) by (unfold pos; lia).
  eexists. split; [reflexivity|]. cbn [rows set_rows colgroup].
  split; [apply insert_at_length|].
  split; [|split; [|split]].
  - exists (blankRow (getColumnCount t)).
    split; [apply insert_at_here; exact Hpos|].
    split; [reflexivity|].
    unfold blankRow. cbn [cells set_cells].
    rewrite spanSum_unit by (apply Forall_forall; intros c Hc;
                             apply repeat_spec in Hc; subst c; reflexivity).
    rewrite repeat_length.
    pose proof (spanSum_nonneg
                  (match rows t with [] => [] | r0 :: _ => cells r0 end)) as Hn.
    rewrite getColumnCount_rows in *.
    destruct (rows t); [reflexivity|]. lia.
  - intros k Hk. apply insert_at_below; assumption.
  - intros k Hk. apply insert_at_above; [unfold pos; lia | exact Hpos].
  - reflexivity.
Qed.

Lemma insertRow_spec_witness :
  exists t',
    insertRow Fixture.plugin (Fixture.table 100 30) 0 after
    = Ok (syncQuill Fixture.plugin, t') /\
    length (rows t') = 3%nat.
Proof.
  destruct (@insertRow_spec Fixture.plugin (Fixture.table 100 30) 0 after
              ltac:(lia)) as (t' & Hrun & Hlen & _).
  exists t'. split; [exact Hrun | exact Hlen].
Defined.

(** X3.  Inserting a column before index [i] and then deleting the column
    at [i] gives back the rows and the colgroup entries the table had,
    provided the table has at least one visual column, and every row and
    the colgroup reach index [i] (have at least [i] elements). *)
Theorem insertColumn_deleteColumn (this : ResizableTable) (t : Table) (i : Z) :
  (0 <= i)%Z ->
  (1 <= getColumnCount t)%Z ->
  (forall tr, In tr (rows t) -> (Z.to_nat i <= length (cells tr))%nat) ->
  (forall cg, colgroup t = Some cg -> (Z.to_nat i <= length cg)%nat) ->
  exists this1 t1 this2 t2,
    insertColumn this t i before = Ok (this1, t1) /\
    deleteColumn this1 t1 i = Ok (this2, t2) /\
    rows t2 = rows t /\
    colgroup t2 = colgroup t.
Proof.
  intros Hi HN Hrows Hcg.
  destruct (@insertColumn_run this t i before Hi) as (t1 & Hrun1 & Hr1 & Hc1).
  simpl targetOf in *.
  assert (HN1 : (1 < getColumnCount t1)%Z).
  { rewrite getColumnCount_rows in *. rewrite Hr1.
    destruct (rows t) as [|firstRow rs]; [lia|].
    simpl. unfold withCell. cbn [cells set_cells].
    rewrite spanSum_insert_at. simpl. lia. }
  destruct (@deleteColumn_run (syncQuill this) t1 i Hi HN1)
    as (t2 & Hrun2 & Hr2 & Hc2).
  exists (syncQuill this), t1, (syncQuill (syncQuill this)), t2.
  split; [exact Hrun1|]. split; [exact Hrun2|]. split.
  - rewrite Hr2, Hr1, map_map. rewrite <- (map_id (rows t)) at 2.
    apply map_ext_in. intros tr Hin.
    pose proof (Hrows tr Hin) as Hlen.
    unfold withoutCell, withCell. cbn [cells set_cells].
    rewrite Nat.min_l by exact Hlen.
    rewrite insert_at_length.
    destruct (Nat.ltb_spec (Z.to_nat i) (S (length (cells tr)))); [|lia].
    rewrite remove_at_insert_at by exact Hlen.
    unfold set_cells. destruct tr; reflexivity.
  - rewrite Hc2, Hc1. destruct (colgroup t) as [cg|]; [|reflexivity].
    pose proof (Hcg cg eq_refl) as Hlen. simpl.
    unfold withoutCol, withCol. rewrite Nat.min_l by exact Hlen.
    rewrite insert_at_length.
    destruct (Nat.ltb_spec (Z.to_nat i) (S (length cg))); [|lia].
    rewrite remove_at_insert_at by exact Hlen. reflexivity.
Qed.

Lemma insertColumn_deleteColumn_witness :
  exists this1 t1 this2 t2,
    insertColumn Fixture.plugin (Fixture.table 100 30) 1 before = Ok (this1, t1) /\
    deleteColumn this1 t1 1 = Ok (this2, t2) /\
    rows t2 = rows (Fixture.table 100 30).
Proof.
  destruct (@insertColumn_deleteColumn Fixture.plugin (Fixture.table 100 30) 1
              ltac:(lia) ltac:(vm_compute; discriminate)
              ltac:(intros tr [<-|[<-|[]]]; simpl; lia)
              ltac:(intros cg H; discriminate H))
    as (this1 & t1 & this2 & t2 & H1 & H2 & Hrows & _).
  exists this1, t1, this2, t2. repeat split; assumption.
Defined.

(** X4.  Inserting a row before index [i] and then deleting the row at
    [i] gives back the very table, provided the table has at least one row
    and [i] is at most the number of rows. *)
Theorem insertRow_deleteRow (this : ResizableTable) (t : Table) (i : Z) :
  (0 <= i <= Z.of_nat (length (rows t)))%Z ->
  (1 <= length (rows t))%nat ->
  exists this1 t1 this2,
    insertRow this t i before = Ok (this1, t1) /\
    deleteRow this1 t1 i = Ok (this2, t).
Proof.
  intros Hi HM.
  assert (Htarget : (0 <= targetOf i before)%Z) by (simpl; lia).
  pose proof (insertRow_table this t i before Htarget) as Hrun1.
  simpl targetOf in Hrun1.
  rewrite Nat.min_l in Hrun1 by lia.
  eexists. eexists. eexists. split; [exact Hrun1|].
  rewrite deleteRow_run;
    cbn [rows set_rows]; rewrite ?insert_at_length; try lia.
  rewrite remove_at_insert_at by lia.
  destruct t; reflexivity.
Qed.

Lemma insertRow_deleteRow_witness :
  exists this1 t1 this2,
    insertRow Fixture.plugin (Fixture.table 100 30) 2 before = Ok (this1, t1) /\
    deleteRow this1 t1 2 = Ok (this2, Fixture.table 100 30).
Proof.
  apply (@insertRow_deleteRow Fixture.plugin (Fixture.table 100 30) 2);
    simpl; lia.
Defined.

Lemma mapM_cons_inv {A B : Type} (f : A -> result B) (a : A) (l : list A)
      (bs : list B) :
  mapM f (a :: l) = Ok bs ->
  exists b bs', f a = Ok b /\ mapM f l = Ok bs' /\ bs = b :: bs'.
Proof.
  simpl. destruct (f a) as [b|]; simpl; [|discriminate].
  destruct (mapM f l) as [bs'|]; simpl; [|discriminate].
  intros H. injection H as <-. exists b, bs'. repeat split.
Qed.

Lemma removelast_length {A : Type} (l : list A) :
  length (removelast l) = pred (length l).
Proof.
  induction l as [|a l IH]; [reflexivity|].
  destruct l as [|b l]; [reflexivity|].
  change (removelast (a :: b :: l)) with (a :: removelast (b :: l)).
  simpl length in *. rewrite IH. reflexivity.
Qed.

Lemma Forall_removelast {A : Type} (P : A -> Prop) (l : list A) :
  Forall P l -> Forall P (removelast l).
Proof.
  induction 1 as [|a l Ha Hl IH]; [constructor|].
  destruct l as [|b l]; [constructor|].
  change (removelast (a :: b :: l)) with (a :: removelast (b :: l)).
  constructor; assumption.
Qed.

Lemma Forall_remove_at {A : Type} (P : A -> Prop) (n : nat) (l : list A) :
  Forall P l -> Forall P (remove_at n l).
Proof.
  intros H. revert n. induction H as [|a l Ha Hl IH]; intros n.
  - destruct n; constructor.
  - destruct n as [|n]; [exact Hl|].
    change (remove_at (S n) (a :: l)) with (a :: remove_at n l).
    constructor; [exact Ha | apply IH].
Qed.

(** What a call of [deleteCell] that returns leaves of the cells. *)
Lemma deleteCell_ok (tr tr' : Row) (i : Z) :
  DOM.deleteCell tr i = Ok tr' ->
  (length (cells tr) - 1 <= length (cells tr'))%nat /\
  (forall P : Cell -> Prop, Forall P (cells tr) -> Forall P (cells tr')).
Proof.
  unfold DOM.deleteCell.
  destruct ((i <? -1) || (Z.of_nat (length (cells tr)) <=? i))%Z%bool eqn:Hout;
    [discriminate|].
  apply orb_false_iff in Hout. destruct Hout as [Hlow Hhigh].
  apply Z.ltb_ge in Hlow. apply Z.leb_gt in Hhigh.
  destruct (Z.eqb_spec i (-1)) as [->|Hne]; intros H; injection H as <-;
    cbn [cells set_cells]; split.
  - rewrite removelast_length. lia.
  - intros P. apply Forall_removelast.
  - rewrite remove_at_length by lia. lia.
  - intros P. apply Forall_remove_at.
Qed.

(** X5.  The floors hold for every index, negative ones included: a call
    of [deleteRow] that returns leaves at least one row in a table that
    had one, and never removes more than one; a call of [deleteColumn]
    that returns leaves at least one cell in a first row that had one and
    whose cells span one column each, so at least one visual column. *)
Theorem delete_floors (this : ResizableTable) (t : Table) (i : Z)
        (st : ResizableTable * Table) :
  (deleteRow this t i = Ok st ->
   (length (rows t) - 1 <= length (rows (snd st)))%nat /\
   ((1 <= length (rows t))%nat -> (1 <= length (rows (snd st)))%nat)) /\
  (deleteColumn this t i = Ok st ->
   forall firstRow,
     nth_error (rows t) 0 = Some firstRow ->
     Forall (fun c => colSpanOr1 c = 1%nat) (cells firstRow) ->
     (1 <= getColumnCount t)%Z ->
     (1 <= getColumnCount (snd st))%Z).
Proof.
  split.
  - unfold deleteRow.
    destruct (Nat.leb_spec (length (rows t)) 1) as [Hfloor|Habove].
    + intros H. injection H as <-. simpl. split; lia.
    + unfold DOM.deleteRow.
      destruct ((i <? -1) || (Z.of_nat (length (rows t)) <=? i))%Z%bool eqn:Hout;
        [discriminate|].
      apply orb_false_iff in Hout. destruct Hout as [Hlow Hhigh].
      apply Z.ltb_ge in Hlow. apply Z.leb_gt in Hhigh.
      destruct (Z.eqb_spec i (-1)) as [->|Hne]; simpl bind;
        intros H; injection H as <-; cbn [snd rows set_rows].
      * rewrite removelast_length. split; lia.
      * rewrite remove_at_length by lia. split; lia.
  - unfold deleteColumn.
    destruct (Z.leb_spec (getColumnCount t) 1) as [Hfloor|Habove].
    + intros H. injection H as <-. simpl. intros; assumption.
    + intros Hrun firstRow Hfirst Hspans _.
      destruct (rows t) as [|r0 rs] eqn:Hrows; [discriminate|].
      injection Hfirst as ->.
      destruct (mapM _ (firstRow :: rs)) as [rows'|] eqn:Hloop;
        [|discriminate].
      apply mapM_cons_inv in Hloop.
      destruct Hloop as (r0' & rs' & Hr0 & _ & ->).
      assert (Hkept : (length (cells firstRow) - 1 <= length (cells r0'))%nat /\
                      Forall (fun c => colSpanOr1 c = 1%nat) (cells r0')).
      { destruct (i <? Z.of_nat (length (cells firstRow)))%Z.
        - destruct (deleteCell_ok _ _ Hr0) as [Hlen Hall].
          split; [exact Hlen | apply Hall; exact Hspans].
        - injection Hr0 as <-. split; [lia | exact Hspans]. }
      destruct Hkept as [Hlen Hall].
      assert (Hcount : (1 <= spanSum (cells r0'))%Z).
      { rewrite (spanSum_unit Hall).
        rewrite getColumnCount_rows, Hrows, (spanSum_unit Hspans) in Habove.
        lia. }
      simpl bind in Hrun. cbn [colgroup set_rows] in Hrun.
      assert (Hrows' : exists t', st = (syncQuill this, t') /\
                                   rows t' = r0' :: rs').
      { destruct (colgroup t) as [cg|].
        - destruct (i <? Z.of_nat (length cg))%Z.
          + destruct (DOM.item cg i); [|discriminate].
            simpl bind in Hrun. injection Hrun as <-.
            eexists. split; reflexivity.
          + simpl bind in Hrun. injection Hrun as <-.
            eexists. split; reflexivity.
        - simpl bind in Hrun. injection Hrun as <-.
          eexists. split; reflexivity. }
      destruct Hrows' as (t' & -> & Hr').
      cbn [snd]. rewrite getColumnCount_rows, Hr'. exact Hcount.
Qed.

(** A negative index that the table API accepts: [-1] stands for the
    last row, and the floor still holds. *)
Example deleteRow_minus_one :
  match deleteRow Fixture.plugin (Fixture.table 100 30) (-1) with
  | Ok (_, t') => Fixture.texts t' = [["A1"; "B1"; "C1"]]%string
  | Throw _ => False
  end.
Proof. vm_compute. reflexivity. Qed.

Lemma delete_floors_witness :
  exists st,
    deleteRow Fixture.plugin (Fixture.table 100 30) (-1) = Ok st /\
    (1 <= length (rows (snd st)))%nat.
Proof.
  assert (H : exists st,
             deleteRow Fixture.plugin (Fixture.table 100 30) (-1) = Ok st)
    by (eexists; vm_compute; reflexivity).
  destruct H as [st Hrun]. exists st. split; [exact Hrun|].
  apply (proj1 (@delete_floors Fixture.plugin (Fixture.table 100 30) (-1) st)
               Hrun).
  simpl. lia.
Defined.

(** * Further properties of a drag *)

Lemma update_at_other {A : Type} (n k : nat) (f : A -> A) (l : list A) :
  k <> n -> nth_error (update_at n f l) k = nth_error l k.
Proof.
  intros Hne. unfold update_at.
  destruct (nth_error l n) as [x|] eqn:Hn; [|reflexivity].
  assert (Hlt : (n < length l)%nat)
    by (apply nth_error_Some; rewrite Hn; discriminate).
  rewrite (nth_error_split_at _ _ Hn) at 3.
  destruct (Nat.lt_ge_cases k n) as [Hk|Hk].
  - rewrite !nth_error_app1 by (rewrite length_firstn; lia). reflexivity.
  - rewrite !nth_error_app2 by (rewrite length_firstn; lia).
    rewrite length_firstn, Nat.min_l by lia.
    replace (k - n)%nat with (S (k - n - 1)) by lia. reflexivity.
Qed.

Lemma update_at_middle {A : Type} (f : A -> A) (a b : list A) (x : A) :
  update_at (length a) f (a ++ x :: b) = a ++ f x :: b.
Proof.
  unfold update_at.
  rewrite nth_error_app2, Nat.sub_diag by lia. cbn [nth_error].
  apply splice_exact.
Qed.

Lemma update_at_twice {A : Type} (n : nat) (f g : A -> A) (l : list A) :
  (forall x, nth_error l n = Some x -> g (f x) = g x) ->
  update_at n g (update_at n f l) = update_at n g l.
Proof.
  intros Hgf. destruct (nth_error l n) as [x|] eqn:Hn.
  - pose proof (Hgf x eq_refl) as Hx.
    apply nth_error_split in Hn. destruct Hn as (l1 & l2 & -> & <-).
    rewrite !update_at_middle, Hx. reflexivity.
  - unfold update_at. rewrite Hn. rewrite Hn. reflexivity.
Qed.

Lemma applyHeights_cells (rs : list Row) (heights : list JS.val) :
  map cells (applyHeights rs heights) = map cells rs.
Proof.
  revert heights. induction rs as [|r rs IH]; intros [|h heights];
    try reflexivity.
  simpl. rewrite IH. reflexivity.
Qed.

(** A second write of a length replaces the first when it is kept, and
    also when the first was dropped. *)
Lemma setLength_twice (old : css) (a b : JS.val) :
  validLength b = true \/ validLength a = false ->
  setLength (setLength old a) b = setLength old b.
Proof.
  unfold setLength. intros [Hb|Ha]; [rewrite Hb | rewrite Ha]; reflexivity.
Qed.

Lemma applyHeights_twice (rs : list Row) (h1 h2 : list JS.val) :
  Forall2 (fun a b => validLength b = true \/ validLength a = false) h1 h2 ->
  applyHeights (applyHeights rs h1) h2 = applyHeights rs h2.
Proof.
  intros Hall. revert rs. induction Hall as [|a b h1 h2 Hab _ IH]; intros rs.
  - destruct rs; reflexivity.
  - destruct rs as [|r rs]; [reflexivity|].
    simpl. rewrite IH. cbn [row_height set_row_height cells row_offsetHeight].
    rewrite (@setLength_twice _ a b Hab). reflexivity.
Qed.

Lemma Forall2_same {A : Type} (R : A -> A -> Prop) (l : list A) :
  (forall a, R a a) -> Forall2 R l l.
Proof. intros Hrefl. induction l; constructor; auto. Qed.

(** Two arrays that differ by one write at the same index. *)
Lemma JS_set_related (R : JS.val -> JS.val -> Prop) (arr : list JS.val) (i : Z)
      (v w : JS.val) :
  (forall a, R a a) -> R v w ->
  Forall2 R (JS.set arr i v) (JS.set arr i w).
Proof.
  intros Hrefl Hvw. unfold JS.set.
  destruct (i <? 0)%Z; [apply Forall2_same; exact Hrefl|].
  destruct (Z.to_nat i <? length arr)%nat.
  - apply Forall2_app; [apply Forall2_same; exact Hrefl|].
    constructor; [exact Hvw | apply Forall2_same; exact Hrefl].
  - apply Forall2_app; [apply Forall2_same; exact Hrefl|].
    apply Forall2_app; [apply Forall2_same; exact Hrefl|].
    constructor; [exact Hvw | constructor].
Qed.

Lemma syncQuill_twice (this : ResizableTable) :
  syncQuill (syncQuill this) = syncQuill this.
Proof.
  unfold syncQuill at 2 3.
  destruct (observer (quill this)) eqn:Hobs.
  - reflexivity.
  - unfold syncQuill. rewrite Hobs. reflexivity.
Qed.

(** With a minimum that is not negative, the size a move computes is a
    length whenever the size another move of the session computes is
    one. *)
Lemma dragged_overrides (minimum d1 d2 : Q) (arr : list JS.val) (i : Z) :
  (0 <= minimum)%Q ->
  validLength (JS.max (JS.Num minimum) (JS.add (JS.get arr i) (JS.Num d2))) = true \/
  validLength (JS.max (JS.Num minimum) (JS.add (JS.get arr i) (JS.Num d1))) = false.
Proof.
  intros Hmin. destruct (JS.get arr i) as [s| |]; [left | right | right];
    try reflexivity.
  apply validLength_Num.
  apply (Qle_trans _ _ _ Hmin). apply Qmax_lower.
Qed.

(** The widths a colgroup holds add up to a length. *)
Lemma total_accepted (cg : list Col) (a : Q) :
  Forall (fun c => acceptedWidth (col_width c)) cg ->
  (0 <= a)%Q ->
  validLength
    (fold_left (fun sum c =>
                  JS.add sum (match col_width c with
                              | Some w => parseFloat w
                              | None => JS.Num 0
                              end))
               cg (JS.Num a)) = true.
Proof.
  intros Hall. revert a. induction Hall as [|c cg Hc _ IH]; intros a Ha.
  - apply validLength_Num. exact Ha.
  - cbn [fold_left]. destruct (col_width c) as [[q| |]|]; try discriminate Hc.
    + cbn [parseFloat JS.add]. apply IH.
      apply Qle_bool_iff in Hc. lra.
    + cbn [JS.add]. apply IH. lra.
Qed.

Lemma acceptedWidth_setLength (old : css) (v : JS.val) :
  acceptedWidth old -> acceptedWidth (setLength old v).
Proof.
  intros Hold. unfold setLength.
  destruct (validLength v) eqn:Hv; [exact Hv | exact Hold].
Qed.

Lemma Forall_update_at {A : Type} (P : A -> Prop) (n : nat) (f : A -> A)
      (l : list A) :
  (forall x, P x -> P (f x)) -> Forall P l -> Forall P (update_at n f l).
Proof.
  intros Hf Hall. unfold update_at.
  destruct (nth_error l n) as [x|] eqn:Hn; [|exact Hall].
  rewrite (nth_error_split_at _ _ Hn) in Hall.
  apply Forall_app in Hall. destruct Hall as [H1 H2].
  apply Forall_app. split; [exact H1|].
  inversion H2; subst. constructor; [apply Hf; assumption | assumption].
Qed.

(** The table [resizeColumnDirect] returns for an index from 0 on, and
    the effect of a second call at the same index. *)
Lemma resizeColumnDirect_again (this : ResizableTable) (t : Table)
      (ci : Z) (w1 w2 : JS.val) :
  (0 <= ci)%Z ->
  hostStyled t ->
  validLength w2 = true \/ validLength w1 = false ->
  exists t1 t2,
    resizeColumnDirect this t ci w1 = Ok (syncQuill this, t1) /\
    resizeColumnDirect this t ci w2 = Ok (syncQuill this, t2) /\
    resizeColumnDirect (syncQuill this) t1 ci w2 = Ok (syncQuill this, t2) /\
    (forall heights,
        resizeColumnDirect (syncQuill this) (applyRowHeights t1 heights) ci w2
        = Ok (syncQuill this, applyRowHeights t2 heights)).
Proof.
  intros Hci Hstyled Hover. unfold resizeColumnDirect at 1 2.
  set (cg0 := match colgroup (set_layoutFixed t) with
              | Some cg => cg
              | None => map (fun w0 => mkCol (setLength (col_width DOM.newCol) w0))
                            (getColumnWidths (set_layoutFixed t))
              end).
  set (cg1 := cg0 ++ repeat DOM.newCol (Z.to_nat (ci + 1) - length cg0)).
  assert (Haccepted : Forall (fun c => acceptedWidth (col_width c)) cg1).
  { unfold cg1. apply Forall_app. split.
    - unfold cg0. cbn [colgroup set_layoutFixed].
      destruct (colgroup t) as [cg|] eqn:Hcg; [apply (Hstyled cg Hcg)|].
      apply Forall_map. apply Forall_forall. intros w0 _.
      cbn [col_width]. apply acceptedWidth_setLength. exact I.
    - apply Forall_forall. intros c Hc. apply repeat_spec in Hc. subst c.
      exact I. }
  assert (Hlen : (Z.to_nat ci < length cg1)%nat).
  { unfold cg1. rewrite length_app, repeat_length. lia. }
  destruct (nth_error cg1 (Z.to_nat ci)) as [c|] eqn:Hnth;
    [|apply nth_error_None in Hnth; lia].
  unfold DOM.item.
  replace (ci <? 0)%Z with false by (symmetry; apply Z.ltb_ge; lia).
  rewrite Hnth.
  eexists. eexists. split; [reflexivity|]. split; [reflexivity|].
  set (cg2 := update_at (Z.to_nat ci)
                        (fun c1 => mkCol (setLength (col_width c1) w1)) cg1).
  assert (Hlen2 : length cg2 = length cg1) by apply update_at_length.
  assert (Hpad : (Z.to_nat (ci + 1) - length cg2)%nat = 0%nat) by lia.
  assert (Hnth2 : exists c2, nth_error cg2 (Z.to_nat ci) = Some c2).
  { destruct (nth_error cg2 (Z.to_nat ci)) as [c2|] eqn:H;
      [exists c2; reflexivity | apply nth_error_None in H; lia]. }
  destruct Hnth2 as [c2 Hnth2].
  assert (Hagain :
            update_at (Z.to_nat ci)
                      (fun c1 => mkCol (setLength (col_width c1) w2)) cg2
            = update_at (Z.to_nat ci)
                        (fun c1 => mkCol (setLength (col_width c1) w2)) cg1).
  { unfold cg2. apply update_at_twice. intros x _. cbn [col_width].
    rewrite (@setLength_twice _ w1 w2 Hover). reflexivity. }
  set (total := fun cg => fold_left
                            (fun sum c1 =>
                               JS.add sum (match col_width c1 with
                                           | Some w => parseFloat w
                                           | None => JS.Num 0
                                           end))
                            cg (JS.Num 0)).
  assert (Htotal : validLength
                     (total (update_at (Z.to_nat ci)
                               (fun c1 => mkCol (setLength (col_width c1) w2))
                               cg1)) = true).
  { unfold total. apply total_accepted; [|lra].
    apply Forall_update_at; [|exact Haccepted].
    intros x Hx. cbn [col_width]. apply acceptedWidth_setLength. exact Hx. }
  split; [|intros heights];
    unfold resizeColumnDirect;
    cbn [colgroup set_layoutFixed set_table_width set_colgroup rows layoutFixed
         table_width table_offsetWidth table_offsetHeight attached
         applyRowHeights set_rows];
    fold cg2; rewrite Hpad; simpl repeat; rewrite app_nil_r;
    unfold DOM.item;
    replace (ci <? 0)%Z with false by (symmetry; apply Z.ltb_ge; lia);
    rewrite Hnth2, Hagain, syncQuill_twice;
    fold (total cg2);
    fold (total (update_at (Z.to_nat ci)
                   (fun c1 => mkCol (setLength (col_width c1) w2)) cg1));
    rewrite (@setLength_twice _ _ _ (or_introl Htotal)); reflexivity.
Qed.

Section LastMove.

Variables (this : ResizableTable) (t : Table) (d : DragState).
Variables (e1 e2 : MouseEvent).
Hypothesis dragging : drag this = Some d.
Hypothesis colIndex_nonneg : (0 <= colIndex d)%Z.
Hypothesis minColumnWidth_nonneg : (0 <= minColumnWidth (options this))%Q.
Hypothesis minRowHeight_nonneg : (0 <= minRowHeight (options this))%Q.
Hypothesis styled : hostStyled t.

Lemma drag_syncQuill : drag (syncQuill this) = Some d.
Proof.
  unfold syncQuill. destruct (observer (quill this)); exact dragging.
Qed.

Lemma options_syncQuill : options (syncQuill this) = options this.
Proof. unfold syncQuill. destruct (observer (quill this)); reflexivity. Qed.

(** X6.  During a drag session, with configured minimums that are not
    negative and a colgroup whose widths the host accepted, the sizes
    depend on the last pointer position only: a move to [e1] followed by
    a move to [e2] leaves the instance and the table exactly as the move
    to [e2] alone does, so the deltas of successive moves do not add
    up. *)
Theorem onDocumentMouseMove_last_wins :
  exists st1 st2,
    onDocumentMouseMove this t e1 = Ok st1 /\
    onDocumentMouseMove (fst st1) (snd st1) e2 = Ok st2 /\
    onDocumentMouseMove this t e2 = Ok st2.
Proof.
  unfold onDocumentMouseMove at 1 3. rewrite dragging.
  destruct (@resizeColumnDirect_again
              this t (colIndex d)
              (dragNewWidth (options this) d e1)
              (dragNewWidth (options this) d e2) colIndex_nonneg styled
              (@dragged_overrides _ _ _ _ _ minColumnWidth_nonneg))
    as (t1 & t2 & Hrun1 & Hrun2 & Hagain & Hheights).
  assert (Hrelated :
            Forall2 (fun a b => validLength b = true \/ validLength a = false)
                    (JS.set (rowHeights d) (rowIndex d)
                            (dragNewHeight (options this) d e1))
                    (JS.set (rowHeights d) (rowIndex d)
                            (dragNewHeight (options this) d e2))).
  { apply JS_set_related.
    - intros a. destruct (validLength a); [left | right]; reflexivity.
    - apply dragged_overrides. exact minRowHeight_nonneg. }
  destruct (edge d) eqn:Hedge.
  - (* column *)
    rewrite Hrun1, Hrun2. cbn [bind].
    eexists. eexists. split; [reflexivity|]. split; [|reflexivity].
    cbn [fst snd]. unfold onDocumentMouseMove.
    rewrite drag_syncQuill, Hedge, options_syncQuill, Hagain. reflexivity.
  - (* row *)
    cbn [bind fst snd].
    eexists. eexists. split; [reflexivity|]. split; [|reflexivity].
    cbn [fst snd]. unfold onDocumentMouseMove.
    rewrite dragging, Hedge. cbn [bind fst snd].
    unfold applyRowHeights. cbn [rows set_rows].
    rewrite (@applyHeights_twice _ _ _ Hrelated).
    destruct t; reflexivity.
  - (* corner *)
    rewrite Hrun1, Hrun2. cbn [bind fst snd].
    eexists. eexists. split; [reflexivity|]. split; [|reflexivity].
    cbn [fst snd]. unfold onDocumentMouseMove.
    rewrite drag_syncQuill, Hedge, options_syncQuill.
    rewrite Hheights. cbn [bind fst snd].
    unfold applyRowHeights. cbn [rows set_rows].
    rewrite (@applyHeights_twice _ _ _ Hrelated). reflexivity.
Qed.

End LastMove.

Lemma onDocumentMouseMove_last_wins_witness :
  let st := onEditorMouseDown Fixture.plugin40 (Fixture.table 60 30)
                              (Fixture.downRight 60) in
  exists st1 st2,
    onDocumentMouseMove (fst st) (snd st)
                        (Fixture.moved (Fixture.downRight 60) 25 0) = Ok st1 /\
    onDocumentMouseMove (fst st1) (snd st1)
                        (Fixture.moved (Fixture.downRight 60) (-50) 0) = Ok st2 /\
    onDocumentMouseMove (fst st) (snd st)
                        (Fixture.moved (Fixture.downRight 60) (-50) 0) = Ok st2.
Proof.
  intros st.
  pose (d := mkDrag col 58 10 0 0
                    [JS.Num 60; JS.Num 60; JS.Num 60] [JS.Num 30; JS.Num 30]
                    180 60).
  assert (Hdrag : drag (fst st) = Some d) by (vm_compute; reflexivity).
  apply (@onDocumentMouseMove_last_wins (fst st) (snd st) d _ _ Hdrag).
  - simpl. lia.
  - vm_compute. discriminate.
  - vm_compute. discriminate.
  - intros cg Hcg. vm_compute in Hcg. injection Hcg as <-.
    repeat constructor.
Defined.

(** With a negative minimum the first width stays: after a move that
    widens the column to 125 pixels, a move whose width is negative leaves
    the 125 pixels, where the second move alone leaves the measured
    100. *)
Example onDocumentMouseMove_negative_minimum :
  let st := onEditorMouseDown Fixture.pluginNegative (Fixture.table 100 30)
                              (Fixture.downRight 100) in
  match (st1 <- onDocumentMouseMove (fst st) (snd st)
                  (Fixture.moved (Fixture.downRight 100) 25 0) ;;
         onDocumentMouseMove (fst st1) (snd st1)
           (Fixture.moved (Fixture.downRight 100) (-150) 0))%result,
        onDocumentMouseMove (fst st) (snd st)
          (Fixture.moved (Fixture.downRight 100) (-150) 0) with
  | Ok (_, t12), Ok (_, t2) =>
      Fixture.colWidthAt t12 0 = Some (Some (JS.Num 125)) /\
      Fixture.colWidthAt t2 0 = Some (Some (JS.Num 100))
  | _, _ => False
  end.
Proof. vm_compute. split; reflexivity. Qed.

(** X7.  Whatever the session holds, a pointer move that returns leaves
    the structure of the table alone: the rows keep their number and
    their cells, only sizes are written; and the session itself (edge,
    target indices, start point, snapshot) is not changed by the move.
    Without a session the move changes nothing at all. *)
Theorem onDocumentMouseMove_structure (this : ResizableTable) (t : Table)
        (e : MouseEvent) (st : ResizableTable * Table) :
  onDocumentMouseMove this t e = Ok st ->
  map cells (rows (snd st)) = map cells (rows t) /\
  length (rows (snd st)) = length (rows t) /\
  drag (fst st) = drag this /\
  attached (snd st) = attached t /\
  (drag this = None -> st = (this, t)).
Proof.
  unfold onDocumentMouseMove.
  destruct (drag this) as [d|] eqn:Hdrag.
  - assert (Hresize : forall w st1,
               resizeColumnDirect this t (colIndex d) w = Ok st1 ->
               rows (snd st1) = rows t /\ fst st1 = syncQuill this /\
               attached (snd st1) = attached t).
    { intros w st1. unfold resizeColumnDirect.
      destruct (DOM.item _ (colIndex d)); [|discriminate].
      intros H. injection H as <-. repeat split. }
    assert (Hsync : drag (syncQuill this) = Some d).
    { unfold syncQuill. destruct (observer (quill this)); exact Hdrag. }
    destruct (edge d).
    + destruct (resizeColumnDirect this t (colIndex d) _) as [st1|] eqn:Hrun;
        [|discriminate].
      destruct (Hresize _ _ Hrun) as (Hrows & Hthis & Hatt).
      cbn [bind]. intros H. injection H as Hst. subst st.
      rewrite Hrows, Hthis. repeat split; try assumption. discriminate.
    + cbn [bind fst snd]. intros H. injection H as Hst. subst st.
      cbn [fst snd]. unfold applyRowHeights. cbn [rows set_rows attached].
      rewrite applyHeights_cells.
      split; [reflexivity|].
      split; [rewrite <- (length_map cells), applyHeights_cells;
              apply length_map|].
      split; [exact Hdrag|]. split; [reflexivity | discriminate].
    + destruct (resizeColumnDirect this t (colIndex d) _) as [st1|] eqn:Hrun;
        [|discriminate].
      destruct (Hresize _ _ Hrun) as (Hrows & Hthis & Hatt).
      cbn [bind]. intros H. injection H as Hst. subst st.
      cbn [fst snd]. unfold applyRowHeights. cbn [rows set_rows attached].
      rewrite applyHeights_cells, Hrows, Hthis.
      split; [reflexivity|].
      split; [rewrite <- (length_map cells), applyHeights_cells;
              apply length_map|].
      split; [assumption|]. split; [assumption | discriminate].
  - intros H. injection H as Hst. subst st. repeat split. exact Hdrag.
Qed.

Lemma onDocumentMouseMove_structure_witness :
  let st := onEditorMouseDown Fixture.plugin40 (Fixture.table 60 30)
                              (Fixture.downRight 60) in
  exists st1,
    onDocumentMouseMove (fst st) (snd st)
                        (Fixture.moved (Fixture.downRight 60) 25 0) = Ok st1 /\
    map cells (rows (snd st1)) = map cells (rows (snd st)).
Proof.
  intros st.
  assert (H : exists st1,
             onDocumentMouseMove (fst st) (snd st)
                                 (Fixture.moved (Fixture.downRight 60) 25 0)
             = Ok st1)
    by (eexists; vm_compute; reflexivity).
  destruct H as [st1 Hrun]. exists st1. split; [exact Hrun|].
  apply (@onDocumentMouseMove_structure _ _ _ st1 Hrun).
Defined.

(** Changing one position of a list that was first padded up to it. *)
Lemma padded_update {A : Type} (l : list A) (n : nat) (pad : A) (f : A -> A) :
  let l' := update_at n f (l ++ repeat pad (S n - length l)) in
  nth_error l' n = Some (f (nth n l pad)) /\
  (forall k, k <> n -> (k < length l)%nat -> nth_error l' k = nth_error l k) /\
  length l' = Nat.max (length l) (S n).
Proof.
  intros l'. unfold l'.
  set (l1 := l ++ repeat pad (S n - length l)).
  assert (Hlen : length l1 = Nat.max (length l) (S n)).
  { unfold l1. rewrite length_app, repeat_length. lia. }
  destruct (nth_error l1 n) as [c|] eqn:Hnth;
    [|apply nth_error_None in Hnth; lia].
  assert (Hc : c = nth n l pad).
  { apply (nth_error_nth _ _ pad) in Hnth. rewrite <- Hnth. unfold l1.
    destruct (Nat.lt_ge_cases n (length l)) as [Hlt|Hge].
    - apply app_nth1. exact Hlt.
    - rewrite app_nth2 by exact Hge. rewrite (nth_overflow l) by exact Hge.
      apply nth_repeat. }
  split; [rewrite <- Hc; apply (update_at_here _ f _ Hnth)|].
  split.
  - intros k Hne Hk. rewrite update_at_other by exact Hne.
    unfold l1. apply nth_error_app1. exact Hk.
  - rewrite update_at_length. exact Hlen.
Qed.

(** The table [resizeColumnDirect] returns when there is a colgroup. *)
Lemma resizeColumnDirect_on_colgroup (this : ResizableTable) (t : Table)
      (ci : Z) (w : JS.val) (cg : list Col) :
  (0 <= ci)%Z ->
  colgroup t = Some cg ->
  exists t',
    resizeColumnDirect this t ci w = Ok (syncQuill this, t') /\
    rows t' = rows t /\
    colgroup t'
    = Some (update_at (Z.to_nat ci)
                      (fun c => mkCol (setLength (col_width c) w))
                      (cg ++ repeat DOM.newCol (S (Z.to_nat ci) - length cg))).
Proof.
  intros Hci Hcg. unfold resizeColumnDirect.
  cbn [colgroup set_layoutFixed]. rewrite Hcg.
  replace (Z.to_nat (ci + 1)) with (S (Z.to_nat ci)) by lia.
  set (cg1 := cg ++ repeat DOM.newCol (S (Z.to_nat ci) - length cg)).
  assert (Hlen : (Z.to_nat ci < length cg1)%nat).
  { unfold cg1. rewrite length_app, repeat_length. lia. }
  destruct (nth_error cg1 (Z.to_nat ci)) as [c|] eqn:Hnth;
    [|apply nth_error_None in Hnth; lia].
  unfold DOM.item.
  replace (ci <? 0)%Z with false by (symmetry; apply Z.ltb_ge; lia).
  rewrite Hnth.
  eexists. split; [reflexivity|]. split; reflexivity.
Qed.

(** X8.  [resizeColumnDirect] on a table with a colgroup returns normally
    and leaves every entry but the one at the index as it was, at its
    position; the colgroup keeps its length when the index lies inside it
    and grows to index + 1 otherwise, and the rows are not touched.  The
    entry at the index takes the new width when that is a number that is
    not negative; a negative width, [NaN] and [undefined] are dropped,
    and the entry keeps the width it had (none, when the entry was made
    by this call). *)
Theorem resizeColumnDirect_single (this : ResizableTable) (t : Table)
        (ci : Z) (w : JS.val) (cg : list Col) :
  (0 <= ci)%Z ->
  colgroup t = Some cg ->
  exists t' cg' c,
    resizeColumnDirect this t ci w = Ok (syncQuill this, t') /\
    colgroup t' = Some cg' /\
    rows t' = rows t /\
    nth_error cg' (Z.to_nat ci) = Some c /\
    (forall q, w = JS.Num q -> (0 <= q)%Q -> col_width c = Some (JS.Num q)) /\
    ((forall q, w = JS.Num q -> (q < 0)%Q) ->
     col_width c = match nth_error cg (Z.to_nat ci) with
                   | Some c0 => col_width c0
                   | None => None
                   end) /\
    (forall k, k <> Z.to_nat ci -> (k < length cg)%nat ->
               nth_error cg' k = nth_error cg k) /\
    length cg' = Nat.max (length cg) (S (Z.to_nat ci)).
Proof.
  intros Hci Hcg.
  destruct (@resizeColumnDirect_on_colgroup this t ci w cg Hci Hcg)
    as (t' & Hrun & Hrows & Hcg').
  destruct (padded_update cg (Z.to_nat ci) DOM.newCol
                          (fun c => mkCol (setLength (col_width c) w)))
    as (Hat & Hothers & Hlen).
  exists t'. eexists. eexists. split; [exact Hrun|]. split; [exact Hcg'|].
  split; [exact Hrows|]. split; [exact Hat|].
  cbn [col_width].
  split; [|split; [|split; [exact Hothers | exact Hlen]]].
  - intros q -> Hq. apply setLength_valid. apply validLength_Num. exact Hq.
  - intros Hdrop.
    rewrite setLength_invalid.
    + destruct (nth_error cg (Z.to_nat ci)) as [c0|] eqn:Hnth.
      * rewrite (nth_error_nth _ _ DOM.newCol Hnth). reflexivity.
      * apply nth_error_None in Hnth. rewrite nth_overflow by exact Hnth.
        reflexivity.
    + destruct w as [q| |]; [|reflexivity|reflexivity].
      apply validLength_negative. apply Hdrop. reflexivity.
Qed.

Lemma resizeColumnDirect_single_witness :
  exists t' cg' c,
    resizeColumnDirect Fixture.plugin
                       (Fixture.withColgroup (Fixture.table 100 30) 100) 1
                       (JS.Num 150)
    = Ok (syncQuill Fixture.plugin, t') /\
    colgroup t' = Some cg' /\
    nth_error cg' 1 = Some c /\
    col_width c = Some (JS.Num 150) /\
    length cg' = 3%nat.
Proof.
  destruct (@resizeColumnDirect_single
              Fixture.plugin (Fixture.withColgroup (Fixture.table 100 30) 100)
              1 (JS.Num 150) _ ltac:(lia) eq_refl)
    as (t' & cg' & c & Hrun & Hcg & _ & Hnth & Hkept & _ & _ & Hlen).
  exists t', cg', c. split; [exact Hrun|]. split; [exact Hcg|].
  split; [exact Hnth|]. split; [|exact Hlen].
  apply (Hkept 150 eq_refl). vm_compute. discriminate.
Defined.

(** A width the host drops: the entry keeps its 100 pixels. *)
Example resizeColumnDirect_negative :
  match resizeColumnDirect Fixture.plugin
                           (Fixture.withColgroup (Fixture.table 100 30) 100) 1
                           (JS.Num (-50)),
        resizeColumnDirect Fixture.plugin
                           (Fixture.withColgroup (Fixture.table 100 30) 100) 1
                           JS.NaN with
  | Ok (_, t1), Ok (_, t2) =>
      Fixture.colWidthAt t1 1 = Some (Some (JS.Num 100)) /\
      Fixture.colWidthAt t2 1 = Some (Some (JS.Num 100))
  | _, _ => False
  end.
Proof. vm_compute. split; reflexivity. Qed.

(** The measurements of a table the host has laid out are lengths. *)
Lemma getColumnWidths_valid (t : Table) :
  measured t ->
  Forall (fun v => validLength v = true) (getColumnWidths t).
Proof.
  unfold measured, getColumnWidths. intros Hall.
  destruct (rows t) as [|firstRow rs]; [constructor|].
  apply Forall_inv in Hall. destruct Hall as [_ Hcells].
  induction Hcells as [|c cs Hc _ IH]; [constructor|].
  cbn [flat_map]. apply Forall_app. split; [|exact IH].
  apply Forall_forall. intros v Hv. apply repeat_spec in Hv. subst v.
  apply validLength_Num.
  apply Qle_shift_div_l.
  - pose proof (colSpanOr1_pos c). unfold Qlt. simpl. lia.
  - lra.
Qed.

Lemma sum_valid (ws : list JS.val) (a : Q) :
  Forall (fun v => validLength v = true) ws ->
  (0 <= a)%Q ->
  validLength (fold_left JS.add ws (JS.Num a)) = true.
Proof.
  intros Hall. revert a. induction Hall as [|v ws Hv _ IH]; intros a Ha.
  - apply validLength_Num. exact Ha.
  - cbn [fold_left]. destruct v as [q| |]; try discriminate Hv.
    cbn [JS.add]. apply IH. apply Qle_bool_iff in Hv. lra.
Qed.

Lemma combine_widths (cg : list Col) (widths : list JS.val) :
  length cg = length widths ->
  Forall (fun v => validLength v = true) widths ->
  map (fun cw : Col * JS.val => mkCol (setLength (col_width (fst cw)) (snd cw)))
      (combine cg widths)
  = map (fun w => mkCol (Some w)) widths.
Proof.
  intros Hlen Hall. revert cg Hlen.
  induction Hall as [|w widths Hw _ IH]; intros [|c cg] Hlen;
    try discriminate; [reflexivity|].
  cbn [combine map fst snd]. rewrite (@setLength_valid _ w Hw).
  rewrite IH by (simpl in Hlen; lia). reflexivity.
Qed.

(** Whatever colgroup the table had, [applyColumnWidths] leaves one whose
    entries are exactly the given widths, when these are lengths. *)
Lemma applyColumnWidths_exact (t : Table) (widths : list JS.val) :
  Forall (fun v => validLength v = true) widths ->
  colgroup (applyColumnWidths t widths)
  = Some (map (fun w => mkCol (Some w)) widths) /\
  table_width (applyColumnWidths t widths) = Some (JS.sum widths).
Proof.
  intros Hall. unfold applyColumnWidths.
  cbn [colgroup set_colgroup table_width set_table_width set_layoutFixed].
  split.
  - f_equal. apply combine_widths; [|exact Hall].
    rewrite length_app, repeat_length, length_firstn. lia.
  - apply setLength_valid. unfold JS.sum. apply sum_valid; [exact Hall | lra].
Qed.

(** What [applyRowHeights] leaves of the rows when it is given the
    measured heights. *)
Lemma applyHeights_measured (rs : list Row) :
  Forall (fun r => (0 <= row_offsetHeight r)%Q) rs ->
  applyHeights rs (map (fun r => JS.Num (row_offsetHeight r)) rs)
  = map (fun r => mkRow (cells r) (row_offsetHeight r)
                        (Some (JS.Num (row_offsetHeight r)))) rs.
Proof.
  induction 1 as [|r rs Hr _ IH]; [reflexivity|].
  cbn [map applyHeights]. rewrite IH.
  rewrite (@setLength_valid _ _ (@validLength_Num _ Hr)). reflexivity.
Qed.

Lemma measured_heights (t : Table) :
  measured t -> Forall (fun r => (0 <= row_offsetHeight r)%Q) (rows t).
Proof.
  unfold measured. apply Forall_impl. intros r [Hr _]. exact Hr.
Qed.

(** X9.  A [mousedown] away from every edge changes nothing.  A
    [mousedown] on an edge of a table the host has laid out opens a
    session for that edge, started at the pointer, whose snapshot is the
    measured widths and heights; it pins the table to that geometry
    (fixed layout, the sum of the measured widths as the table width, a
    colgroup holding exactly the measured column widths whatever colgroup
    there was, the inline height of every row set to its measured height,
    the cells untouched) and raises the overlay with the cursor of the
    edge; the following [mouseup] closes the session and removes the
    overlay. *)
Theorem onEditorMouseDown_pins (this : ResizableTable) (t : Table) (e : MouseEvent) :
  (detectEdge this t e = None -> onEditorMouseDown this t e = (this, t)) /\
  (forall hit,
      detectEdge this t e = Some hit ->
      measured t ->
      exists this' t' d,
        onEditorMouseDown this t e = (this', t') /\
        drag this' = Some d /\
        edge d = hit_edge hit /\
        colIndex d = hit_colIndex hit /\ rowIndex d = hit_rowIndex hit /\
        startX d = clientX e /\ startY d = clientY e /\
        colWidths d = getColumnWidths t /\ rowHeights d = getRowHeights t /\
        layoutFixed t' = true /\
        table_width t' = Some (JS.sum (getColumnWidths t)) /\
        colgroup t' = Some (map (fun w => mkCol (Some w)) (getColumnWidths t)) /\
        length (rows t') = length (rows t) /\
        (forall k tr,
            nth_error (rows t) k = Some tr ->
            exists tr',
              nth_error (rows t') k = Some tr' /\
              row_height tr' = Some (JS.Num (row_offsetHeight tr)) /\
              cells tr' = cells tr /\
              row_offsetHeight tr' = row_offsetHeight tr) /\
        (overlay this = None -> overlay this' = Some (cursorOf (hit_edge hit))) /\
        drag (onDocumentMouseUp this') = None /\
        overlay (onDocumentMouseUp this') = None).
Proof.
  split.
  - intros Hmiss. unfold onEditorMouseDown. rewrite Hmiss. reflexivity.
  - intros hit Hhit Hmeasured. unfold onEditorMouseDown. rewrite Hhit.
    destruct (@applyColumnWidths_exact t (getColumnWidths t)
                (@getColumnWidths_valid t Hmeasured)) as [Hcg Hwidth].
    pose proof (@applyHeights_measured (rows t) (@measured_heights t Hmeasured))
      as Hheights.
    eexists. eexists. eexists. split; [reflexivity|].
    split.
    { unfold addOverlay. cbn [overlay set_drag drag].
      destruct (overlay this); reflexivity. }
    cbn [edge colIndex rowIndex startX startY colWidths rowHeights].
    do 7 (split; [reflexivity|]).
    split; [reflexivity|]. split; [exact Hwidth|].
    split; [exact Hcg|].
    unfold applyRowHeights, getRowHeights.
    cbn [rows set_rows applyColumnWidths set_colgroup set_table_width
         set_layoutFixed].
    rewrite Hheights.
    split; [apply length_map|].
    split.
    { intros k tr Hk. eexists.
      split; [rewrite nth_error_map, Hk; reflexivity|].
      repeat split. }
    split; [|split; reflexivity].
    intros Hnone. unfold addOverlay. cbn [overlay set_drag drag].
    rewrite Hnone. cbn [overlay set_overlay edge].
    destruct (hit_edge hit); reflexivity.
Qed.

Lemma onEditorMouseDown_pins_witness :
  exists this' t' tr',
    onEditorMouseDown Fixture.plugin (Fixture.table 100 30)
                      (Fixture.downRight 100) = (this', t') /\
    colgroup t'
    = Some (map (fun w => mkCol (Some w))
                (getColumnWidths (Fixture.table 100 30))) /\
    nth_error (rows t') 1 = Some tr' /\
    row_height tr' = Some (JS.Num 30).
Proof.
  assert (Hmeasured : measured (Fixture.table 100 30)).
  { repeat constructor; vm_compute; discriminate. }
  destruct (onEditorMouseDown_pins Fixture.plugin (Fixture.table 100 30)
                                   (Fixture.downRight 100)) as [_ Hhit].
  destruct (Hhit (mkHit col 0 0) ltac:(vm_compute; reflexivity) Hmeasured)
    as (this' & t' & d & Hrun & _ & _ & _ & _ & _ & _ & _ & _ & _ & _ & Hcg
        & _ & Hrows & _).
  destruct (Hrows 1%nat _ eq_refl) as (tr' & Hnth & Hheight & _).
  exists this', t', tr'. split; [exact Hrun|]. split; [exact Hcg|].
  split; [exact Hnth | exact Hheight].
Defined.

Lemma getCellColIndex_bound (tr : Row) (c : nat) (td : Cell) :
  nth_error (cells tr) c = Some td ->
  (getCellColIndex tr c + Z.of_nat (colSpanOr1 td) <= spanSum (cells tr))%Z.
Proof.
  intros Hc.
  change (getCellColIndex tr c) with (spanSum (rev (firstn c (cells tr)))).
  rewrite spanSum_rev.
  rewrite (nth_error_split_at _ _ Hc) at 2.
  rewrite spanSum_app, spanSum_cons.
  pose proof (spanSum_nonneg (skipn (S c) (cells tr))). lia.
Qed.

Lemma getColumnWidths_Num (t : Table) (k : nat) :
  (Z.of_nat k < getColumnCount t)%Z ->
  exists w, nth_error (getColumnWidths t) k = Some (JS.Num w).
Proof.
  intros Hk. rewrite <- getColumnWidths_length in Hk.
  destruct (nth_error (getColumnWidths t) k) as [v|] eqn:Hnth;
    [|apply nth_error_None in Hnth; lia].
  apply nth_error_In in Hnth. unfold getColumnWidths in Hnth.
  destruct (rows t) as [|firstRow rs]; [destruct Hnth|].
  apply in_flat_map in Hnth. destruct Hnth as (c & _ & Hin).
  apply repeat_spec in Hin. subst v. eexists. reflexivity.
Qed.

Lemma getRowHeights_Num (t : Table) (k : nat) :
  (k < length (rows t))%nat ->
  exists h, nth_error (getRowHeights t) k = Some (JS.Num h).
Proof.
  intros Hk. unfold getRowHeights. rewrite nth_error_map.
  destruct (nth_error (rows t) k) as [r|] eqn:Hnth;
    [|apply nth_error_None in Hnth; lia].
  eexists. reflexivity.
Qed.

Section Snapshot.

Variables (this : ResizableTable) (t : Table) (e : MouseEvent).
Variables (r c : nat) (tr : Row) (td : Cell) (hit : Hit).
Hypothesis on_cell : target e = Some (r, c).
Hypothesis in_table : nth_error (rows t) r = Some tr.
Hypothesis in_row : nth_error (cells tr) c = Some td.
Hypothesis is_hit : detectEdge this t e = Some hit.
Hypothesis not_wider : (spanSum (cells tr) <= getColumnCount t)%Z.
Hypothesis rowSpan_fits :
  (Z.of_nat r + Z.of_nat (rowSpanOr1 td) <= Z.of_nat (length (rows t)))%Z.

(** X10.  In a table where the row of the pointed cell is not wider than
    the first row and the rowspan of the cell stays inside the table, the
    session a [mousedown] opens always has numbers to work from: its
    target column and target row are indices from 0 on that lie inside
    the table and inside the snapshot, where a measured width and a
    measured height stand. *)
Theorem onEditorMouseDown_snapshot :
  exists d w h,
    drag (fst (onEditorMouseDown this t e)) = Some d /\
    (0 <= colIndex d < getColumnCount t)%Z /\
    (0 <= rowIndex d < Z.of_nat (length (rows t)))%Z /\
    nth_error (colWidths d) (Z.to_nat (colIndex d)) = Some (JS.Num w) /\
    nth_error (rowHeights d) (Z.to_nat (rowIndex d)) = Some (JS.Num h).
Proof.
  pose proof (getCellColIndex_nonneg tr c) as Hcol0.
  pose proof (getCellColIndex_bound tr c in_row) as Hcol1.
  pose proof (colSpanOr1_pos td) as Hcs.
  pose proof (rowSpanOr1_pos td) as Hrs.
  assert (Hin : (0 <= hit_colIndex hit < getColumnCount t)%Z /\
                (0 <= hit_rowIndex hit < Z.of_nat (length (rows t)))%Z).
  { revert is_hit. unfold detectEdge, getCellRowIndex.
    rewrite on_cell, in_table, in_row.
    repeat match goal with
           | |- context [if ?b then _ else _] => destruct b
           end;
      intros H; try discriminate; injection H as <-; simpl; lia. }
  destruct Hin as [Hc Hr].
  destruct (@getColumnWidths_Num t (Z.to_nat (hit_colIndex hit)) ltac:(lia))
    as [w Hw].
  destruct (@getRowHeights_Num t (Z.to_nat (hit_rowIndex hit)) ltac:(lia))
    as [h Hh].
  unfold onEditorMouseDown. rewrite is_hit. cbn [fst].
  eexists. exists w, h.
  split.
  { unfold addOverlay. cbn [overlay set_drag drag].
    destruct (overlay this); reflexivity. }
  cbn [colIndex rowIndex colWidths rowHeights].
  repeat split; try lia; assumption.
Qed.

End Snapshot.

Lemma onEditorMouseDown_snapshot_witness :
  exists d w,
    drag (fst (onEditorMouseDown Fixture.plugin (Fixture.table 100 30)
                                 (Fixture.downRight 100))) = Some d /\
    nth_error (colWidths d) (Z.to_nat (colIndex d)) = Some (JS.Num w).
Proof.
  destruct (@onEditorMouseDown_snapshot
              Fixture.plugin (Fixture.table 100 30) (Fixture.downRight 100)
              0 0 (Fixture.rowAt ["A1"; "B1"; "C1"]%string 100 30 0)
              (Fixture.cellAt "A1" 100 30 0 0) (mkHit col 0 0)
              eq_refl eq_refl eq_refl
              ltac:(vm_compute; reflexivity)
              ltac:(vm_compute; discriminate)
              ltac:(vm_compute; discriminate))
    as (d & w & h & Hd & _ & _ & Hw & _).
  exists d, w. split; [exact Hd | exact Hw].
Defined.

(** * Further properties of the mutators and of the menu *)

Lemma untouched_refl (this : ResizableTable) : untouched this this.
Proof. repeat split. Qed.

Lemma untouched_syncQuill (this : ResizableTable) : untouched (syncQuill this) this.
Proof.
  unfold syncQuill. destruct (observer (quill this)); repeat split.
Qed.

(** X11.  A structural edit that returns never disturbs the rest of the
    instance: the options, an open drag session and its overlay, an open
    menu, the host's selection and what its clipboard received are as they
    were after [insertColumn], [deleteColumn], [insertRow], [deleteRow] and
    [deleteTable], for every index; the only thing such a call does to the
    host is to drain the observer, and a pending record count is zero
    after every call that went past a floor check. *)
Theorem mutators_frame (this : ResizableTable) (t : Table) (i : Z)
        (p : Position) (st : ResizableTable * Table) :
  (insertColumn this t i p = Ok st ->
   untouched (fst st) this /\ fst st = syncQuill this) /\
  (insertRow this t i p = Ok st ->
   untouched (fst st) this /\ fst st = syncQuill this) /\
  (deleteColumn this t i = Ok st ->
   untouched (fst st) this /\
   ((1 < getColumnCount t)%Z -> fst st = syncQuill this)) /\
  (deleteRow this t i = Ok st ->
   untouched (fst st) this /\
   ((1 < length (rows t))%nat -> fst st = syncQuill this)) /\
  untouched (fst (deleteTable this t)) this /\
  (forall n, observer (quill this) = Some n ->
             observer (quill (syncQuill this)) = Some 0%nat).
Proof.
  split; [|split; [|split; [|split; [|split]]]].
  - unfold insertColumn.
    destruct (mapM _ (rows t)); [|discriminate].
    cbn [bind]. intros H. injection H as Hst. subst st.
    split; [apply untouched_syncQuill | reflexivity].
  - unfold insertRow.
    destruct (DOM.insertRow t _) as [ins|]; [|discriminate].
    cbn [bind].
    destruct (nth_error (rows (snd ins)) (fst ins)) as [newRow|].
    + destruct (fillRow _ newRow); [|discriminate].
      cbn [bind]. intros H. injection H as Hst. subst st.
      split; [apply untouched_syncQuill | reflexivity].
    + intros H. injection H as Hst. subst st.
      split; [apply untouched_syncQuill | reflexivity].
  - unfold deleteColumn.
    destruct (Z.leb_spec (getColumnCount t) 1) as [Hfloor|Habove].
    + intros H. injection H as Hst. subst st.
      split; [apply untouched_refl | lia].
    + destruct (mapM _ (rows t)); [|discriminate].
      cbn [bind colgroup set_rows].
      assert (Hgoal : forall u : result Table,
                 (t2 <- u ;; Ok (syncQuill this, t2))%result = Ok st ->
                 untouched (fst st) this /\
                 ((1 < getColumnCount t)%Z -> fst st = syncQuill this)).
      { intros [t2|]; [|discriminate]. cbn [bind].
        intros H. injection H as Hst. subst st.
        split; [apply untouched_syncQuill | reflexivity]. }
      apply Hgoal.
  - unfold deleteRow.
    destruct (Nat.leb_spec (length (rows t)) 1) as [Hfloor|Habove].
    + intros H. injection H as Hst. subst st.
      split; [apply untouched_refl | lia].
    + destruct (DOM.deleteRow t i); [|discriminate].
      cbn [bind]. intros H. injection H as Hst. subst st.
      split; [apply untouched_syncQuill | reflexivity].
  - apply untouched_syncQuill.
  - intros n Hobs. unfold syncQuill. rewrite Hobs. reflexivity.
Qed.

Lemma mutators_frame_witness :
  let q := mkQuill None [] (Some 4%nat) in
  exists st,
    insertRow (constructor q Fixture.noOptions) (Fixture.table 100 30) 0 after
    = Ok st /\
    observer (quill (fst st)) = Some 0%nat.
Proof.
  intros q.
  assert (H : exists st,
             insertRow (constructor q Fixture.noOptions)
                       (Fixture.table 100 30) 0 after = Ok st)
    by (eexists; vm_compute; reflexivity).
  destruct H as [st Hrun]. exists st. split; [exact Hrun|].
  destruct (@mutators_frame (constructor q Fixture.noOptions)
              (Fixture.table 100 30) 0 after st)
    as (_ & Hrow & _ & _ & _ & Hdrain).
  destruct (Hrow Hrun) as [_ ->].
  apply (Hdrain 4%nat). reflexivity.
Defined.

(** X12.  With a selection, [insertNewTable] throws exactly when one of
    the two counts is negative or the markup gets longer than a string
    can be (the row of cells, or the table of rows); the exception is
    always the [RangeError] of the engine, and then nothing is pasted
    (there is no result); without a selection it returns before the
    counts are looked at. *)
Theorem insertNewTable_negative (this : ResizableTable) (nrows ncols : Z)
        (range : Range) :
  getSelection (quill this) = Some (Some range) ->
  ((nrows < 0)%Z \/ (ncols < 0)%Z ->
   insertNewTable this (Some nrows) (Some ncols) = Throw RangeError) /\
  (throws (insertNewTable this (Some nrows) (Some ncols)) = true <->
   (nrows < 0)%Z \/ (ncols < 0)%Z \/
   (JS.maxStringLength < rowMarkupLength ncols)%Z \/
   (JS.maxStringLength < tableMarkupLength nrows ncols)%Z) /\
  (forall e,
      insertNewTable this (Some nrows) (Some ncols) = Throw e -> e = RangeError).
Proof.
  intros Hsel. rewrite (insertNewTable_run this nrows ncols Hsel).
  destruct (Z.ltb_spec ncols 0) as [Hc|Hc];
    destruct (Z.ltb_spec JS.maxStringLength (rowMarkupLength ncols)) as [Hrow|Hrow];
    destruct (Z.ltb_spec nrows 0) as [Hr|Hr];
    destruct (Z.ltb_spec JS.maxStringLength (tableMarkupLength nrows ncols))
      as [Htable|Htable];
    cbn [orb throws];
    (split; [intros; try reflexivity; lia|]);
    (split;
     [split; intros H; try reflexivity; try discriminate H;
      first [ left; assumption
            | right; left; assumption
            | right; right; left; assumption
            | right; right; right; assumption
            | lia ]
     | intros e H; try discriminate H; injection H as <-; reflexivity ]).
Qed.

Lemma insertNewTable_negative_witness :
  insertNewTable
    (constructor (mkQuill (Some (Some (mkRange 0 0))) [] None) Fixture.noOptions)
    (Some (-1)%Z) (Some 3%Z)
  = Throw RangeError.
Proof.
  apply (@insertNewTable_negative
           (constructor (mkQuill (Some (Some (mkRange 0 0))) [] None)
                        Fixture.noOptions)
           (-1) 3 (mkRange 0 0) eq_refl).
  left. lia.
Defined.

(** Reading a position past the head back as [nth_error]. *)
Ltac refold_nth :=
  match goal with
  | |- match ?l with [] => None | _ :: l' => nth_error l' ?k end = ?v =>
      change (nth_error l (S k) = v)
  end.

Section MenuRows.

Variables (this : ResizableTable) (t : Table) (x y : Q).
Variables (r c : nat) (tr : Row).
Hypothesis in_table : nth_error (rows t) r = Some tr.

Lemma row_in_range : (r < length (rows t))%nat.
Proof. apply nth_error_Some. rewrite in_table. discriminate. Qed.

(** X13.  The row entries of the menu act on the row of the cell the
    menu was opened on.  "Insert Row Above" puts a blank row, of one cell
    per visual column, at the position of that row, which moves down by
    one; "Insert Row Below" puts it right after that row; "Delete Row"
    removes exactly that row when the table has more than one.  When the
    table has one row the entry is disabled and carries no listener: a
    [mousedown] on it changes no row, and since nothing stops it on its
    way up to the document it closes the menu, as a click elsewhere
    does.  Every [mousedown] on an entry leaves the menu closed. *)
Theorem menu_row_entries :
  (exists st,
      menuMouseDown (showContextMenu this t x y (r, c)) t 4 = Ok st /\
      contextMenu (fst st) = None /\
      length (rows (snd st)) = S (length (rows t)) /\
      nth_error (rows (snd st)) r = Some (blankRow (getColumnCount t)) /\
      nth_error (rows (snd st)) (S r) = Some tr) /\
  (exists st,
      menuMouseDown (showContextMenu this t x y (r, c)) t 5 = Ok st /\
      contextMenu (fst st) = None /\
      length (rows (snd st)) = S (length (rows t)) /\
      nth_error (rows (snd st)) r = Some tr /\
      nth_error (rows (snd st)) (S r) = Some (blankRow (getColumnCount t))) /\
  ((1 < length (rows t))%nat ->
   exists st,
     menuMouseDown (showContextMenu this t x y (r, c)) t 6 = Ok st /\
     contextMenu (fst st) = None /\
     rows (snd st) = remove_at r (rows t)) /\
  ((length (rows t) <= 1)%nat ->
   exists m st,
     contextMenu (showContextMenu this t x y (r, c)) = Some m /\
     nth_error (menu_children m) 6 = Some (ItemEl true "Delete Row" None) /\
     menuMouseDown (showContextMenu this t x y (r, c)) t 6 = Ok st /\
     snd st = t /\
     contextMenu (fst st) = None /\
     untouched_but_menu (fst st) this).
Proof.
  pose proof row_in_range as Hr.
  split; [|split; [|split]].
  - unfold menuMouseDown. rewrite (@showContextMenu_children this t x y r c tr in_table).
    cbn [menu_children nth_error runAction].
    rewrite insertRow_table by (simpl; lia). cbn [bind fst snd targetOf].
    rewrite Nat2Z.id, Nat.min_l by lia.
    eexists. split; [reflexivity|]. cbn [fst snd rows set_rows].
    split; [apply dismissContextMenu_closed|].
    split; [apply insert_at_length|].
    split; [apply insert_at_here; lia|].
    refold_nth. rewrite insert_at_above by lia. exact in_table.
  - unfold menuMouseDown. rewrite (@showContextMenu_children this t x y r c tr in_table).
    cbn [menu_children nth_error runAction].
    rewrite insertRow_table by (simpl; lia). cbn [bind fst snd targetOf].
    replace (Z.to_nat (Z.of_nat r + 1)) with (S r) by lia.
    rewrite Nat.min_l by lia.
    eexists. split; [reflexivity|]. cbn [fst snd rows set_rows].
    split; [apply dismissContextMenu_closed|].
    split; [apply insert_at_length|].
    split; [|refold_nth; apply insert_at_here; lia].
    rewrite insert_at_below by lia. exact in_table.
  - intros HM. unfold menuMouseDown. rewrite (@showContextMenu_children this t x y r c tr in_table).
    cbn [menu_children nth_error].
    destruct (Nat.leb_spec (length (rows t)) 1); [lia|].
    cbn [runAction]. rewrite deleteRow_run by lia. cbn [bind fst snd].
    eexists. split; [reflexivity|]. cbn [fst snd rows set_rows].
    split; [apply dismissContextMenu_closed|].
    rewrite Nat2Z.id. reflexivity.
  - intros HM. unfold menuMouseDown.
    rewrite (@showContextMenu_children this t x y r c tr in_table).
    cbn [menu_children nth_error].
    destruct (Nat.leb_spec (length (rows t)) 1); [|lia].
    eexists. eexists. split; [reflexivity|].
    cbn [menu_children nth_error]. split; [reflexivity|].
    split; [reflexivity|]. cbn [fst snd]. split; [reflexivity|].
    split; [apply dismissContextMenu_closed|].
    unfold untouched_but_menu, showContextMenu, dismissContextMenu.
    cbn [contextMenu set_contextMenu set_contextCell options drag overlay quill].
    destruct (contextMenu this);
      cbn [contextMenu set_contextMenu set_contextCell options drag overlay quill];
      repeat split; reflexivity.
Qed.

End MenuRows.

Lemma menu_row_entries_witness :
  exists st,
    menuMouseDown (showContextMenu Fixture.plugin (Fixture.table 100 30) 50 20
                                   (0%nat, 1%nat))
                  (Fixture.table 100 30) 6 = Ok st /\
    rows (snd st) = remove_at 0 (rows (Fixture.table 100 30)).
Proof.
  destruct (@menu_row_entries
              Fixture.plugin (Fixture.table 100 30) 50 20 0 1
              (Fixture.rowAt ["A1"; "B1"; "C1"]%string 100 30 0) eq_refl)
    as (_ & _ & Hdelete & _).
  destruct (Hdelete ltac:(simpl; lia)) as (st & Hrun & _ & Hrows).
  exists st. split; [exact Hrun | exact Hrows].
Defined.

Lemma getCellColIndex_plain (tr : Row) (c : nat) :
  Forall (fun s => colSpanOr1 s = 1%nat) (firstn c (cells tr)) ->
  (c <= length (cells tr))%nat ->
  getCellColIndex tr c = Z.of_nat c.
Proof.
  intros Hplain Hc.
  change (getCellColIndex tr c) with (spanSum (rev (firstn c (cells tr)))).
  rewrite spanSum_rev, (spanSum_unit Hplain), length_firstn. lia.
Qed.

Section MenuColumns.

Variables (this : ResizableTable) (t : Table) (x y : Q).
Variables (r c : nat) (tr : Row) (td : Cell).
Hypothesis in_table : nth_error (rows t) r = Some tr.
Hypothesis in_row : nth_error (cells tr) c = Some td.
Hypothesis no_span_before :
  Forall (fun s => colSpanOr1 s = 1%nat) (firstn c (cells tr)).

Lemma cell_in_range : (c < length (cells tr))%nat.
Proof. apply nth_error_Some. rewrite in_row. discriminate. Qed.

Lemma clicked_column : getCellColIndex tr c = Z.of_nat c.
Proof.
  apply getCellColIndex_plain; [exact no_span_before|].
  pose proof cell_in_range. lia.
Qed.

(** X14.  When no cell before the clicked one spans several columns in
    its row, the column entries of the menu act on the clicked cell:
    "Insert Column Left" puts a blank cell at its position and moves it up
    by one, "Insert Column Right" puts the blank cell right after it, and
    "Delete Column" (enabled when the table has more than one visual
    column) removes it from its row; each of them closes the menu. *)
Theorem menu_column_entries :
  (exists st tr',
      menuMouseDown (showContextMenu this t x y (r, c)) t 0 = Ok st /\
      contextMenu (fst st) = None /\
      nth_error (rows (snd st)) r = Some tr' /\
      nth_error (cells tr') c = Some blankCell /\
      nth_error (cells tr') (S c) = Some td) /\
  (exists st tr',
      menuMouseDown (showContextMenu this t x y (r, c)) t 1 = Ok st /\
      contextMenu (fst st) = None /\
      nth_error (rows (snd st)) r = Some tr' /\
      nth_error (cells tr') c = Some td /\
      nth_error (cells tr') (S c) = Some blankCell) /\
  ((1 < getColumnCount t)%Z ->
   exists st tr',
     menuMouseDown (showContextMenu this t x y (r, c)) t 2 = Ok st /\
     contextMenu (fst st) = None /\
     nth_error (rows (snd st)) r = Some tr' /\
     cells tr' = remove_at c (cells tr)).
Proof.
  pose proof cell_in_range as Hc.
  split; [|split].
  - destruct (@insertColumn_run (showContextMenu this t x y (r, c)) t (Z.of_nat c) before
                ltac:(simpl; lia)) as (t' & Hrun & Hrows & _).
    unfold menuMouseDown. rewrite (@showContextMenu_children this t x y r c tr in_table).
    cbn [menu_children nth_error runAction].
    rewrite clicked_column. rewrite Hrun. cbn [bind fst snd].
    eexists. exists (withCell c tr).
    split; [reflexivity|]. cbn [fst snd].
    split; [apply dismissContextMenu_closed|].
    split; [rewrite Hrows, nth_error_map, in_table;
            cbn [targetOf]; rewrite Nat2Z.id; reflexivity|].
    unfold withCell. cbn [cells set_cells]. rewrite Nat.min_l by lia.
    split; [apply insert_at_here; lia|].
    refold_nth. rewrite insert_at_above by lia. exact in_row.
  - destruct (@insertColumn_run (showContextMenu this t x y (r, c)) t (Z.of_nat c) after
                ltac:(simpl; lia)) as (t' & Hrun & Hrows & _).
    unfold menuMouseDown. rewrite (@showContextMenu_children this t x y r c tr in_table).
    cbn [menu_children nth_error runAction].
    rewrite clicked_column. rewrite Hrun. cbn [bind fst snd].
    eexists. exists (withCell (S c) tr).
    split; [reflexivity|]. cbn [fst snd].
    split; [apply dismissContextMenu_closed|].
    split; [rewrite Hrows, nth_error_map, in_table; cbn [targetOf];
            replace (Z.to_nat (Z.of_nat c + 1)) with (S c) by lia;
            reflexivity|].
    unfold withCell. cbn [cells set_cells]. rewrite Nat.min_l by lia.
    split; [|refold_nth; apply insert_at_here; lia].
    rewrite insert_at_below by lia. exact in_row.
  - intros HN.
    destruct (@deleteColumn_run (showContextMenu this t x y (r, c)) t (Z.of_nat c) ltac:(lia) HN)
      as (t' & Hrun & Hrows & _).
    unfold menuMouseDown. rewrite (@showContextMenu_children this t x y r c tr in_table).
    cbn [menu_children nth_error].
    destruct (Z.leb_spec (getColumnCount t) 1); [lia|].
    cbn [runAction]. rewrite clicked_column. fold (showContextMenu this t x y (r, c)).
    rewrite Hrun. cbn [bind fst snd].
    eexists. exists (withoutCell c tr).
    split; [reflexivity|]. cbn [fst snd].
    split; [apply dismissContextMenu_closed|].
    split; [rewrite Hrows, nth_error_map, in_table, Nat2Z.id; reflexivity|].
    unfold withoutCell.
    destruct (Nat.ltb_spec c (length (cells tr))); [reflexivity|lia].
Qed.

End MenuColumns.

Lemma menu_column_entries_witness :
  exists st tr',
    menuMouseDown (showContextMenu Fixture.plugin (Fixture.table 100 30) 50 20
                                   (0%nat, 1%nat))
                  (Fixture.table 100 30) 2 = Ok st /\
    nth_error (rows (snd st)) 0 = Some tr' /\
    map innerHTML (cells tr') = ["A1"; "C1"]%string.
Proof.
  destruct (@menu_column_entries
              Fixture.plugin (Fixture.table 100 30) 50 20 0 1
              (Fixture.rowAt ["A1"; "B1"; "C1"]%string 100 30 0)
              (Fixture.cellAt "B1" 100 30 0 1) eq_refl eq_refl
              ltac:(repeat constructor))
    as (_ & _ & Hdelete).
  destruct (Hdelete ltac:(vm_compute; reflexivity))
    as (st & tr' & Hrun & _ & Hrow & Hcells).
  exists st, tr'. split; [exact Hrun|]. split; [exact Hrow|].
  rewrite Hcells. reflexivity.
Defined.

(** A cell after a spanning cell: the menu hands the visual column index
    (2) to [deleteColumn], which counts cells; the clicked cell "C1" (the
    second cell of its row) stays and the third cell of the other row
    goes. *)
Example menu_delete_column_after_span :
  match menuMouseDown (showContextMenu Fixture.plugin Fixture.spanTable 250 10
                                       (0%nat, 1%nat))
                      Fixture.spanTable 2 with
  | Ok (_, t') => Fixture.texts t' = [["AB"; "C1"]; ["A2"; "B2"]]%string
  | Throw _ => False
  end.
Proof. vm_compute. reflexivity. Qed.

(** * The menu, the cursor hint and the edge buttons *)

(** X15.  A secondary click outside a cell leaves the instance alone.
    Inside a cell it opens a menu anchored at the pointer; Escape and a
    click elsewhere close that menu, any other key leaves it open.  The
    remembered cell is the clicked one when no menu was open before, and
    is cleared when the click replaced an open menu. *)
Theorem contextMenu_lifecycle (this : ResizableTable) (t : Table) (e : MouseEvent) :
  (target e = None -> onContextMenu this t e = this) /\
  (forall r c tr td,
      target e = Some (r, c) ->
      nth_error (rows t) r = Some tr ->
      nth_error (cells tr) c = Some td ->
      exists m,
        contextMenu (onContextMenu this t e) = Some m /\
        menu_left m = clientX e /\ menu_top m = clientY e /\
        contextMenu (onKeyDown (onContextMenu this t e) "Escape") = None /\
        (forall key, key <> "Escape"%string ->
                     onKeyDown (onContextMenu this t e) key
                     = onContextMenu this t e) /\
        contextMenu (dismissContextMenu (onContextMenu this t e)) = None /\
        (contextMenu this = None ->
         contextCell (onContextMenu this t e) = Some (r, c)) /\
        (contextMenu this <> None ->
         contextCell (onContextMenu this t e) = None)).
Proof.
  split.
  - intros Hout. unfold onContextMenu. rewrite Hout. reflexivity.
  - intros r c tr td Hcell Hrow Hin.
    unfold onContextMenu. rewrite Hcell. cbn [fst snd]. rewrite Hrow, Hin.
    eexists. split; [reflexivity|]. cbn [menu_left menu_top].
    split; [reflexivity|]. split; [reflexivity|].
    split; [apply dismissContextMenu_closed|].
    split.
    { intros key Hkey. unfold onKeyDown.
      destruct (String.eqb_spec key "Escape"); [contradiction|reflexivity]. }
    split; [apply dismissContextMenu_closed|].
    unfold showContextMenu, dismissContextMenu.
    cbn [contextMenu contextCell set_contextCell set_contextMenu].
    destruct (contextMenu this); split; intros H;
      try reflexivity; try discriminate; contradiction.
Qed.

Lemma contextMenu_lifecycle_witness :
  onContextMenu Fixture.plugin (Fixture.table 100 30) (mkMouse 10 10 None)
  = Fixture.plugin.
Proof.
  apply (proj1 (contextMenu_lifecycle Fixture.plugin (Fixture.table 100 30)
                                      (mkMouse 10 10 None))).
  reflexivity.
Defined.

(** X16.  The cursor hint tells the truth about the drag: outside a drag,
    after a pointer move at most one cell carries a resize class, that
    cell is the one under the pointer, and its class names the very edge
    of the session a [mousedown] at the same point opens, whose overlay
    shows the cursor of that edge; a move that hits no edge leaves no
    class; during a drag the classes are left as they are. *)
Theorem onEditorMouseMove_hint (this : ResizableTable) (t : Table)
        (e : MouseEvent) (classes : CursorClasses) :
  (drag this = None ->
   (length (onEditorMouseMove this t e classes) <= 1)%nat /\
   (detectEdge this t e = None -> onEditorMouseMove this t e classes = []) /\
   (forall cell k,
       In (cell, k) (onEditorMouseMove this t e classes) ->
       target e = Some cell /\
       exists d,
         drag (fst (onEditorMouseDown this t e)) = Some d /\
         edge d = k /\
         (overlay this = None ->
          overlay (fst (onEditorMouseDown this t e)) = Some (cursorOf k)))) /\
  (drag this <> None -> onEditorMouseMove this t e classes = classes).
Proof.
  split.
  - intros Hidle. unfold onEditorMouseMove, onEditorMouseDown. rewrite Hidle.
    destruct (detectEdge this t e) as [hit|] eqn:Hhit.
    + destruct (target e) as [cell|] eqn:Hcell.
      * split; [simpl; lia|]. split; [discriminate|].
        intros cell' k [Hin|[]]. injection Hin as <- <-.
        split; [reflexivity|].
        eexists. cbn [fst].
        split.
        { unfold addOverlay. cbn [overlay set_drag drag].
          destruct (overlay this); reflexivity. }
        split; [reflexivity|].
        intros Hnone. unfold addOverlay. cbn [overlay set_drag drag].
        rewrite Hnone. cbn [overlay set_overlay edge].
        destruct (hit_edge hit); reflexivity.
      * split; [simpl; lia|]. split; [discriminate|]. intros ? ? [].
    + split; [simpl; lia|]. split; [reflexivity|]. intros ? ? [].
  - intros Hdrag. unfold onEditorMouseMove.
    destruct (drag this); [reflexivity|contradiction].
Qed.

Lemma onEditorMouseMove_hint_witness :
  onEditorMouseMove Fixture.plugin (Fixture.table 100 30)
                    (Fixture.downRight 100) [((1%nat, 1%nat), row)]
  = [((0%nat, 0%nat), col)] /\
  (length (onEditorMouseMove Fixture.plugin (Fixture.table 100 30)
                             (Fixture.downRight 100) [((1%nat, 1%nat), row)])
   <= 1)%nat.
Proof.
  split; [vm_compute; reflexivity|].
  apply (proj1 (@onEditorMouseMove_hint
                  Fixture.plugin (Fixture.table 100 30)
                  (Fixture.downRight 100) [((1%nat, 1%nat), row)])).
  reflexivity.
Defined.

(** X17.  The three buttons come and go together: in every state the
    handlers reach from a consistent one, the add-column, add-row and
    delete-table buttons are all present or all absent, the scroll
    listener is registered exactly while they are present, and they are
    present for a hovered table only.  This holds across [mouseover],
    [mouseout], the hide timeout, [scroll], the listeners of the buttons
    and [removeEdgeButtons]; for the [mousedown] of a button, given that
    the button exists. *)
Theorem buttonsConsistent_preserved (s : EdgeButtons) :
  buttonsConsistent s ->
  (forall table rect w, buttonsConsistent (onEditorMouseOver s table rect w)) /\
  (forall related, buttonsConsistent (onEditorMouseOut s related)) /\
  buttonsConsistent (hideTimerFires s) /\
  (forall rect w, buttonsConsistent (onScroll s rect w)) /\
  buttonsConsistent (buttonMouseEnter s) /\
  (forall id related,
      buttonsConsistent (addColMouseLeave s id related) /\
      buttonsConsistent (addRowMouseLeave s id related) /\
      buttonsConsistent (deleteTableMouseLeave s id related)) /\
  buttonsConsistent (removeEdgeButtons s) /\
  (forall this t rect w st,
      isSome (addColBtn s) = true ->
      (addColMouseDown this s t rect w = Ok st ->
       buttonsConsistent (snd (fst st))) /\
      (addRowMouseDown this s t rect w = Ok st ->
       buttonsConsistent (snd (fst st)))) /\
  (forall this t, buttonsConsistent (snd (fst (deleteTableMouseDown this s t)))).
Proof.
  destruct s as [ac ar dt ht timer scroll].
  unfold buttonsConsistent. cbn. intros (Har & Hdt & Hscroll & Hhover).
  split; [|split; [|split; [|split; [|split; [|split; [|split; [|split]]]]]]].
  - intros [id|] rect w; cbn; [|repeat split; assumption].
    destruct ht as [h|]; cbn; [destruct (h =? id)%nat; cbn|];
      repeat split; try assumption; try reflexivity.
  - intros related. unfold onEditorMouseOut. cbn.
    destruct ht as [h|]; cbn; [|repeat split; assumption].
    match goal with
    | |- context [if ?b then _ else _] => destruct b
    end; cbn; repeat split; assumption.
  - unfold hideTimerFires. cbn. destruct timer; cbn;
      repeat split; try assumption; try reflexivity. intros H; discriminate H.
  - intros rect w. unfold onScroll. cbn.
    destruct ht as [h|]; cbn; [|repeat split; assumption].
    destruct ac, ar, dt; cbn in *; repeat split;
      try assumption; try reflexivity; try discriminate.
  - repeat split; assumption.
  - intros id related.
    unfold addColMouseLeave, addRowMouseLeave, deleteTableMouseLeave.
    repeat split;
      match goal with
      | |- context [if ?b then _ else _] => destruct b
      end; cbn; assumption.
  - repeat split; try reflexivity. intros H; discriminate H.
  - intros this t rect w st Hbtn.
    unfold addColMouseDown, addRowMouseDown.
    split.
    + destruct (insertColumn this t _ after) as [st1|]; [|discriminate].
      cbn. intros H. injection H as Hst. subst st. cbn.
      repeat split. intros _. apply Hhover. exact Hbtn.
    + destruct (insertRow this t _ after) as [st1|]; [|discriminate].
      cbn. intros H. injection H as Hst. subst st. cbn.
      repeat split. intros _. apply Hhover. exact Hbtn.
  - intros this t. cbn. repeat split. intros H; discriminate H.
Qed.

Lemma buttonsConsistent_preserved_witness :
  buttonsConsistent
    (onEditorMouseOut
       (onEditorMouseOver (mkEdgeButtons None None None None false false)
                          (Some 0%nat) (mkRect 0 0 300 60) 1000)
       Elsewhere).
Proof.
  assert (Hstart : buttonsConsistent
                     (mkEdgeButtons None None None None false false))
    by (repeat split; intros H; discriminate H).
  destruct (buttonsConsistent_preserved Hstart) as [Hover _].
  destruct (buttonsConsistent_preserved (Hover (Some 0%nat) (mkRect 0 0 300 60) 1000))
    as (_ & Hout & _).
  apply Hout.
Defined.

(** X18.  Hiding is debounced.  Entering a table that is not the hovered
    one shows the three buttons at the places its bounding box gives and
    leaves no timeout pending.  From there, leaving towards the table
    itself or one of the buttons changes nothing; leaving towards
    anything else keeps the buttons and sets the timeout; coming back to
    the same table before it fires restores the very state; and when it
    fires the buttons, the scroll listener and the hovered table are
    gone.  A timeout that was cancelled does nothing when its time
    comes. *)
Theorem hover_debounce (s : EdgeButtons) (id : TableId) (rect : Rect) (w : Q) :
  hoveredTable s <> Some id ->
  let shown := onEditorMouseOver s (Some id) rect w in
  shown = mkEdgeButtons (Some (addColAt rect)) (Some (addRowAt rect))
                        (Some (deleteTableAt rect w)) (Some id) false true /\
  onEditorMouseOut shown (InTable id) = shown /\
  onEditorMouseOut shown OnAddCol = shown /\
  onEditorMouseOut shown OnAddRow = shown /\
  onEditorMouseOut shown OnDeleteTable = shown /\
  (forall related,
      related = Nowhere \/ related = Elsewhere \/
      (exists other, related = InTable other /\ other <> id) ->
      onEditorMouseOut shown related
      = mkEdgeButtons (addColBtn shown) (addRowBtn shown) (deleteTableBtn shown)
                      (Some id) true true /\
      (forall rect' w',
          onEditorMouseOver (onEditorMouseOut shown related) (Some id) rect' w'
          = shown) /\
      hideTimerFires (onEditorMouseOut shown related)
      = mkEdgeButtons None None None None false false) /\
  hideTimerFires shown = shown.
Proof.
  intros Hnew shown.
  assert (Hshown : shown
                   = mkEdgeButtons (Some (addColAt rect)) (Some (addRowAt rect))
                                   (Some (deleteTableAt rect w)) (Some id)
                                   false true).
  { unfold shown, onEditorMouseOver.
    destruct (hoveredTable s) as [h|] eqn:Hh; [|reflexivity].
    destruct (Nat.eqb_spec h id) as [->|Hne]; [contradiction|reflexivity]. }
  rewrite Hshown.
  split; [reflexivity|].
  unfold onEditorMouseOut, hideTimerFires, onEditorMouseOver.
  cbn. rewrite !Nat.eqb_refl. cbn.
  do 4 (split; [reflexivity|]).
  split; [|reflexivity].
  intros related [->|[->|(other & -> & Hother)]]; cbn;
    try (destruct (Nat.eqb_spec other id) as [Heq|_]; [contradiction|]);
    cbn; rewrite ?Nat.eqb_refl; repeat split; reflexivity.
Qed.

Lemma hover_debounce_witness :
  hideTimerFires
    (onEditorMouseOut
       (onEditorMouseOver (mkEdgeButtons None None None None false false)
                          (Some 0%nat) (mkRect 0 0 300 60) 1000)
       Elsewhere)
  = mkEdgeButtons None None None None false false.
Proof.
  destruct (@hover_debounce (mkEdgeButtons None None None None false false)
              0%nat (mkRect 0 0 300 60) 1000 ltac:(discriminate))
    as (_ & _ & _ & _ & _ & Hleave & _).
  destruct (Hleave Elsewhere ltac:(right; left; reflexivity)) as (_ & _ & Hfire).
  exact Hfire.
Defined.

(** X19.  The two add buttons never throw, whatever the table (also one
    without rows or cells).  The add-column button gives every row that
    is not longer than the visual column count a blank cell at its end,
    so the visual column count of a table with a row grows by one; the
    add-row button puts a blank row of one cell per visual column at the
    end of the table.  Both leave the three buttons shown at the places
    the new bounding box gives, with no timeout pending. *)
Theorem edge_buttons_add (this : ResizableTable) (s : EdgeButtons) (t : Table)
        (rect : Rect) (w : Q) :
  let shown := mkEdgeButtons (Some (addColAt rect)) (Some (addRowAt rect))
                             (Some (deleteTableAt rect w))
                             (hoveredTable s) false true in
  (exists t',
      addColMouseDown this s t rect w = Ok (syncQuill this, shown, t') /\
      length (rows t') = length (rows t) /\
      (forall r tr,
          nth_error (rows t) r = Some tr ->
          (Z.of_nat (length (cells tr)) <= getColumnCount t)%Z ->
          nth_error (rows t') r = Some (set_cells tr (cells tr ++ [blankCell]))) /\
      (rows t <> [] -> getColumnCount t' = (getColumnCount t + 1)%Z)) /\
  (exists t',
      addRowMouseDown this s t rect w = Ok (syncQuill this, shown, t') /\
      rows t' = rows t ++ [blankRow (getColumnCount t)] /\
      colgroup t' = colgroup t).
Proof.
  intros shown.
  pose proof (getColumnCount_nonneg t) as HN.
  split.
  - destruct (@insertColumn_run this t (getColumnCount t - 1) after
                ltac:(simpl; lia)) as (t' & Hrun & Hrows & _).
    cbn [targetOf] in Hrows.
    replace (Z.to_nat (getColumnCount t - 1 + 1))
      with (Z.to_nat (getColumnCount t)) in Hrows by lia.
    exists t'. unfold addColMouseDown. rewrite Hrun.
    split; [reflexivity|].
    split; [rewrite Hrows; apply length_map|].
    split.
    + intros r tr Hr Hlen. rewrite Hrows, nth_error_map, Hr. cbn [option_map].
      unfold withCell. rewrite Nat.min_r by lia.
      rewrite insert_at_end. reflexivity.
    + intros Hne. rewrite !getColumnCount_rows, Hrows.
      destruct (rows t) as [|firstRow rs]; [contradiction|].
      cbn [map]. unfold withCell. cbn [cells set_cells].
      rewrite spanSum_insert_at. reflexivity.
  - pose proof (@insertRow_table this t (Z.of_nat (length (rows t)) - 1) after
                  ltac:(simpl; lia)) as Hrun.
    cbn [targetOf] in Hrun.
    replace (Z.to_nat (Z.of_nat (length (rows t)) - 1 + 1))
      with (length (rows t)) in Hrun by lia.
    rewrite Nat.min_id, insert_at_end in Hrun.
    eexists. unfold addRowMouseDown. rewrite Hrun.
    split; [reflexivity|]. split; reflexivity.
Qed.

(** The add-column button on the table of the test suite. *)
Example addColMouseDown_scenario :
  match addColMouseDown Fixture.plugin
                        (mkEdgeButtons None None None (Some 0%nat) false false)
                        (Fixture.table 100 30) (mkRect 0 0 330 60) 1000 with
  | Ok (_, _, t') =>
      Fixture.texts t'
      = [["A1"; "B1"; "C1"; "<br>"]; ["A2"; "B2"; "C2"; "<br>"]]%string
  | Throw _ => False
  end.
Proof. vm_compute. reflexivity. Qed.

(** X20.  After [destroy] nothing transient is left: no drag overlay, no
    menu, none of the three buttons, no scroll listener and no pending
    timeout, so a timeout scheduled before does nothing when its time
    comes; a second [destroy] changes nothing.  The table is not touched,
    and the record of a drag session, if one was open, stays. *)
Theorem destroy_clean (this : ResizableTable) (s : EdgeButtons) :
  overlay (fst (destroy this s)) = None /\
  contextMenu (fst (destroy this s)) = None /\
  addColBtn (snd (destroy this s)) = None /\
  addRowBtn (snd (destroy this s)) = None /\
  deleteTableBtn (snd (destroy this s)) = None /\
  scrollListener (snd (destroy this s)) = false /\
  hideEdgeBtnTimer (snd (destroy this s)) = false /\
  hideTimerFires (snd (destroy this s)) = snd (destroy this s) /\
  destroy (fst (destroy this s)) (snd (destroy this s)) = destroy this s /\
  drag (fst (destroy this s)) = drag this /\
  options (fst (destroy this s)) = options this /\
  quill (fst (destroy this s)) = quill this.
Proof.
  unfold destroy, dismissContextMenu, removeOverlay, removeEdgeButtons,
    hideTimerFires.
  cbn. destruct (contextMenu this) eqn:Hmenu; cbn; rewrite ?Hmenu;
    repeat split; reflexivity.
Qed.

Lemma edge_buttons_add_witness :
  exists t',
    addRowMouseDown Fixture.plugin
                    (mkEdgeButtons None None None (Some 0%nat) false false)
                    (Fixture.table 100 30) (mkRect 0 0 300 90) 1000
    = Ok (syncQuill Fixture.plugin,
          mkEdgeButtons (Some (addColAt (mkRect 0 0 300 90)))
                        (Some (addRowAt (mkRect 0 0 300 90)))
                        (Some (deleteTableAt (mkRect 0 0 300 90) 1000))
                        (Some 0%nat) false true,
          t') /\
    rows t' = rows (Fixture.table 100 30) ++ [blankRow 3].
Proof.
  destruct (edge_buttons_add Fixture.plugin
              (mkEdgeButtons None None None (Some 0%nat) false false)
              (Fixture.table 100 30) (mkRect 0 0 300 90) 1000)
    as (_ & t' & Hrun & Hrows & _).
  exists t'. split; [exact Hrun | exact Hrows].
Defined.

(** * A drag from [mousedown] to [mousemove] *)

Lemma JS_set_other (arr : list JS.val) (i : Z) (v : JS.val) (k : nat) :
  (0 <= i)%Z -> k <> Z.to_nat i -> (k < length arr)%nat ->
  nth_error (JS.set arr i v) k = nth_error arr k.
Proof.
  intros Hi Hne Hk. unfold JS.set.
  replace (i <? 0)%Z with false by (symmetry; apply Z.ltb_ge; lia).
  destruct (Nat.ltb_spec (Z.to_nat i) (length arr)) as [Hlt|Hge].
  - destruct (nth_error arr (Z.to_nat i)) as [x|] eqn:Hx;
      [|apply nth_error_None in Hx; lia].
    change (firstn (Z.to_nat i) arr ++ v :: skipn (S (Z.to_nat i)) arr)
      with (firstn (Z.to_nat i) arr
            ++ (fun _ : JS.val => v) x :: skipn (S (Z.to_nat i)) arr).
    pose proof (@update_at_other _ (Z.to_nat i) k (fun _ => v) arr Hne) as H.
    unfold update_at in H. rewrite Hx in H. exact H.
  - apply nth_error_app1. exact Hk.
Qed.

Section FromMouseDown.

Variables (this : ResizableTable) (t : Table) (e e2 : MouseEvent).
Variables (r c : nat) (tr : Row) (td : Cell) (hit : Hit).
Hypothesis on_cell : target e = Some (r, c).
Hypothesis in_table : nth_error (rows t) r = Some tr.
Hypothesis in_row : nth_error (cells tr) c = Some td.
Hypothesis is_hit : detectEdge this t e = Some hit.
Hypothesis not_wider : (spanSum (cells tr) <= getColumnCount t)%Z.
Hypothesis rowSpan_fits :
  (Z.of_nat r + Z.of_nat (rowSpanOr1 td) <= Z.of_nat (length (rows t)))%Z.
Hypothesis laid_out : measured t.

Lemma hit_in_table :
  (0 <= hit_colIndex hit < getColumnCount t)%Z /\
  (0 <= hit_rowIndex hit < Z.of_nat (length (rows t)))%Z.
Proof.
  pose proof (getCellColIndex_nonneg tr c) as Hcol0.
  pose proof (getCellColIndex_bound tr c in_row) as Hcol1.
  pose proof (colSpanOr1_pos td) as Hcs.
  pose proof (rowSpanOr1_pos td) as Hrs.
  revert is_hit. unfold detectEdge, getCellRowIndex.
  rewrite on_cell, in_table, in_row.
  repeat match goal with
         | |- context [if ?b then _ else _] => destruct b
         end;
    intros H; try discriminate; injection H as <-; simpl; lia.
Qed.

Lemma mousedown_state :
  exists ov,
    onEditorMouseDown this t e
    = (mkThis (quill this) (options this)
              (Some (mkDrag (hit_edge hit) (clientX e) (clientY e)
                            (hit_colIndex hit) (hit_rowIndex hit)
                            (getColumnWidths t) (getRowHeights t)
                            (table_offsetWidth t) (table_offsetHeight t)))
              ov (contextMenu this) (contextCell this),
       applyRowHeights (applyColumnWidths t (getColumnWidths t))
                       (getRowHeights t)).
Proof.
  unfold onEditorMouseDown. rewrite is_hit.
  unfold addOverlay. cbn [overlay set_drag drag].
  destruct (overlay this); eexists; reflexivity.
Qed.

(** X21.  A drag, end to end, on a table the host has laid out, where
    the row of the pointed cell is not wider than the first row and the
    rowspan of the cell stays inside the table.  After a [mousedown] on
    the right edge of the cell and a [mousemove] by [dx], the colgroup has
    one entry per visual column, every entry but the target's holds the
    measured width of its column, and the entry of the target column
    holds [max minColumnWidth (measured width + dx)], or, when that is
    negative (a negative configured minimum), the measured width.  After
    a [mousedown] on the bottom edge and a [mousemove] by [dy], every row
    but the target has its measured height as inline height, and the
    target row has [max minRowHeight (measured height + dy)], or its
    measured height when that maximum is negative; no cell is touched. *)
Theorem drag_from_mousedown :
  let down := onEditorMouseDown this t e in
  let dx := clientX e2 - clientX e in
  let dy := clientY e2 - clientY e in
  let minW := minColumnWidth (options this) in
  let minH := minRowHeight (options this) in
  (hit_edge hit = col ->
   exists w st cg c,
     nth_error (getColumnWidths t) (Z.to_nat (hit_colIndex hit))
     = Some (JS.Num w) /\
     onDocumentMouseMove (fst down) (snd down) e2 = Ok st /\
     colgroup (snd st) = Some cg /\
     Z.of_nat (length cg) = getColumnCount t /\
     nth_error cg (Z.to_nat (hit_colIndex hit)) = Some c /\
     ((0 <= Qmax minW (w + dx))%Q ->
      col_width c = Some (JS.Num (Qmax minW (w + dx)))) /\
     ((Qmax minW (w + dx) < 0)%Q -> col_width c = Some (JS.Num w)) /\
     (forall k, k <> Z.to_nat (hit_colIndex hit) ->
                nth_error cg k
                = option_map (fun v => mkCol (Some v))
                             (nth_error (getColumnWidths t) k))) /\
  (hit_edge hit = row ->
   exists trow st trow',
     nth_error (rows t) (Z.to_nat (hit_rowIndex hit)) = Some trow /\
     onDocumentMouseMove (fst down) (snd down) e2 = Ok st /\
     nth_error (rows (snd st)) (Z.to_nat (hit_rowIndex hit)) = Some trow' /\
     cells trow' = cells trow /\
     ((0 <= Qmax minH (row_offsetHeight trow + dy))%Q ->
      row_height trow'
      = Some (JS.Num (Qmax minH (row_offsetHeight trow + dy)))) /\
     ((Qmax minH (row_offsetHeight trow + dy) < 0)%Q ->
      row_height trow' = Some (JS.Num (row_offsetHeight trow))) /\
     (forall k other,
         k <> Z.to_nat (hit_rowIndex hit) ->
         nth_error (rows t) k = Some other ->
         exists other',
           nth_error (rows (snd st)) k = Some other' /\
           cells other' = cells other /\
           row_height other' = Some (JS.Num (row_offsetHeight other)))).
Proof.
  intros down dx dy minW minH.
  destruct hit_in_table as [Hc Hr].
  destruct mousedown_state as [ov Hdown].
  unfold down. rewrite Hdown. cbn [fst snd].
  pose proof (@getColumnWidths_valid t laid_out) as Hvalid.
  destruct (@applyColumnWidths_exact t (getColumnWidths t) Hvalid) as [Hcg _].
  pose proof (@measured_heights t laid_out) as Hheights.
  pose proof (@applyHeights_measured (rows t) Hheights) as Hpinned.
  set (pinned := fun r0 : Row =>
                   mkRow (cells r0) (row_offsetHeight r0)
                         (Some (JS.Num (row_offsetHeight r0)))) in *.
  split.
  - intros Hedge.
    destruct (@getColumnWidths_Num t (Z.to_nat (hit_colIndex hit)) ltac:(lia))
      as [w Hw].
    unfold onDocumentMouseMove. cbn [drag edge colIndex options]. rewrite Hedge.
    assert (Hnew : dragNewWidth
                     (options this)
                     (mkDrag col (clientX e) (clientY e)
                             (hit_colIndex hit) (hit_rowIndex hit)
                             (getColumnWidths t) (getRowHeights t)
                             (table_offsetWidth t) (table_offsetHeight t)) e2
                   = JS.Num (Qmax minW (w + dx))).
    { unfold dragNewWidth. cbn [colWidths colIndex startX].
      rewrite (@JS_get_in _ (hit_colIndex hit) (JS.Num w)) by (lia || exact Hw).
      reflexivity. }
    rewrite Hnew.
    match goal with
    | |- context [resizeColumnDirect ?th ?u ?ci ?v] =>
        destruct (@resizeColumnDirect_on_colgroup
                    th u ci v
                    (map (fun w0 => mkCol (Some w0)) (getColumnWidths t))
                    ltac:(lia) Hcg)
          as (t' & Hrun & _ & Hcg');
        destruct (padded_update
                    (map (fun w0 => mkCol (Some w0)) (getColumnWidths t))
                    (Z.to_nat ci) DOM.newCol
                    (fun c0 => mkCol (setLength (col_width c0) v)))
          as (Hat & Hothers & Hlen)
    end.
    rewrite Hrun. cbn [bind].
    assert (Hold : nth (Z.to_nat (hit_colIndex hit))
                       (map (fun w0 => mkCol (Some w0)) (getColumnWidths t))
                       DOM.newCol
                   = mkCol (Some (JS.Num w))).
    { apply nth_error_nth. rewrite nth_error_map, Hw. reflexivity. }
    rewrite Hold in Hat. cbn [col_width] in Hat.
    exists w. eexists. eexists. eexists.
    split; [exact Hw|]. split; [reflexivity|]. cbn [snd].
    split; [exact Hcg'|].
    pose proof (getColumnWidths_length t) as HN.
    split; [rewrite Hlen, length_map; lia|]. split; [exact Hat|].
    cbn [col_width].
    split; [|split].
    + intros Hkept. apply setLength_valid. apply validLength_Num. exact Hkept.
    + intros Hdropped. apply setLength_invalid.
      apply validLength_negative. exact Hdropped.
    + intros k Hne.
      destruct (Nat.lt_ge_cases k (length (getColumnWidths t))) as [Hk|Hk].
      * rewrite Hothers by (rewrite ?length_map; assumption).
        apply nth_error_map.
      * rewrite (proj2 (nth_error_None (getColumnWidths t) k)) by exact Hk.
        apply nth_error_None. rewrite Hlen, length_map. lia.
  - intros Hedge.
    destruct (nth_error (rows t) (Z.to_nat (hit_rowIndex hit))) as [trow|]
      eqn:Htarget; [|apply nth_error_None in Htarget; lia].
    unfold onDocumentMouseMove. cbn [drag edge rowIndex options]. rewrite Hedge.
    cbn [bind fst snd].
    assert (Hsnap : nth_error (getRowHeights t) (Z.to_nat (hit_rowIndex hit))
                    = Some (JS.Num (row_offsetHeight trow))).
    { unfold getRowHeights. rewrite nth_error_map, Htarget. reflexivity. }
    assert (Hnew : dragNewHeight
                     (options this)
                     (mkDrag row (clientX e) (clientY e)
                             (hit_colIndex hit) (hit_rowIndex hit)
                             (getColumnWidths t) (getRowHeights t)
                             (table_offsetWidth t) (table_offsetHeight t)) e2
                   = JS.Num (Qmax minH (row_offsetHeight trow + dy))).
    { unfold dragNewHeight. cbn [rowHeights rowIndex startY].
      rewrite (@JS_get_in _ (hit_rowIndex hit) _ ltac:(lia) Hsnap).
      reflexivity. }
    rewrite Hnew.
    exists trow. eexists. eexists.
    split; [reflexivity|]. split; [reflexivity|].
    cbn [snd]. unfold applyRowHeights. cbn [rows set_rows applyColumnWidths
                                            set_colgroup set_table_width
                                            set_layoutFixed].
    unfold getRowHeights in *. cbn [rowHeights rowIndex].
    rewrite Hpinned.
    assert (H1 : nth_error (map pinned (rows t)) (Z.to_nat (hit_rowIndex hit))
                 = Some (pinned trow))
      by (rewrite nth_error_map, Htarget; reflexivity).
    split.
    { rewrite (@applyHeights_at _ _ _ _ _ H1
                 (@JS_set_in _ (hit_rowIndex hit) _ ltac:(lia))).
      reflexivity. }
    cbn [cells row_height set_row_height pinned].
    split; [reflexivity|].
    split; [|split].
    + intros Hkept. apply setLength_valid. apply validLength_Num. exact Hkept.
    + intros Hdropped. apply setLength_invalid.
      apply validLength_negative. exact Hdropped.
    + intros k other Hne Hother.
      assert (Hk : (k < length (rows t))%nat)
        by (apply nth_error_Some; rewrite Hother; discriminate).
      assert (H3 : nth_error (map pinned (rows t)) k = Some (pinned other))
        by (rewrite nth_error_map, Hother; reflexivity).
      match goal with
      | |- context [applyHeights _ (JS.set ?arr ?i ?v)] =>
          assert (H2 : nth_error (JS.set arr i v) k
                       = Some (JS.Num (row_offsetHeight other)))
      end.
      { rewrite JS_set_other
          by first [exact Hne | rewrite length_map; exact Hk | lia].
        rewrite nth_error_map, Hother. reflexivity. }
      eexists. split; [apply (@applyHeights_at _ _ _ _ _ H3 H2)|].
      cbn [cells row_height set_row_height pinned].
      split; [reflexivity|].
      apply setLength_valid. apply validLength_Num.
      rewrite Forall_forall in Hheights. apply Hheights.
      apply (nth_error_In _ _ Hother).
Qed.

End FromMouseDown.

Lemma drag_from_mousedown_witness :
  exists st cg c,
    onDocumentMouseMove
      (fst (onEditorMouseDown Fixture.plugin (Fixture.table 100 30)
                              (Fixture.downRight 100)))
      (snd (onEditorMouseDown Fixture.plugin (Fixture.table 100 30)
                              (Fixture.downRight 100)))
      (Fixture.moved (Fixture.downRight 100) 30 0) = Ok st /\
    colgroup (snd st) = Some cg /\
    Z.of_nat (length cg) = 3%Z /\
    nth_error cg 0 = Some c /\
    col_width c = Some (JS.Num 130).
Proof.
  destruct (@drag_from_mousedown
              Fixture.plugin (Fixture.table 100 30) (Fixture.downRight 100)
              (Fixture.moved (Fixture.downRight 100) 30 0)
              0 0 (Fixture.rowAt ["A1"; "B1"; "C1"]%string 100 30 0)
              (Fixture.cellAt "A1" 100 30 0 0) (mkHit col 0 0)
              eq_refl eq_refl eq_refl
              ltac:(vm_compute; reflexivity)
              ltac:(vm_compute; discriminate)
              ltac:(vm_compute; discriminate)
              ltac:(repeat constructor; vm_compute; discriminate))
    as [Hcol _].
  destruct (Hcol eq_refl)
    as (w & st & cg & c & Hw & Hrun & Hcg & Hlen & Hnth & Hkept & _).
  vm_compute in Hw. injection Hw as <-.
  exists st, cg, c.
  split; [exact Hrun|]. split; [exact Hcg|].
  split; [exact Hlen|]. split; [exact Hnth|].
  apply Hkept.
  apply (Qle_trans 0 30); [vm_compute; discriminate | apply Qmax_lower].
Defined.
